(** * Telegram Web photo uploader: a shallow embedding of [content_script.js]

    The content script drives a page it does not control.  The embedding
    keeps the script's own structure: the [TelegramUploader] object becomes
    a group of definitions with the same names, promises become values of
    [Completion], and the page, the clock and every handle the script
    acquires live in an explicit [World] that is threaded through the calls.

    Modelling conventions, fixed once here:
    - a string holds the bytes of the UTF-8 encoding of the JavaScript
      string; [trim] strips the white space and the line terminators of
      ECMAScript, whatever their length in bytes; [toLowerCase] is exact on
      ASCII and Latin-1 and wherever its result could hold an ASCII letter,
      and leaves the letters of other scripts as they are, which no
      comparison with an ASCII word can tell;
    - an element implements one of four interfaces, [Interface]; a read of
      [className], [style] or [focus] that the interface does not provide
      in the form the script expects throws, as in the browser;
    - time is in milliseconds; synchronous code takes no time and a timer
      fires exactly when it is due; a page mutation stamped [t] is visible
      to any timer callback due at [t];
    - the page's behaviour is a list of future mutation batches; theorems
      quantify over all of them; a batch that is due when the script
      resumes after an [await] is performed before the script goes on,
      [resumed];
    - a message carries primitive values and plain objects; numbers are
      integers a JavaScript number holds exactly. *)

From Stdlib Require Import ZArith List String Ascii Bool Lia DecimalString.
Import ListNotations.
Open Scope string_scope.
Open Scope Z_scope.



(** ** JavaScript strings *)

Module Js.

(** White space and line terminators that take one byte: U+0009 to U+000D
    and U+0020. *)
Definition is_space (c : ascii) : bool :=
  let n := nat_of_ascii c in
  Nat.eqb n 32 || (Nat.leb 9 n && Nat.leb n 13).

(** U+00A0. *)
Definition is_space2 (a b : ascii) : bool :=
  Nat.eqb (nat_of_ascii a) 194 && Nat.eqb (nat_of_ascii b) 160.

(** U+1680, U+2000 to U+200A, U+2028, U+2029, U+202F, U+205F, U+3000 and
    U+FEFF. *)
Definition is_space3 (a b c : ascii) : bool :=
  let a := nat_of_ascii a in
  let b := nat_of_ascii b in
  let c := nat_of_ascii c in
  (Nat.eqb a 225 && Nat.eqb b 154 && Nat.eqb c 128)
  || (Nat.eqb a 226 && Nat.eqb b 128
      && ((Nat.leb 128 c && Nat.leb c 138)
          || Nat.eqb c 168 || Nat.eqb c 169 || Nat.eqb c 175))
  || (Nat.eqb a 226 && Nat.eqb b 129 && Nat.eqb c 159)
  || (Nat.eqb a 227 && Nat.eqb b 128 && Nat.eqb c 128)
  || (Nat.eqb a 239 && Nat.eqb b 187 && Nat.eqb c 191).

Fixpoint trimStart (s : string) : string :=
  match s with
  | EmptyString => EmptyString
  | String a r =>
      if is_space a then trimStart r
      else
        match r with
        | EmptyString => s
        | String b r' =>
            if is_space2 a b then trimStart r'
            else
              match r' with
              | EmptyString => s
              | String c r'' => if is_space3 a b c then trimStart r'' else s
              end
        end
  end.

(** The same from the end, on the bytes in reverse order. *)
Fixpoint dropSpaces_rev (l : list ascii) : list ascii :=
  match l with
  | [] => []
  | c :: r =>
      if is_space c then dropSpaces_rev r
      else
        match r with
        | [] => l
        | b :: r' =>
            if is_space2 b c then dropSpaces_rev r'
            else
              match r' with
              | [] => l
              | a :: r'' => if is_space3 a b c then dropSpaces_rev r'' else l
              end
        end
  end.

Definition trimEnd (s : string) : string :=
  string_of_list_ascii (rev (dropSpaces_rev (rev (list_ascii_of_string s)))).

(** [s.trim()] *)
Definition trim (s : string) : string := trimEnd (trimStart s).

(** ASCII lower case of one byte. *)
Definition lower (c : ascii) : ascii :=
  let n := nat_of_ascii c in
  if Nat.leb 65 n && Nat.leb n 90 then ascii_of_nat (n + 32) else c.

(** The second byte of U+00C0 to U+00DE, U+00D7 apart: the capital letters
    of Latin-1, whose small letters stand 32 code points further. *)
Definition is_latin1_capital (b : ascii) : bool :=
  let n := nat_of_ascii b in
  Nat.leb 128 n && Nat.leb n 158 && negb (Nat.eqb n 151).

(** [s.toLowerCase()]: exact on ASCII and Latin-1, and on U+0130 and U+212A,
    the two code points beyond them whose lower case holds an ASCII letter;
    every other code point is left as it is. *)
Fixpoint toLowerCase (s : string) : string :=
  match s with
  | EmptyString => EmptyString
  | String a r =>
      match r with
      | EmptyString => String (lower a) EmptyString
      | String b r' =>
          if Nat.eqb (nat_of_ascii a) 196 && Nat.eqb (nat_of_ascii b) 176
          then String "i"%char (String (ascii_of_nat 204) (String (ascii_of_nat 135)
                                                            (toLowerCase r')))
          else if Nat.eqb (nat_of_ascii a) 195 && is_latin1_capital b
          then String a (String (ascii_of_nat (nat_of_ascii b + 32)) (toLowerCase r'))
          else
            match r' with
            | EmptyString => String (lower a) (toLowerCase r)
            | String c r'' =>
                if Nat.eqb (nat_of_ascii a) 226 && Nat.eqb (nat_of_ascii b) 132
                   && Nat.eqb (nat_of_ascii c) 170
                then String "k"%char (toLowerCase r'')
                else String (lower a) (toLowerCase r)
            end
      end
  end.

(** [hay.includes(needle)] *)
Fixpoint includes (hay needle : string) : bool :=
  String.prefix needle hay
  || match hay with
     | EmptyString => false
     | String _ r => includes r needle
     end.

(** Interpolation of an integer inside a template literal. *)
Definition of_Z (z : Z) : string := NilZero.string_of_int (Z.to_int z).

(** An integer that a JavaScript number holds exactly. *)
Definition MAX_SAFE_INTEGER : Z := 9007199254740991.

Record SafeInteger : Type := mkSafeInteger {
  integer : Z;
  integer_safe : (Z.abs integer <=? MAX_SAFE_INTEGER) = true
}.

(** [a || b] on a string that may be missing: [undefined], [null] and the
    empty string are the falsy cases. *)
Definition or_else (a : option string) (b : string) : string :=
  match a with
  | Some (String _ _ as s) => s
  | _ => b
  end.

(** The white space of the DOM standard, which separates the tokens of a
    [class] attribute: U+0009, U+000A, U+000C, U+000D and U+0020. *)
Definition is_ascii_whitespace (c : ascii) : bool :=
  let n := nat_of_ascii c in
  Nat.eqb n 32 || Nat.eqb n 9 || Nat.eqb n 10 || Nat.eqb n 12 || Nat.eqb n 13.

(** Splitting a [class] attribute into its tokens, as [classList] does. *)
Fixpoint tokens_aux (cur : string) (s : string) : list string :=
  match s with
  | EmptyString => match cur with EmptyString => [] | _ => [cur] end
  | String c r =>
      if is_ascii_whitespace c
      then match cur with
           | EmptyString => tokens_aux EmptyString r
           | _ => cur :: tokens_aux EmptyString r
           end
      else tokens_aux (cur ++ String c EmptyString) r
  end.

Definition tokens (s : string) : list string := tokens_aux EmptyString s.

(** The [type] a [Blob] or a [File] keeps of the one it is given: the empty
    string when a character lies outside U+0020 to U+007E, else the type in
    ASCII lower case. *)
Definition is_printable (c : ascii) : bool :=
  let n := nat_of_ascii c in
  Nat.leb 32 n && Nat.leb n 126.

Fixpoint all_printable (s : string) : bool :=
  match s with
  | EmptyString => true
  | String c r => is_printable c && all_printable r
  end.

Fixpoint asciiLowerCase (s : string) : string :=
  match s with
  | EmptyString => EmptyString
  | String c r => String (lower c) (asciiLowerCase r)
  end.

Definition blobType (type : string) : string :=
  if all_printable type then asciiLowerCase type else "".

Definition dquote : string := String (ascii_of_nat 34) EmptyString.

End Js.

(** ** The document *)

(** The interface a node implements; it decides what the script's reads of
    [className], [offsetParent], [style] and [focus] find. *)
Inductive Interface : Type :=
| HTMLElement
| SVGElement
| MathMLElement
| PlainElement.                  (* [Element] and nothing more *)

Record Element : Type := mkElement {
  node : nat;                    (* identity of the DOM node *)
  tagName : string;              (* local name, lower case for an HTML element *)
  className : string;            (* the [class] attribute *)
  textContent : string;
  role : option string;          (* the [role] attribute *)
  offsetParent : option nat;     (* of an HTML element; [None] is [null] *)
  displayStyle : string;         (* [style.display], where there is a [style] *)
  interface : Interface
}.

(** Elements in document order. *)
Definition Document : Type := list Element.

Inductive SimpleSelector : Type :=
| ByClass (c : string)           (* [.c] *)
| ByTag (t : string)             (* [t] *)
| ByRole (v : string).           (* [[role=v]] *)

(** A selector list [a, b, ...], or text that is not a selector. *)
Inductive Selector : Type :=
| Sel (alternatives : list SimpleSelector)
| Malformed (source : string).

Definition matches_simple (e : Element) (s : SimpleSelector) : bool :=
  match s with
  | ByClass c => existsb (String.eqb c) (Js.tokens (className e))
  | ByTag t => String.eqb t (tagName e)
  | ByRole v => match role e with Some r => String.eqb v r | None => false end
  end.

Definition matches (alts : list SimpleSelector) (e : Element) : bool :=
  existsb (matches_simple e) alts.

Definition show_simple (s : SimpleSelector) : string :=
  match s with
  | ByClass c => "." ++ c
  | ByTag t => t
  | ByRole v => "[role=" ++ Js.dquote ++ v ++ Js.dquote ++ "]"
  end.

Definition show_selector (s : Selector) : string :=
  match s with
  | Sel alts => String.concat ", " (map show_simple alts)
  | Malformed src => src
  end.

(** [document.querySelector] and [document.querySelectorAll]; text that is
    not a selector makes both throw a [SyntaxError]. *)

Record JsError : Type := Error { message : string }.

Inductive Result (A : Type) : Type :=
| Ok (value : A)
| Throw (error : JsError).

Arguments Ok {A} value.
Arguments Throw {A} error.

(** [array.find(predicate)] with a predicate that may throw. *)
Fixpoint find_first {A} (predicate : A -> Result bool) (l : list A)
  : Result (option A) :=
  match l with
  | [] => Ok None
  | a :: rest =>
      match predicate a with
      | Throw e => Throw e
      | Ok true => Ok (Some a)
      | Ok false => find_first predicate rest
      end
  end.

Definition syntaxError (src : string) : JsError :=
  Error ("'" ++ src ++ "' is not a valid selector").

Definition querySelectorAll (s : Selector) (d : Document) : Result (list Element) :=
  match s with
  | Sel alts => Ok (filter (matches alts) d)
  | Malformed src => Throw (syntaxError src)
  end.

Definition querySelector (s : Selector) (d : Document) : Result (option Element) :=
  match s with
  | Sel alts => Ok (find (matches alts) d)
  | Malformed src => Throw (syntaxError src)
  end.

(** ** The world the script runs in *)

Inductive EventType : Type :=
| focus | dragenter | dragover | drop | dragleave | keydown | keyup.

Definition EventType_eqb (a b : EventType) : bool :=
  match a, b with
  | focus, focus | dragenter, dragenter | dragover, dragover | drop, drop
  | dragleave, dragleave | keydown, keydown | keyup, keyup => true
  | _, _ => false
  end.

Record File : Type := mkFile {
  fileName : string;
  fileType : string;
  lastModified : Z;
  content : list Byte.byte
}.

Record DataTransfer : Type := mkDataTransfer {
  files : list File;
  effectAllowed : string;
  dropEffect : string
}.

(** One call of [dispatchEvent] (or of [focus]) made by the script. *)
Record Dispatch : Type := mkDispatch {
  target : nat;
  eventType : EventType;
  carried : option DataTransfer;
  defaultPrevented : bool;       (* a listener of the script called [preventDefault] *)
  timeStamp : Z
}.

(** A batch of changes the page makes to its document.  [observed] says
    whether the batch holds a record a body-wide observer of child lists and
    of the [class] and [style] attributes is told about. *)
Record Mutation : Type := mkMutation {
  stamp : Z;
  after : Document;
  observed : bool
}.

(** What the script does with the handles it acquires. *)
Inductive HandleOp : Type :=
| Observe (observer : nat)
| Disconnect (observer : nat)
| TimerSet (observer : nat) (due : Z)
| TimerFired (observer : nat)
| TimerCleared (observer : nat).

Record World : Type := mkWorld {
  href : string;                      (* [window.location.href] *)
  now : Z;                            (* [Date.now()] *)
  document : Document;
  pending : list Mutation;            (* what the page is still going to do *)
  listeners : list (nat * EventType); (* once-listeners that call [preventDefault] *)
  dispatched : list Dispatch;         (* oldest first *)
  handles : list HandleOp;            (* oldest first *)
  armed : list (Z * nat);             (* safety timers left scheduled by settled waits *)
  fresh : nat                         (* next observer identity *)
}.

Definition with_clock (t : Z) (d : Document) (ms : list Mutation) (w : World) : World :=
  mkWorld (href w) t d ms (listeners w) (dispatched w) (handles w) (armed w) (fresh w).

Definition with_listeners (ls : list (nat * EventType)) (w : World) : World :=
  mkWorld (href w) (now w) (document w) (pending w) ls (dispatched w)
          (handles w) (armed w) (fresh w).

Definition with_dispatched (ds : list Dispatch) (w : World) : World :=
  mkWorld (href w) (now w) (document w) (pending w) (listeners w) ds
          (handles w) (armed w) (fresh w).

Definition with_handles (hs : list HandleOp) (ts : list (Z * nat)) (n : nat)
  (w : World) : World :=
  mkWorld (href w) (now w) (document w) (pending w) (listeners w) (dispatched w)
          hs ts n.

(** The callback of a safety timer whose wait has already settled:
    [observer.disconnect(); reject(...)], the [reject] being without effect. *)
Definition stale_callback (t : Z * nat) : list HandleOp :=
  [TimerFired (snd t); Disconnect (snd t)].

Definition is_due (t : Z) (a : Z * nat) : bool := fst a <=? t.

Definition fire_due (w : World) : World :=
  with_handles
    (handles w ++ flat_map stale_callback (filter (is_due (now w)) (armed w)))
    (filter (fun a => negb (is_due (now w) a)) (armed w))
    (fresh w) w.

(** The page performs its next batch [m]; time moves to the batch's stamp. *)
Definition apply_mutation (m : Mutation) (rest : list Mutation) (w : World) : World :=
  fire_due (with_clock (Z.max (now w) (stamp m)) (after m) rest w).

(** Time moves to [t] with no batch of the page in between. *)
Definition idle_until (t : Z) (muts : list Mutation) (w : World) : World :=
  fire_due (with_clock (Z.max (now w) t) (document w) muts w).

(** Everything the page does up to and including time [t]. *)
Fixpoint advance_through (t : Z) (muts : list Mutation) (w : World) : World :=
  match muts with
  | m :: rest =>
      if stamp m <=? t
      then advance_through t rest (apply_mutation m rest w)
      else idle_until t muts w
  | [] => idle_until t muts w
  end.

(** ** Promises and the script's control flow *)

Inductive Completion (A : Type) : Type :=
| Fulfilled (value : A)
| Rejected (reason : JsError)
| Unsettled (uncaught : JsError)  (* the promise is never settled: the
                                    exception went to the host instead *)
| Spinning.                       (* the model's poll budget ran out *)

Arguments Fulfilled {A} value.
Arguments Rejected {A} reason.
Arguments Unsettled {A} uncaught.
Arguments Spinning {A}.

Definition Async (A : Type) : Type := World -> Completion A * World.

Definition ret {A} (a : A) : Async A := fun w => (Fulfilled a, w).

Definition throw {A} (e : JsError) : Async A := fun w => (Rejected e, w).

Definition bind {A B} (c : Async A) (k : A -> Async B) : Async B :=
  fun w =>
    match c w with
    | (Fulfilled a, w1) => k a w1
    | (Rejected e, w1) => (Rejected e, w1)
    | (Unsettled e, w1) => (Unsettled e, w1)
    | (Spinning, w1) => (Spinning, w1)
    end.

(** [try { c } catch (error) { handler }]: only a rejection reaches the
    handler; a promise that never settles keeps the caller waiting. *)
Definition try_catch {A} (c : Async A) (handler : JsError -> Async A) : Async A :=
  fun w =>
    match c w with
    | (Rejected e, w1) => handler e w1
    | r => r
    end.

(** A synchronous computation inside an [async] function: an exception
    rejects the function's promise. *)
Definition sync {A} (r : Result A) : Async A :=
  fun w =>
    match r with
    | Ok a => (Fulfilled a, w)
    | Throw e => (Rejected e, w)
    end.

(** A synchronous computation on the current document. *)
Definition on_document {A} (f : Document -> Result A) : Async A :=
  fun w =>
    match f (document w) with
    | Ok a => (Fulfilled a, w)
    | Throw e => (Rejected e, w)
    end.

Declare Scope async_scope.
Delimit Scope async_scope with async.
Notation "x <- c ;; k" := (bind c (fun x => k))
  (at level 61, c at next level, right associativity) : async_scope.
Notation "c ;;; k" := (bind c (fun _ => k))
  (at level 61, right associativity) : async_scope.
Open Scope async_scope.

(** The script resumes after an [await].  Its continuation is a microtask:
    what the page had queued before runs first, so a batch of the page that
    is due by now is performed before the script goes on.  After a timer
    nothing is due, every batch up to that time having been performed when
    the clock moved. *)
Definition resumed (w : World) : World :=
  match pending w with
  | m :: rest => if stamp m <=? now w then apply_mutation m rest w else w
  | [] => w
  end.

(** [await c], inside [try] or not: the script goes on, or the [catch] block
    runs, once it has resumed. *)
Definition await {A} (c : Async A) : Async A :=
  fun w =>
    match c w with
    | (Fulfilled a, w1) => (Fulfilled a, resumed w1)
    | (Rejected e, w1) => (Rejected e, resumed w1)
    | waiting => waiting
    end.

(** [new Promise(resolve => setTimeout(resolve, ms))], once settled. *)
Definition timer (ms : Z) : Async unit :=
  fun w => (Fulfilled tt, advance_through (now w + ms) (pending w) w).

(** [await new Promise(resolve => setTimeout(resolve, ms))] *)
Definition sleep (ms : Z) : Async unit := await (timer ms).

(** [target.addEventListener(type, e => e.preventDefault(), { once: true })] *)
Definition addPreventDefaultOnce (el : Element) (type : EventType) : Async unit :=
  fun w => (Fulfilled tt, with_listeners (listeners w ++ [(node el, type)]) w).

Definition listens (n : nat) (type : EventType) (l : nat * EventType) : bool :=
  Nat.eqb (fst l) n && EventType_eqb (snd l) type.

(** [target.dispatchEvent(event)]: the once-listeners of the script run and
    are removed; handlers of the page cannot make the call throw. *)
Definition dispatchEvent (el : Element) (type : EventType)
  (dt : option DataTransfer) : Async unit :=
  fun w =>
    let prevented := existsb (listens (node el) type) (listeners w) in
    let kept := filter (fun l => negb (listens (node el) type l)) (listeners w) in
    (Fulfilled tt,
     with_dispatched
       (dispatched w ++ [mkDispatch (node el) type dt prevented (now w)])
       (with_listeners kept w)).

(** ** [TelegramUploader.config] *)

Module config.

Module selectors.
Definition dropTarget : Selector := Sel [ByClass "DropTarget"].
Definition composerWrapper : Selector := Sel [ByClass "composer-wrapper"].
Definition messageContainer : Selector := Sel [ByClass "input-message-container"].
Definition middleColumn : Selector := Sel [ByClass "middle-column"].
Definition messageInput : Selector := Sel [ByClass "input-message-input"].
Definition chatContent : Selector :=
  Sel [ByClass "chat-content"; ByClass "messages-container"].
Definition previewModal : Selector := Sel [ByClass "modal"; ByRole "dialog"].
Definition sendButton : Selector := Sel [ByTag "button"].
End selectors.

Module maxWaitTime.
Definition dropTarget : Z := 3000.
Definition preview : Z := 5000.
Definition sendButton : Z := 5000.
Definition clickResponse : Z := 2000.
End maxWaitTime.

End config.

(** ** [waitUntil] *)

Definition timeoutError (timeout : Z) : JsError :=
  Error ("Timeout waiting for condition after " ++ Js.of_Z timeout ++ "ms").

(** [setTimeout(check, checkInterval)] followed by the timer firing: the
    timer is a handle of its own, and the page goes on meanwhile. *)
Definition after_interval (checkInterval : Z) (w : World) : World :=
  let timer := fresh w in
  let due := now w + checkInterval in
  let w1 := with_handles (handles w ++ [TimerSet timer due]) (armed w) (S timer) w in
  let w2 := advance_through due (pending w1) w1 in
  with_handles (handles w2 ++ [TimerFired timer]) (armed w2) (fresh w2) w2.

(** The closure [check].  [first] tells the call made from inside the
    promise executor, where an exception rejects the promise, from the calls
    made by a timer, where nothing catches it.  [budget] bounds the number
    of polls of the model. *)
Fixpoint check (budget : nat) (first : bool) (condition : World -> Result bool)
  (startTime timeout checkInterval : Z) (w : World) : Completion unit * World :=
  match budget with
  | O => (Spinning, w)
  | S budget' =>
      match condition w with
      | Throw e => if first then (Rejected e, w) else (Unsettled e, w)
      | Ok true => (Fulfilled tt, w)
      | Ok false =>
          if now w - startTime >=? timeout
          then (Rejected (timeoutError timeout), w)
          else check budget' false condition startTime timeout checkInterval
                     (after_interval checkInterval w)
      end
  end.

Definition poll_budget (timeout checkInterval : Z) : nat :=
  Z.to_nat (timeout / checkInterval) + 2.

Definition waitUntil (condition : World -> Result bool)
  (timeout : Z) (checkInterval : Z) : Async unit :=
  fun w =>
    let startTime := now w in
    check (poll_budget timeout checkInterval) true condition
          startTime timeout checkInterval w.

(** The two defaults of the signature. *)
Definition default_timeout : Z := 5000.
Definition default_checkInterval : Z := 100.

(** ** [waitForElement] and [waitForClass] *)

Definition elementTimeout (selector : Selector) (timeout : Z) : JsError :=
  Error ("Element not found: " ++ show_selector selector
         ++ " (timeout after " ++ Js.of_Z timeout ++ "ms)").

(** [new MutationObserver(...)], [observer.observe(...)] and the
    [setTimeout] of the safety net. *)
Definition subscribe (deadline : Z) (w : World) : World :=
  with_handles (handles w ++ [Observe (fresh w); TimerSet (fresh w) deadline])
               (armed w) (S (fresh w)) w.

(** [observer.disconnect(); resolve(...)] inside the observer's callback:
    the safety timer stays scheduled. *)
Definition settle_from_callback (observer : nat) (deadline : Z) (w : World) : World :=
  with_handles (handles w ++ [Disconnect observer])
               (armed w ++ [(deadline, observer)]) (fresh w) w.

(** The safety timer's callback: [observer.disconnect(); reject(...)]. *)
Definition settle_from_timer (observer : nat) (w : World) : World :=
  with_handles (handles w ++ [TimerFired observer; Disconnect observer])
               (armed w) (fresh w) w.

Fixpoint waitForElement_observe (selector : Selector) (timeout : Z)
  (observer : nat) (deadline : Z) (muts : list Mutation) (w : World)
  : Completion Element * World :=
  match muts with
  | m :: rest =>
      if stamp m <=? deadline
      then
        let w1 := apply_mutation m rest w in
        if observed m
        then match querySelector selector (document w1) with
             | Ok (Some element) =>
                 (Fulfilled element, settle_from_callback observer deadline w1)
             | _ => waitForElement_observe selector timeout observer deadline rest w1
             end
        else waitForElement_observe selector timeout observer deadline rest w1
      else (Rejected (elementTimeout selector timeout),
            settle_from_timer observer (idle_until deadline muts w))
  | [] => (Rejected (elementTimeout selector timeout),
           settle_from_timer observer (idle_until deadline muts w))
  end.

Definition waitForElement (selector : Selector) (timeout : Z) : Async Element :=
  fun w =>
    match querySelector selector (document w) with
    | Throw e => (Rejected e, w)
    | Ok (Some existingElement) => (Fulfilled existingElement, w)
    | Ok None =>
        let observer := fresh w in
        let deadline := now w + timeout in
        let w1 := subscribe deadline w in
        waitForElement_observe selector timeout observer deadline (pending w1) w1
    end.

Definition classList_contains (element : Element) (className' : string) : bool :=
  existsb (String.eqb className') (Js.tokens (className element)).

Definition classTimeout (className' : string) (timeout : Z) : JsError :=
  Error ("Class " ++ Js.dquote ++ className' ++ Js.dquote
         ++ " did not appear within " ++ Js.of_Z timeout ++ "ms").

(** The watched node as the document now has it; a node the document no
    longer holds keeps the state it was last seen in. *)
Definition refreshed (element : Element) (d : Document) : Element :=
  match find (fun e => Nat.eqb (node e) (node element)) d with
  | Some e => e
  | None => element
  end.

(** The observer is told of a batch when the node's [class] attribute
    changed in it. *)
Fixpoint waitForClass_observe (element : Element) (className' : string)
  (timeout : Z) (observer : nat) (deadline : Z) (muts : list Mutation) (w : World)
  : Completion unit * World :=
  match muts with
  | m :: rest =>
      if stamp m <=? deadline
      then
        let w1 := apply_mutation m rest w in
        let element' := refreshed element (document w1) in
        if String.eqb (className element') (className element)
        then waitForClass_observe element className' timeout observer deadline rest w1
        else if classList_contains element' className'
             then (Fulfilled tt, settle_from_callback observer deadline w1)
             else waitForClass_observe element' className' timeout observer
                                       deadline rest w1
      else (Rejected (classTimeout className' timeout),
            settle_from_timer observer (idle_until deadline muts w))
  | [] => (Rejected (classTimeout className' timeout),
           settle_from_timer observer (idle_until deadline muts w))
  end.

Definition waitForClass (element : Element) (className' : string) (timeout : Z)
  : Async unit :=
  fun w =>
    if classList_contains element className'
    then (Fulfilled tt, w)
    else
      let observer := fresh w in
      let deadline := now w + timeout in
      let w1 := subscribe deadline w in
      waitForClass_observe element className' timeout observer deadline
                           (pending w1) w1.

Definition waitForPreviewModal : Async Element :=
  modal <- await (waitForElement config.selectors.previewModal
                                 config.maxWaitTime.preview) ;;
  ret modal.

(** ** Payload and drop zone *)

(** [try { c } catch (error) { throw new Error(prefix + error.message) }] *)
Definition rewrap {A} (prefix : string) (c : Async A) : Async A :=
  try_catch c (fun error => throw (Error (prefix ++ message error))).

Definition default_filename : string := "image.png".
Definition default_mimeType : string := "image/png".

(** [filename] and [mimeType] are [None] when the caller leaves them
    [undefined]; the signature's defaults then apply.  The [File] keeps the
    name as it is given and the type as [Blob] and [File] normalise it. *)
Definition arrayBufferToFile (arrayBuffer : list Byte.byte)
  (filename mimeType : option string) : Async File :=
  let filename := match filename with Some f => f | None => default_filename end in
  let mimeType := match mimeType with Some m => m | None => default_mimeType end in
  rewrap "Failed to convert ArrayBuffer to File: "
    (fun w => (Fulfilled (mkFile filename (Js.blobType mimeType) (now w) arrayBuffer),
               w)).

Definition noDropZone : JsError :=
  Error "No drop zone found. Make sure you have a chat open.".

Fixpoint findDropZone_in (selectors : list Selector) (d : Document) : Result Element :=
  match selectors with
  | [] => Throw noDropZone
  | selector :: rest =>
      match querySelector selector d with
      | Throw e => Throw e
      | Ok (Some element) => Ok element
      | Ok None => findDropZone_in rest d
      end
  end.

Definition findDropZone : Async Element :=
  on_document
    (findDropZone_in [config.selectors.composerWrapper;
                      config.selectors.messageContainer;
                      config.selectors.middleColumn;
                      config.selectors.messageInput]).

Definition createDataTransfer (file : File) : DataTransfer :=
  mkDataTransfer [file] "all" "copy".

(** ** [uploadViaDragAndDrop] *)

Definition hover_interval : Z := 50.

(** The body of [for (let i = 0; i < 3; i++)], [remaining] being [3 - i]. *)
Fixpoint dragover_loop (remaining : nat) (i : Z) (dropZone : Element)
  (dataTransfer : DataTransfer) : Async unit :=
  match remaining with
  | O => ret tt
  | S remaining' =>
      addPreventDefaultOnce dropZone dragover ;;;
      dispatchEvent dropZone dragover (Some dataTransfer) ;;;
      (if i <? 2 then sleep hover_interval else ret tt) ;;;
      dragover_loop remaining' (i + 1) dropZone dataTransfer
  end.

Definition uploadViaDragAndDrop (file : File) : Async bool :=
  try_catch
    (dropZone <- findDropZone ;;
     let dataTransfer := createDataTransfer file in
     (* STEP 1 *)
     dispatchEvent dropZone dragenter (Some dataTransfer) ;;;
     (* STEP 2 *)
     dropZone <- try_catch
                   (dropTarget <- await (waitForElement config.selectors.dropTarget
                                                        config.maxWaitTime.dropTarget) ;;
                    ret dropTarget)
                   (fun _ => ret dropZone) ;;
     (* STEP 3 *)
     dragover_loop 3 0 dropZone dataTransfer ;;;
     (* STEP 4 *)
     addPreventDefaultOnce dropZone drop ;;;
     dispatchEvent dropZone drop (Some dataTransfer) ;;;
     (* STEP 5 *)
     dispatchEvent dropZone dragleave (Some dataTransfer) ;;;
     (* STEP 6 *)
     await waitForPreviewModal ;;;
     ret true)
    (fun error => throw error).

(** ** [performClick] and [clickSendButton] *)

(** [element.focus()]: an element that is neither an HTML, an SVG nor a
    MathML element has no [focus]. *)
Definition focus_call (element : Element) : Async unit :=
  match interface element with
  | PlainElement => throw (Error "element.focus is not a function")
  | _ => dispatchEvent element focus None
  end.

Definition performClick (element : Element) : Async unit :=
  try_catch
    (focus_call element ;;;
     dispatchEvent element keydown None ;;;
     dispatchEvent element keyup None)
    (fun _ => ret tt).

(** [btn.offsetParent !== null]: only an HTML element has an
    [offsetParent]; elsewhere the read gives [undefined], which is not
    [null]. *)
Definition is_visible (btn : Element) : bool :=
  match interface btn with
  | HTMLElement => match offsetParent btn with Some _ => true | None => false end
  | _ => true
  end.

(** [btn.className.includes(needle)]: the [className] of an SVG element is
    an [SVGAnimatedString], which has no [includes]. *)
Definition className_includes (btn : Element) (needle : string) : Result bool :=
  match interface btn with
  | SVGElement => Throw (Error "btn.className.includes is not a function")
  | _ => Ok (Js.includes (className btn) needle)
  end.

(** [modal.style.display]: an element that is neither an HTML, an SVG nor a
    MathML element has no [style]. *)
Definition style_display (modal : Element) : Result string :=
  match interface modal with
  | PlainElement =>
      Throw (Error "Cannot read properties of undefined (reading 'display')")
  | _ => Ok (displayStyle modal)
  end.

Definition is_send (btn : Element) : bool :=
  String.eqb (Js.toLowerCase (Js.trim (textContent btn))) "send".

Definition is_primary_send (btn : Element) : Result bool :=
  let text := Js.toLowerCase (Js.trim (textContent btn)) in
  match className_includes btn "primary" with
  | Throw e => Throw e
  | Ok isPrimary => Ok (String.eqb text "send" && isPrimary)
  end.

Definition is_button_send (btn : Element) : Result bool :=
  let text := Js.toLowerCase (Js.trim (textContent btn)) in
  match className_includes btn "Button" with
  | Throw e => Throw e
  | Ok hasButtonClass => Ok (String.eqb text "send" && hasButtonClass)
  end.

(** The condition of the first [waitUntil]. *)
Definition sendButtonAvailable (w : World) : Result bool :=
  match querySelectorAll config.selectors.sendButton (document w) with
  | Throw e => Throw e
  | Ok buttons =>
      let visibleButtons := filter is_visible buttons in
      match find_first is_primary_send visibleButtons with
      | Throw e => Throw e
      | Ok (Some _) => Ok true
      | Ok None => Ok false
      end
  end.

(** The selection made between the two waits: the primary match, then the
    two fallbacks, in the order the source tries them. *)
Definition locateSendButton (visibleButtons : list Element) : Result (option Element) :=
  match find_first is_primary_send visibleButtons with
  | Throw e => Throw e
  | Ok (Some sendButton) => Ok (Some sendButton)
  | Ok None =>
      match find is_send visibleButtons with
      | Some sendButton => Ok (Some sendButton)
      | None => find_first is_button_send visibleButtons
      end
  end.

(** The condition of the second [waitUntil]. *)
Definition previewClosed (w : World) : Result bool :=
  match querySelector config.selectors.previewModal (document w) with
  | Throw e => Throw e
  | Ok None => Ok true
  | Ok (Some modal) =>
      match style_display modal with
      | Throw e => Throw e
      | Ok display => Ok (String.eqb display "none")
      end
  end.

Definition sendButtonMissing : JsError :=
  Error "Send button not found despite passing waitUntil check".

Definition clickSendButton : Async unit :=
  rewrap "Failed to click send: "
    (await (waitUntil sendButtonAvailable config.maxWaitTime.sendButton
                      default_checkInterval) ;;;
     allButtons <- on_document (querySelectorAll config.selectors.sendButton) ;;
     let visibleButtons := filter is_visible allButtons in
     sendButton <- sync (locateSendButton visibleButtons) ;;
     match sendButton with
     | None => throw sendButtonMissing
     | Some sendButton =>
         performClick sendButton ;;;
         try_catch
           (await (waitUntil previewClosed config.maxWaitTime.clickResponse
                             default_checkInterval))
           (fun _ => ret tt)
     end).

(** ** [uploadPhoto] and the message listener *)

Record UploadData : Type := mkUploadData {
  arrayBuffer : option (list Byte.byte);   (* [None]: the field is missing *)
  filename : option string;
  mimeType : option string
}.

(** A response object; a key that is [None] is absent from the object. *)
Record Response : Type := mkResponse {
  success : bool;
  message_ : option string;                (* the [message] key *)
  error : option string;
  duration : option Z
}.

Definition invalidData : JsError := Error "Invalid data: arrayBuffer is required".

(** [data] is [None] when the request carries [null] or [undefined]. *)
Definition uploadPhoto (data : option UploadData) : Async Response :=
  fun w =>
    let startTime := now w in
    try_catch
      (match data with
       | None => throw invalidData                 (* [!data] *)
       | Some data =>
           match arrayBuffer data with
           | None => throw invalidData             (* [!data.arrayBuffer] *)
           | Some buffer =>
               file <- arrayBufferToFile buffer
                         (Some (Js.or_else (filename data) "image.png"))
                         (Some (Js.or_else (mimeType data) "image/png")) ;;
               await (uploadViaDragAndDrop file) ;;;
               await clickSendButton ;;;
               (fun w1 =>
                  let duration := now w1 - startTime in
                  (Fulfilled (mkResponse true (Some "Photo uploaded successfully")
                                         None (Some duration)), w1))
           end
       end)
      (fun error w1 =>
         let duration := now w1 - startTime in
         (Fulfilled (mkResponse false None (Some (message error)) (Some duration)), w1))
      w.

Definition isValidTelegramPage (w : World) : Result bool :=
  let url := href w in
  let isWebTelegram := Js.includes url "web.telegram.org" in
  match querySelector config.selectors.chatContent (document w) with
  | Throw e => Throw e
  | Ok found =>
      let hasChatContent := match found with Some _ => true | None => false end in
      Ok (isWebTelegram && hasChatContent)
  end.

(** The values [request.action] is compared with and interpolated from:
    the primitive values a message can carry, numbers being integers a
    JavaScript number holds exactly, and plain objects, given by the names
    of their own properties (none of which, in a message, holds a
    function). *)
Inductive JsValue : Type :=
| JUndefined
| JNull
| JBoolean (b : bool)
| JNumber (n : Js.SafeInteger)
| JString (s : string)
| JObject (keys : list string).

Definition cannotConvert : JsError :=
  Error "Cannot convert object to primitive value".

(** The value inside a template literal.  An object is converted by its
    [toString]: the inherited one gives ["[object Object]"]; an own property
    of that name is not a function, and then neither the inherited
    [valueOf], which returns the object, gives a primitive value. *)
Definition interpolate (v : JsValue) : Result string :=
  match v with
  | JUndefined => Ok "undefined"
  | JNull => Ok "null"
  | JBoolean true => Ok "true"
  | JBoolean false => Ok "false"
  | JNumber n => Ok (Js.of_Z (Js.integer n))
  | JString s => Ok s
  | JObject keys =>
      if existsb (String.eqb "toString") keys
      then Throw cannotConvert
      else Ok "[object Object]"
  end.

(** [v === s] for a string literal [s]. *)
Definition strict_eq (v : JsValue) (s : string) : bool :=
  match v with
  | JString s' => String.eqb s' s
  | _ => false
  end.

Record Request : Type := mkRequest {
  action : JsValue;
  data : option UploadData
}.

Definition notOnTelegram : string :=
  "Not on a valid Telegram chat page. Please open a chat first.".

(** The listener registered on [chrome.runtime.onMessage]: the list holds
    the arguments of every call of [sendResponse], in order.  It is empty
    when the listener throws, or when the promise of [uploadPhoto] never
    settles. *)
Definition onMessage (request : Request) (w : World) : list Response * World :=
  if strict_eq (action request) "uploadPhoto"
  then
    match isValidTelegramPage w with
    | Throw _ => ([], w)
    | Ok false => ([mkResponse false None (Some notOnTelegram) None], w)
    | Ok true =>
        match uploadPhoto (data request) w with
        | (Fulfilled result, w1) => ([result], w1)
        | (Rejected error, w1) =>
            ([mkResponse false None
                         (Some ("Unexpected error: " ++ message error)) None], w1)
        | (_, w1) => ([], w1)
        end
    end
  else if strict_eq (action request) "ping"
  then ([mkResponse true (Some "Content script is ready") None None], w)
  else
    match interpolate (action request) with
    | Ok text => ([mkResponse false None (Some ("Unknown action: " ++ text)) None], w)
    | Throw _ => ([], w)
    end.

(** ** Vocabulary of the statements *)

(** A promise that was settled, one way or the other. *)
Definition settled {A} (c : Completion A) : Prop :=
  match c with
  | Fulfilled _ | Rejected _ => True
  | Unsettled _ | Spinning => False
  end.

(** Every run of [c] ends with a settled promise. *)
Definition Settles {A} (c : Async A) : Prop := forall w, settled (fst (c w)).

(** A condition that can be evaluated without an exception. *)
Definition total_condition (condition : World -> Result bool) : Prop :=
  forall w, exists b, condition w = Ok b.

(** What the script itself has done to the page so far. *)
Definition script_side (w : World) : string * list (nat * EventType) * list Dispatch :=
  (href w, listeners w, dispatched w).

(** The page as the script finds it: clock, document, future. *)
Definition page_side (w : World) : Z * Document * list Mutation :=
  (now w, document w, pending w).

(** The page left alone until time [t], as a function of its own state. *)
Fixpoint page_advance (t : Z) (muts : list Mutation) (clock : Z) (d : Document)
  : Z * Document * list Mutation :=
  match muts with
  | m :: rest =>
      if stamp m <=? t
      then page_advance t rest (Z.max clock (stamp m)) (after m)
      else (Z.max clock t, d, muts)
  | [] => (Z.max clock t, d, muts)
  end.

(** The document at time [t] when the script only waits. *)
Definition page_at (t : Z) (w : World) : Document :=
  snd (fst (page_advance t (pending w) (now w) (document w))).

(** The handle an operation is about. *)
Definition handle_of (op : HandleOp) : nat :=
  match op with
  | Observe n | Disconnect n | TimerSet n _ | TimerFired n | TimerCleared n => n
  end.

Definition about (n : nat) (op : HandleOp) : bool := Nat.eqb (handle_of op) n.

Definition is_disconnect (n : nat) (op : HandleOp) : bool :=
  match op with
  | Disconnect m => Nat.eqb m n
  | _ => false
  end.

(** Handles are numbered below [fresh]. *)
Definition handles_numbered (w : World) : Prop :=
  Forall (fun op => (handle_of op < fresh w)%nat) (handles w)
  /\ Forall (fun a => (snd a < fresh w)%nat) (armed w).

(** The six drag events of one run, on [zone] first and on [surface] after. *)
Definition drag_sequence (zone surface : nat) (dt : DataTransfer)
  (entered left : bool) (t0 t : Z) : list Dispatch :=
  [ mkDispatch zone dragenter (Some dt) entered t0;
    mkDispatch surface dragover (Some dt) true t;
    mkDispatch surface dragover (Some dt) true (t + hover_interval);
    mkDispatch surface dragover (Some dt) true (t + 2 * hover_interval);
    mkDispatch surface drop (Some dt) true (t + 2 * hover_interval);
    mkDispatch surface dragleave (Some dt) left (t + 2 * hover_interval) ].

(** No safety timer of observer [n] is scheduled. *)
Definition unarmed (n : nat) (w : World) : Prop :=
  Forall (fun a => snd a <> n) (armed w).

(** What a wait that had to subscribe in world [w] has done with its
    observer and its safety timer when its promise settles, and what
    happens once time has passed the deadline. *)
Definition observer_lifecycle {A} (w : World) (timeout : Z)
  (run : Completion A * World) : Prop :=
  let observer := fresh w in
  let deadline := now w + timeout in
  let w' := snd run in
  match fst run with
  | Fulfilled _ =>
      (* released once, by the callback; the timer is still scheduled *)
      filter (about observer) (handles w')
      = [Observe observer; TimerSet observer deadline; Disconnect observer]
      /\ In (deadline, observer) (armed w')
      (* the timer fires later and disconnects a second time *)
      /\ forall t, deadline <= t ->
           filter (about observer) (handles (idle_until t (pending w') w'))
           = [Observe observer; TimerSet observer deadline; Disconnect observer;
              TimerFired observer; Disconnect observer]
  | Rejected _ =>
      (* released once, by the timer, which is thereby used up *)
      filter (about observer) (handles w')
      = [Observe observer; TimerSet observer deadline;
         TimerFired observer; Disconnect observer]
      /\ unarmed observer w'
  | Unsettled _ | Spinning => False
  end.

(** What the two ways of settling add to the observer's history. *)
Definition settled_by_callback {A} (observer : nat) (deadline : Z) (w : World)
  (run : Completion A * World) : Prop :=
  filter (about observer) (handles (snd run))
  = (filter (about observer) (handles w) ++ [Disconnect observer])%list
  /\ exists others,
       armed (snd run) = (others ++ [(deadline, observer)])%list
       /\ Forall (fun a => snd a <> observer) others.

Definition settled_by_timer {A} (observer : nat) (w : World) (run : Completion A * World) : Prop :=
  filter (about observer) (handles (snd run))
  = (filter (about observer) (handles w)
     ++ [TimerFired observer; Disconnect observer])%list
  /\ unarmed observer (snd run).

Definition settled_once {A} (observer : nat) (deadline : Z) (w : World)
  (run : Completion A * World) : Prop :=
  match fst run with
  | Fulfilled _ => settled_by_callback observer deadline w run
  | Rejected _ => settled_by_timer observer w run
  | _ => False
  end.

(** A field of the request that is [undefined], [null] or the empty string. *)
Definition falsy (s : option string) : Prop := s = None \/ s = Some "".

(** ** Sample pages *)

Module Sample.

Definition chat : Element :=
  mkElement 1 "div" "chat-content" "" None (Some 0%nat) "" HTMLElement.
Definition composer : Element :=
  mkElement 2 "div" "composer-wrapper" "" None (Some 0%nat) "" HTMLElement.
Definition dropTarget : Element :=
  mkElement 3 "div" "DropTarget hover" "" None (Some 0%nat) "" HTMLElement.
Definition modal : Element :=
  mkElement 4 "div" "modal open" "" None (Some 0%nat) "" HTMLElement.
Definition secondary : Element :=
  mkElement 5 "button" "Button secondary" "Send" None (Some 0%nat) "" HTMLElement.
Definition primary : Element :=
  mkElement 6 "button" "Button primary" " Send " None (Some 0%nat) "" HTMLElement.

Definition telegram : string := "https://web.telegram.org/k/#123".

Definition idle (url : string) (d : Document) (future : list Mutation) : World :=
  mkWorld url 1000 d future [] [] [] [] 0.

(** A chat that reacts to the drag with a refined target, then a preview. *)
Definition cooperative : World :=
  idle telegram [chat; composer]
    [mkMutation 1010 [chat; composer; dropTarget] true;
     mkMutation 1300 [chat; composer; modal] true;
     mkMutation 1450 [chat; composer; modal; secondary; primary] true;
     mkMutation 1700 [chat; composer] true].

(** A chat that never shows a refined target but opens the preview. *)
Definition unrefined : World :=
  idle telegram [chat; composer]
    [mkMutation 4050 [chat; composer; modal; secondary; primary] true;
     mkMutation 4400 [chat; composer] true].

(** Another site. *)
Definition elsewhere : World :=
  idle "https://example.org/" [chat; composer] [].

(** Telegram with no chat open. *)
Definition no_chat : World := idle telegram [composer] [].

Definition photo : UploadData :=
  mkUploadData (Some [Byte.x89; Byte.x50; Byte.x4e; Byte.x47])
               (Some "cat.png") (Some "image/png").

Definition anonymous_photo : UploadData :=
  mkUploadData (Some [Byte.x89; Byte.x50]) None (Some "").

Definition no_buffer : UploadData := mkUploadData None (Some "cat.png") None.

(** A [button] element of the SVG namespace, as an inline drawing can hold. *)
Definition drawn : Element :=
  mkElement 7 "button" "icon" "" None None "" SVGElement.

(** A chat whose preview comes to hold such an element while the script
    polls for the send button. *)
Definition drawing : World :=
  idle telegram [chat; composer]
    [mkMutation 1010 [chat; composer; dropTarget] true;
     mkMutation 1300 [chat; composer; modal] true;
     mkMutation 1450 [chat; composer; modal; drawn; secondary; primary] true].

(** The same, the element being there as soon as the preview is. *)
Definition drawn_at_once : World :=
  idle telegram [chat; composer]
    [mkMutation 1010 [chat; composer; dropTarget] true;
     mkMutation 1300 [chat; composer; modal; drawn; secondary; primary] true].

(** A condition that is false when first asked and throws on the next poll. *)
Definition flaky (w : World) : Result bool :=
  if now w <? 1100 then Ok false else Throw (Error "layout is gone").

(** A condition that throws at once. *)
Definition broken (w : World) : Result bool := Throw (Error "layout is gone").

End Sample.

(** ** Vocabulary of the further properties *)

(** [Q] holds of the document now and after everything the page still does. *)
Definition page_keeps (Q : Document -> Prop) (w : World) : Prop :=
  Q (document w) /\ Forall (fun m => Q (after m)) (pending w).

(** Every run of [c] relates the world it starts in to the one it ends in. *)
Definition Respects {A} (R : World -> World -> Prop) (c : Async A) : Prop :=
  forall w, R w (snd (c w)).

Definition stays_in (Q : Document -> Prop) (w w' : World) : Prop :=
  page_keeps Q w -> page_keeps Q w'.

(** Running [c] never takes the page out of [Q]. *)
Definition Keeps {A} (Q : Document -> Prop) (c : Async A) : Prop :=
  Respects (stays_in Q) c.

(** Every observer created in [ops] is disconnected in [ops]. *)
Definition released (ops : list HandleOp) : Prop :=
  forall n, In (Observe n) ops -> In (Disconnect n) ops.

(** No observer is created in [ops]. *)
Definition creates_none (ops : list HandleOp) : Prop :=
  forall n, ~ In (Observe n) ops.

(** From [w] to [w'] handles were used, but no observer was created. *)
Definition quietly (w w' : World) : Prop :=
  exists ops, handles w' = (handles w ++ ops)%list /\ creates_none ops.

Definition releasing (w w' : World) : Prop :=
  exists ops, handles w' = (handles w ++ ops)%list /\ released ops.

(** Whatever [c] does with handles, it leaves no observer connected. *)
Definition Releases {A} (c : Async A) : Prop := Respects releasing c.

(** Running [c] takes at most [d] milliseconds, and the clock never goes
    back. *)
Definition Within {A} (c : Async A) (d : Z) : Prop :=
  forall w, now w <= now (snd (c w)) <= now w + d.

(** The [try] block of [uploadPhoto] up to, and without, the result it
    builds. *)
Definition upload_steps (data : option UploadData) : Async unit :=
  match data with
  | None => throw invalidData
  | Some data =>
      match arrayBuffer data with
      | None => throw invalidData
      | Some buffer =>
          file <- arrayBufferToFile buffer
                    (Some (Js.or_else (filename data) "image.png"))
                    (Some (Js.or_else (mimeType data) "image/png")) ;;
          await (uploadViaDragAndDrop file) ;;;
          await clickSendButton ;;;
          ret tt
      end
  end.

(** The three calls of [performClick] on one element. *)
Definition keyboard_activation (btn : nat) (p1 p2 p3 : bool) (t : Z) : list Dispatch :=
  [ mkDispatch btn focus None p1 t;
    mkDispatch btn keydown None p2 t;
    mkDispatch btn keyup None p3 t ].

(** No visible button is a primary "Send", and each can be asked. *)
Definition no_send_button (d : Document) : Prop :=
  Forall (fun btn => matches [ByTag "button"] btn = true ->
                     is_visible btn = true ->
                     is_primary_send btn = Ok false) d.

(** Every element the script reads as a control, a [button] or a candidate
    for the preview, is an HTML element. *)
Definition html_controls (d : Document) : Prop :=
  Forall (fun e => matches [ByTag "button"; ByClass "modal"; ByRole "dialog"] e = true ->
                   interface e = HTMLElement) d.

(** Nothing the page still has to do is due yet. *)
Definition flushed (w : World) : Prop :=
  match pending w with
  | m :: _ => now w < stamp m
  | [] => True
  end.

(** No element would be taken for the preview. *)
Definition no_preview (d : Document) : Prop :=
  find (matches [ByClass "modal"; ByRole "dialog"]) d = None.

(** No element is a drop zone candidate. *)
Definition no_drop_zone (d : Document) : Prop :=
  Forall (fun e => matches [ByClass "composer-wrapper";
                            ByClass "input-message-container";
                            ByClass "middle-column";
                            ByClass "input-message-input"] e = false) d.

Definition clickTimeout : JsError :=
  Error "Failed to click send: Timeout waiting for condition after 5000ms".

Definition clickMissing : JsError :=
  Error "Failed to click send: Send button not found despite passing waitUntil check".

Definition previewTimeout : JsError :=
  elementTimeout config.selectors.previewModal config.maxWaitTime.preview.

(** ** The popup: [TelegramPhotoSender] of [popup.js]

    The popup is modelled by the fields of its elements that its methods read
    or write, and Chrome by what its calls answer; [handleSend] returns,
    beside the state it leaves, the calls it made, in order. *)

Module Popup.

Record SelectedFile : Type := mkSelectedFile {
  name : string;
  type : string;
  size : Z;
  bytes : list Byte.byte
}.

(** The second argument of [showStatus]: ['info'], ['error'], ['success']. *)
Inductive StatusType : Type := as_info | as_error | as_success.

Definition show_type (t : StatusType) : string :=
  match t with
  | as_info => "info"
  | as_error => "error"
  | as_success => "success"
  end.

Record State : Type := mkState {
  selectedFile : option SelectedFile;
  fileInput_value : string;
  fileName_textContent : string;
  sendButton_disabled : bool;
  sendButton_loading : bool;            (* [classList] holds [loading] *)
  previewContainer_hidden : bool;       (* [classList] holds [hidden] *)
  imagePreview_src : string;
  statusContainer_classList : list string;
  statusMessage_textContent : string
}.

Definition with_status (classes : list string) (text : string) (p : State) : State :=
  mkState (selectedFile p) (fileInput_value p) (fileName_textContent p)
          (sendButton_disabled p) (sendButton_loading p) (previewContainer_hidden p)
          (imagePreview_src p) classes text.

Definition with_sendButton (disabled loading : bool) (p : State) : State :=
  mkState (selectedFile p) (fileInput_value p) (fileName_textContent p)
          disabled loading (previewContainer_hidden p)
          (imagePreview_src p) (statusContainer_classList p)
          (statusMessage_textContent p).

Definition classList_remove (token : string) (classes : list string) : list string :=
  filter (fun c => negb (String.eqb c token)) classes.

Definition classList_add (token : string) (classes : list string) : list string :=
  if existsb (String.eqb token) classes then classes else (classes ++ [token])%list.

(** [showStatus(message, type)] *)
Definition showStatus (message : string) (t : StatusType) (p : State) : State :=
  with_status (classList_remove "hidden" ["status-container"; show_type t]) message p.

(** [hideStatus()] *)
Definition hideStatus (p : State) : State :=
  with_status (classList_add "hidden" (statusContainer_classList p))
              (statusMessage_textContent p) p.

Definition maxSize : Z := 20 * 1024 * 1024.

(** [handleFileSelect(event)], [file] being [event.target.files[0]]; the
    preview is read later, see [previewRead]. *)
Definition handleFileSelect (file : option SelectedFile) (p : State) : State :=
  match file with
  | None => p
  | Some file =>
      if negb (String.prefix "image/" (type file))
      then showStatus "Please select a valid image file" as_error p
      else if size file >? maxSize
      then showStatus "File size must be less than 20MB" as_error p
      else
        mkState (Some file) (fileInput_value p) (name file) false
                (sendButton_loading p) (previewContainer_hidden p)
                (imagePreview_src p) (statusContainer_classList p)
                (statusMessage_textContent p)
  end.

(** The two callbacks of the reader started by [showPreview]: [result] is
    the data URL, or [None] when the reader failed. *)
Definition previewRead (result : option string) (p : State) : State :=
  match result with
  | Some url =>
      mkState (selectedFile p) (fileInput_value p) (fileName_textContent p)
              (sendButton_disabled p) (sendButton_loading p) false url
              (statusContainer_classList p) (statusMessage_textContent p)
  | None => showStatus "Failed to load image preview" as_error p
  end.

(** [clearSelection()] *)
Definition clearSelection (p : State) : State :=
  hideStatus
    (mkState None "" "Choose an image" true (sendButton_loading p) true ""
             (statusContainer_classList p) (statusMessage_textContent p)).

Record Tab : Type := mkTab {
  id : nat;
  url : option string
}.

(** What Chrome answers during one [handleSend]. *)
Record Chrome : Type := mkChrome {
  query : Result (option Tab);                 (* [chrome.tabs.query], first tab *)
  executeScript : Result unit;                 (* [chrome.scripting.executeScript] *)
  sendMessage : nat -> Request -> option Response; (* [None]: [lastError] *)
  readable : bool                              (* the reader's [onload] or [onerror] *)
}.

Inductive Call : Type :=
| Queried
| Injected (tab : nat)
| Sent (tab : nat) (request : Request).

Definition check_mark : string :=
  String (ascii_of_nat 226) (String (ascii_of_nat 156) (String (ascii_of_nat 147) "")).

Definition ballot_x : string :=
  String (ascii_of_nat 226) (String (ascii_of_nat 156) (String (ascii_of_nat 151) "")).

Definition pingRequest : Request := mkRequest (JString "ping") None.

Definition uploadRequest (file : SelectedFile) : Request :=
  mkRequest (JString "uploadPhoto")
            (Some (mkUploadData (Some (bytes file)) (Some (name file))
                                (Some (type file)))).

(** [${response.duration}] *)
Definition show_duration (d : option Z) : string :=
  match d with
  | Some z => Js.of_Z z
  | None => "undefined"
  end.

(** The [try] block of [handleSend] from the tab query on: the state, the
    calls made, and the response of the upload or the error thrown. *)
Definition send_steps (file : SelectedFile) (chrome : Chrome) (p : State)
  : State * list Call * Result Response :=
  match query chrome with
  | Throw e => (p, [Queried], Throw e)
  | Ok None => (p, [Queried], Throw (Error "No active tab found"))
  | Ok (Some tab) =>
      if match url tab with
         | Some u => negb (Js.includes u "web.telegram.org")
         | None => true
         end
      then (p, [Queried],
            Throw (Error "Please open Telegram Web (web.telegram.org) first"))
      else
        match executeScript chrome with
        | Throw e => (p, [Queried; Injected (id tab)], Throw e)
        | Ok _ =>
            let pinged := [Queried; Injected (id tab); Sent (id tab) pingRequest] in
            if match sendMessage chrome (id tab) pingRequest with
               | Some pingResponse => negb (success pingResponse)
               | None => true
               end
            then (p, pinged, Throw (Error "Content script failed to load"))
            else if negb (readable chrome)
            then (p, pinged, Throw (Error "Failed to read file"))
            else
              let p := showStatus "Uploading photo..." as_info p in
              let calls := (pinged ++ [Sent (id tab) (uploadRequest file)])%list in
              match sendMessage chrome (id tab) (uploadRequest file) with
              | Some response =>
                  if success response
                  then (showStatus (check_mark ++ " Photo sent successfully! ("
                                    ++ show_duration (duration response) ++ "ms)")
                                   as_success p,
                        calls, Ok response)
                  else (p, calls,
                        Throw (Error (Js.or_else (error response)
                                                 "Upload failed with unknown error")))
              | None => (p, calls, Throw (Error "Upload failed with unknown error"))
              end
        end
  end.

(** [handleSend()]: the state it leaves, the calls it made, and whether
    [clearSelection] was scheduled for two seconds later. *)
Definition handleSend (chrome : Chrome) (p : State) : State * list Call * bool :=
  match selectedFile p with
  | None => (showStatus "Please select an image first" as_error p, [], false)
  | Some file =>
      let p := with_sendButton true (sendButton_loading p) p in
      let p := with_sendButton (sendButton_disabled p) true p in
      let p := showStatus "Preparing to send..." as_info p in
      match send_steps file chrome p with
      | (p, calls, Ok _) =>
          (* [finally] *)
          (with_sendButton (sendButton_disabled p) false p, calls, true)
      | (p, calls, Throw e) =>
          (* [catch], then [finally] *)
          let p := showStatus (ballot_x ++ " Error: " ++ message e) as_error p in
          let p := with_sendButton false (sendButton_loading p) p in
          (with_sendButton (sendButton_disabled p) false p, calls, false)
      end
  end.

End Popup.

(** The message bus when the content script runs in world [w]: the first
    call of [sendResponse] is the response, and none is [lastError]. *)
Definition answering (w : World) (tab : nat) (request : Request) : option Response :=
  match fst (onMessage request w) with
  | response :: _ => Some response
  | [] => None
  end.

(** Sample popups. *)
Module PopupSample.

Definition cat : Popup.SelectedFile :=
  Popup.mkSelectedFile "cat.png" "image/png" 4
                       [Byte.x89; Byte.x50; Byte.x4e; Byte.x47].

Definition fresh_popup : Popup.State :=
  Popup.mkState None "" "Choose an image" true false true ""
                ["status-container"; "hidden"] "".

Definition with_cat : Popup.State := Popup.handleFileSelect (Some cat) fresh_popup.

Definition telegram_tab : Popup.Tab := Popup.mkTab 7 (Some Sample.telegram).

(** Chrome with the content script running in world [w]. *)
Definition chrome_on (w : World) : Popup.Chrome :=
  Popup.mkChrome (Ok (Some telegram_tab)) (Ok tt) (answering w) true.

End PopupSample.

(** * Properties *)

(** ** Small runs of the model *)

Example tokens_example :
  Js.tokens "Button  primary default" = ["Button"; "primary"; "default"].
Proof. reflexivity. Qed.

Example trim_example : Js.toLowerCase (Js.trim "  Send ") = "send".
Proof. reflexivity. Qed.

Example includes_example :
  Js.includes "Button primary" "primary" = true
  /\ Js.includes "Button secondary" "primary" = false.
Proof. split; reflexivity. Qed.

Example of_Z_example : Js.of_Z 5000 = "5000".
Proof. reflexivity. Qed.

Example show_selector_example :
  show_selector config.selectors.chatContent = ".chat-content, .messages-container".
Proof. reflexivity. Qed.

Example cooperative_upload_succeeds :
  fst (onMessage (mkRequest (JString "uploadPhoto") (Some Sample.photo))
                 Sample.cooperative)
  = [mkResponse true (Some "Photo uploaded successfully") None (Some 700)].
Proof. vm_compute. reflexivity. Qed.

Example ping_is_answered :
  fst (onMessage (mkRequest (JString "ping") None) Sample.elsewhere)
  = [mkResponse true (Some "Content script is ready") None None].
Proof. reflexivity. Qed.

(** ** The message listener *)


Lemma strict_eq_true (v : JsValue) (s : string) :
  strict_eq v s = true <-> v = JString s.
Proof.
  split.
  - destruct v; simpl; try discriminate.
    intros H. apply String.eqb_eq in H. now subst.
  - intros ->. simpl. apply String.eqb_refl.
Qed.



Example unknown_actions_in_text :
  fst (onMessage (mkRequest (JNumber (Js.mkSafeInteger (-42) eq_refl)) None)
                 Sample.cooperative)
  = [mkResponse false None (Some "Unknown action: -42") None]
  /\ fst (onMessage (mkRequest JUndefined None) Sample.cooperative)
     = [mkResponse false None (Some "Unknown action: undefined") None]
  /\ fst (onMessage (mkRequest (JString "") None) Sample.cooperative)
     = [mkResponse false None (Some "Unknown action: ") None]
  /\ fst (onMessage (mkRequest (JObject ["name"; "valueOf"]) None) Sample.cooperative)
     = [mkResponse false None (Some "Unknown action: [object Object]") None].
Proof. repeat split. Qed.


Lemma isValidTelegramPage_false (w : World) :
  Js.includes (href w) "web.telegram.org" = false
  \/ querySelector config.selectors.chatContent (document w) = Ok None ->
  isValidTelegramPage w = Ok false.
Proof.
  unfold isValidTelegramPage. intros [Hhost | Hchat].
  - rewrite Hhost. simpl. reflexivity.
  - rewrite Hchat. now rewrite andb_false_r.
Qed.

(** C1, as the code has it.  When the host location lacks the Telegram
    marker or no chat-content element exists, an upload request is answered
    with exactly [{success: false, error: "Not on a valid Telegram chat
    page. Please open a chat first."}]: the text contains ["valid"], the
    object has no [duration] key, and nothing is dispatched, the world being
    left untouched. *)
Theorem invalid_page_response (request : Request) (w : World) :
  action request = JString "uploadPhoto" ->
  Js.includes (href w) "web.telegram.org" = false
  \/ querySelector config.selectors.chatContent (document w) = Ok None ->
  onMessage request w = ([mkResponse false None (Some notOnTelegram) None], w)
  /\ Js.includes notOnTelegram "valid" = true
  /\ dispatched (snd (onMessage request w)) = dispatched w.
Proof.
  intros Haction Hpage.
  assert (Hrun : onMessage request w
                 = ([mkResponse false None (Some notOnTelegram) None], w)).
  { unfold onMessage. rewrite Haction. simpl strict_eq.
    now rewrite (isValidTelegramPage_false w Hpage). }
  rewrite Hrun. repeat split; reflexivity.
Qed.

Lemma invalid_page_response_witness :
  onMessage (mkRequest (JString "uploadPhoto") (Some Sample.photo)) Sample.elsewhere
  = ([mkResponse false None (Some notOnTelegram) None], Sample.elsewhere)
  /\ Js.includes notOnTelegram "valid" = true
  /\ dispatched (snd (onMessage (mkRequest (JString "uploadPhoto") (Some Sample.photo))
                                Sample.elsewhere))
     = dispatched Sample.elsewhere.
Proof.
  apply (invalid_page_response
           (mkRequest (JString "uploadPhoto") (Some Sample.photo)) Sample.elsewhere).
  - reflexivity.
  - left. reflexivity.
Defined.

(** C1 as stated fails: on another site the answer to an upload request
    carries no [duration] at all, so none that is at least 0. *)
Lemma invalid_page_has_no_duration :
  ~ (exists r d,
       fst (onMessage (mkRequest (JString "uploadPhoto") (Some Sample.photo))
                      Sample.elsewhere) = [r]
       /\ success r = false
       /\ duration r = Some d /\ 0 <= d).
Proof.
  intros (r & d & Hr & _ & Hd & _).
  vm_compute in Hr. injection Hr as <-. discriminate Hd.
Qed.

(** ** [uploadPhoto]: validation and defaults *)

(** C10. When [data] is [null]/[undefined] or has no [arrayBuffer],
    [uploadPhoto] returns [{success: false, error: "Invalid data:
    arrayBuffer is required", duration}] with a [duration] of 0 in this model
    of time; it does not throw, and the world, its dispatched events
    included, is unchanged. *)
Theorem uploadPhoto_requires_arrayBuffer (data : option UploadData) (w : World) :
  data = None \/ (exists d, data = Some d /\ arrayBuffer d = None) ->
  uploadPhoto data w
  = (Fulfilled (mkResponse false None
                           (Some "Invalid data: arrayBuffer is required") (Some 0)),
     w)
  /\ dispatched (snd (uploadPhoto data w)) = dispatched w.
Proof.
  intros Hdata.
  assert (Hrun : uploadPhoto data w
                 = (Fulfilled (mkResponse false None
                      (Some "Invalid data: arrayBuffer is required") (Some 0)), w)).
  { unfold uploadPhoto, try_catch, throw.
    destruct Hdata as [-> | (d & -> & Hbuf)].
    - simpl. now rewrite Z.sub_diag.
    - rewrite Hbuf. simpl. now rewrite Z.sub_diag. }
  rewrite Hrun. split; reflexivity.
Qed.

Lemma uploadPhoto_requires_arrayBuffer_witness :
  uploadPhoto (Some Sample.no_buffer) Sample.cooperative
  = (Fulfilled (mkResponse false None
                           (Some "Invalid data: arrayBuffer is required") (Some 0)),
     Sample.cooperative)
  /\ dispatched (snd (uploadPhoto (Some Sample.no_buffer) Sample.cooperative))
     = dispatched Sample.cooperative.
Proof.
  apply (uploadPhoto_requires_arrayBuffer (Some Sample.no_buffer) Sample.cooperative).
  right. exists Sample.no_buffer. split; reflexivity.
Defined.

(** ** The send control *)

Lemma find_first_skips_prefix {A} (f : A -> Result bool) (pre post : list A) (x : A) :
  Forall (fun a => f a = Ok false) pre ->
  f x = Ok true ->
  find_first f (pre ++ x :: post) = Ok (Some x).
Proof.
  intros Hpre Hx. induction Hpre as [| a pre Ha _ IH]; simpl.
  - now rewrite Hx.
  - now rewrite Ha.
Qed.

Lemma visible_prefix_not_primary (pre : list Element) :
  Forall (fun b => is_visible b = true -> is_primary_send b = Ok false) pre ->
  Forall (fun b => is_primary_send b = Ok false) (filter is_visible pre).
Proof.
  induction 1 as [| b pre Hb _ IH]; simpl.
  - constructor.
  - destruct (is_visible b) eqn:Hv; [constructor |]; auto.
Qed.

(** C4. Whatever stands before it in document order, a visible control
    whose text is "Send" and whose class carries "primary" is the one
    selected, provided no visible control before it is itself a primary
    "Send": a "Send" control with a secondary or generic marker standing
    earlier does not win, the primary classification being tried on all
    visible controls before any fallback is looked at. *)
Theorem primary_send_is_selected (pre post : list Element) (prim : Element) :
  is_visible prim = true ->
  is_primary_send prim = Ok true ->
  Forall (fun b => is_visible b = true -> is_primary_send b = Ok false) pre ->
  locateSendButton (filter is_visible (pre ++ prim :: post)) = Ok (Some prim).
Proof.
  intros Hvisible Hprimary Hpre.
  unfold locateSendButton.
  rewrite filter_app. simpl. rewrite Hvisible.
  rewrite (find_first_skips_prefix is_primary_send _ _ prim
             (visible_prefix_not_primary pre Hpre) Hprimary).
  reflexivity.
Qed.

Lemma primary_send_is_selected_witness :
  is_send Sample.secondary = true
  /\ locateSendButton (filter is_visible [Sample.secondary; Sample.primary])
     = Ok (Some Sample.primary).
Proof.
  split; [reflexivity |].
  apply (primary_send_is_selected [Sample.secondary] [] Sample.primary).
  - reflexivity.
  - reflexivity.
  - repeat constructor.
Defined.

(** ** [waitUntil] and a condition that throws *)

Lemma check_throws_at_once (budget : nat) (condition : World -> Result bool)
  (startTime timeout checkInterval : Z) (w : World) (e : JsError) :
  condition w = Throw e ->
  check (S budget) true condition startTime timeout checkInterval w = (Rejected e, w).
Proof. intros H. simpl. now rewrite H. Qed.

Lemma check_throws_on_a_tick (budget : nat) (condition : World -> Result bool)
  (startTime timeout checkInterval : Z) (w : World) (e : JsError) :
  condition w = Throw e ->
  check (S budget) false condition startTime timeout checkInterval w = (Unsettled e, w).
Proof. intros H. simpl. now rewrite H. Qed.

(** What [waitUntil] does when the condition is false at the call and
    throws at the first poll: the exception is raised inside a timer
    callback, the promise stays pending, and no new timer is set. *)
Lemma waitUntil_throw_on_second_check (condition : World -> Result bool)
  (timeout checkInterval : Z) (w : World) (e : JsError) :
  condition w = Ok false ->
  0 < timeout ->
  condition (after_interval checkInterval w) = Throw e ->
  waitUntil condition timeout checkInterval w
  = (Unsettled e, after_interval checkInterval w).
Proof.
  intros Hfalse Htimeout Hthrow. unfold waitUntil, poll_budget.
  replace (Z.to_nat (timeout / checkInterval) + 2)%nat
    with (S (S (Z.to_nat (timeout / checkInterval)))) by lia.
  cbn [check]. rewrite Hfalse.
  replace (now w - now w >=? timeout) with false
    by (symmetry; rewrite Z.geb_leb; apply Z.leb_gt; lia).
  now rewrite Hthrow.
Qed.

(** C2, the code at the failing input.  A condition that throws on the
    immediate check rejects the promise with that error.  A condition that is
    false at first and throws on the next poll leaves the promise unsettled
    for ever: the error reaches nobody; the one timer that was set has fired
    and no other is set. *)
Theorem waitUntil_later_throw_is_lost :
  fst (waitUntil Sample.broken 5000 100 Sample.cooperative)
  = Rejected (Error "layout is gone")
  /\ fst (waitUntil Sample.flaky 5000 100 Sample.cooperative)
     = Unsettled (Error "layout is gone")
  /\ handles (snd (waitUntil Sample.flaky 5000 100 Sample.cooperative))
     = [TimerSet 0 1100; TimerFired 0].
Proof.
  split; [| split].
  - unfold waitUntil. change (poll_budget 5000 100) with 52%nat.
    now rewrite (check_throws_at_once 51 Sample.broken _ _ _ _
                   (Error "layout is gone")).
  - rewrite (waitUntil_throw_on_second_check Sample.flaky 5000 100
               Sample.cooperative (Error "layout is gone"));
      reflexivity.
  - vm_compute. reflexivity.
Qed.

(** ** The page goes on while the script waits *)

Section Passing_time.

Lemma fire_due_sides (w : World) :
  script_side (fire_due w) = script_side w /\ page_side (fire_due w) = page_side w.
Proof. split; reflexivity. Qed.

Lemma apply_mutation_sides (m : Mutation) (rest : list Mutation) (w : World) :
  script_side (apply_mutation m rest w) = script_side w
  /\ page_side (apply_mutation m rest w) = (Z.max (now w) (stamp m), after m, rest).
Proof. split; reflexivity. Qed.

Lemma idle_until_sides (t : Z) (muts : list Mutation) (w : World) :
  script_side (idle_until t muts w) = script_side w
  /\ page_side (idle_until t muts w) = (Z.max (now w) t, document w, muts).
Proof. split; reflexivity. Qed.

Lemma advance_through_sides (t : Z) (muts : list Mutation) (w : World) :
  script_side (advance_through t muts w) = script_side w
  /\ page_side (advance_through t muts w)
     = page_advance t muts (now w) (document w).
Proof.
  revert w. induction muts as [| m rest IH]; intros w; simpl.
  - apply idle_until_sides.
  - destruct (stamp m <=? t).
    + destruct (IH (apply_mutation m rest w)) as [Hs Hp]. split.
      * rewrite Hs. reflexivity.
      * rewrite Hp. reflexivity.
    + apply idle_until_sides.
Qed.

Lemma page_advance_clock (t : Z) (muts : list Mutation) (clock : Z) (d : Document) :
  fst (fst (page_advance t muts clock d)) = Z.max clock t.
Proof.
  revert clock d. induction muts as [| m rest IH]; intros clock d; simpl.
  - reflexivity.
  - destruct (stamp m <=? t) eqn:Hle.
    + rewrite IH. apply Z.leb_le in Hle. lia.
    + reflexivity.
Qed.

(** Waiting until [t1] and then until [t2] is waiting until [t2]. *)
Lemma page_advance_twice (t1 t2 : Z) (muts : list Mutation) (clock : Z) (d : Document) :
  t1 <= t2 ->
  page_advance t2 (snd (page_advance t1 muts clock d))
               (fst (fst (page_advance t1 muts clock d)))
               (snd (fst (page_advance t1 muts clock d)))
  = page_advance t2 muts clock d.
Proof.
  intros Hle. revert clock d.
  induction muts as [| m rest IH]; intros clock d; simpl.
  - f_equal. f_equal. lia.
  - destruct (stamp m <=? t1) eqn:H1.
    + apply Z.leb_le in H1.
      replace (stamp m <=? t2) with true by (symmetry; apply Z.leb_le; lia).
      apply IH.
    + apply Z.leb_gt in H1. simpl.
      destruct (stamp m <=? t2) eqn:H2.
      * f_equal. lia.
      * apply Z.leb_gt in H2. f_equal. f_equal. lia.
Qed.

Lemma now_advance_through (t : Z) (muts : list Mutation) (w : World) :
  now (advance_through t muts w) = Z.max (now w) t.
Proof.
  destruct (advance_through_sides t muts w) as [_ Hp].
  change (now (advance_through t muts w))
    with (fst (fst (page_side (advance_through t muts w)))).
  rewrite Hp. apply page_advance_clock.
Qed.

Lemma after_interval_sides (checkInterval : Z) (w : World) :
  script_side (after_interval checkInterval w) = script_side w
  /\ page_side (after_interval checkInterval w)
     = page_advance (now w + checkInterval) (pending w) (now w) (document w).
Proof.
  unfold after_interval.
  match goal with
  | |- context [advance_through ?t ?ms ?w1] =>
      destruct (advance_through_sides t ms w1) as [Hs Hp]
  end.
  split.
  - unfold script_side in *. simpl in *. exact Hs.
  - unfold page_side in *. simpl in *. exact Hp.
Qed.

Lemma now_after_interval (checkInterval : Z) (w : World) :
  0 <= checkInterval ->
  now (after_interval checkInterval w) = now w + checkInterval.
Proof.
  intros Hpos. destruct (after_interval_sides checkInterval w) as [_ Hp].
  change (now (after_interval checkInterval w))
    with (fst (fst (page_side (after_interval checkInterval w)))).
  rewrite Hp, page_advance_clock. lia.
Qed.

(** What is left of the page's future once time has reached [t] lies after
    [t]. *)
Lemma page_advance_head (t : Z) (muts : list Mutation) (clock : Z) (d : Document) :
  match snd (page_advance t muts clock d) with
  | m :: _ => t < stamp m
  | [] => True
  end.
Proof.
  revert clock d. induction muts as [| m rest IH]; intros clock d; simpl.
  - exact I.
  - destruct (stamp m <=? t) eqn:Hle; [apply IH |].
    simpl. now apply Z.leb_gt in Hle.
Qed.

Lemma flushed_of_page_advance (t : Z) (w0 w1 : World) :
  page_side w1 = page_advance t (pending w0) (now w0) (document w0) ->
  now w0 <= t ->
  flushed w1.
Proof.
  intros Hside Hle. unfold flushed.
  pose proof (page_advance_head t (pending w0) (now w0) (document w0)) as Hhead.
  pose proof (page_advance_clock t (pending w0) (now w0) (document w0)) as Hclock.
  rewrite <- Hside in Hhead, Hclock. unfold page_side in Hhead, Hclock.
  simpl in Hhead, Hclock.
  destruct (pending w1) as [| m rest]; [exact I | lia].
Qed.

(** Resuming changes nothing the script did, and takes no time; where
    nothing is due it changes nothing at all. *)
Lemma resumed_sides (w : World) :
  script_side (resumed w) = script_side w /\ now (resumed w) = now w.
Proof.
  unfold resumed. destruct (pending w) as [| m rest]; [auto |].
  destruct (stamp m <=? now w) eqn:Hdue; [| auto].
  apply Z.leb_le in Hdue. split; [reflexivity | simpl; lia].
Qed.

Lemma resumed_flushed (w : World) : flushed w -> resumed w = w.
Proof.
  unfold flushed, resumed. destruct (pending w) as [| m rest]; [reflexivity |].
  intros H.
  now replace (stamp m <=? now w) with false by (symmetry; apply Z.leb_gt; lia).
Qed.

(** A pause resumes in the task of its timer: nothing of the page comes in
    between. *)
Lemma sleep_timer (ms : Z) (w : World) : 0 <= ms -> sleep ms w = timer ms w.
Proof.
  intros Hms. unfold sleep, await, timer. f_equal.
  apply resumed_flushed.
  destruct (advance_through_sides (now w + ms) (pending w) w) as [_ Hp].
  apply (flushed_of_page_advance _ _ _ Hp). lia.
Qed.

End Passing_time.

(** ** Promises that settle *)

Section Settling.

Lemma Settles_ret {A} (a : A) : Settles (ret a).
Proof. intros w. exact I. Qed.

Lemma Settles_throw {A} (e : JsError) : Settles (@throw A e).
Proof. intros w. exact I. Qed.

Lemma Settles_bind {A B} (c : Async A) (k : A -> Async B) :
  Settles c -> (forall a, Settles (k a)) -> Settles (bind c k).
Proof.
  intros Hc Hk w. unfold bind. specialize (Hc w).
  destruct (c w) as [[a | e | e |] w1]; simpl in *; try contradiction.
  - apply Hk.
  - exact I.
Qed.

Lemma Settles_try_catch {A} (c : Async A) (handler : JsError -> Async A) :
  Settles c -> (forall e, Settles (handler e)) -> Settles (try_catch c handler).
Proof.
  intros Hc Hh w. unfold try_catch. specialize (Hc w).
  destruct (c w) as [[a | e | e |] w1]; simpl in *; try contradiction.
  - exact I.
  - apply Hh.
Qed.

Lemma Settles_rewrap {A} (prefix : string) (c : Async A) :
  Settles c -> Settles (rewrap prefix c).
Proof.
  intros Hc. apply Settles_try_catch; [exact Hc |].
  intros e. apply Settles_throw.
Qed.

Lemma Settles_on_document {A} (f : Document -> Result A) : Settles (on_document f).
Proof. intros w. unfold on_document. destruct (f (document w)); exact I. Qed.

Lemma Settles_sync {A} (r : Result A) : Settles (sync r).
Proof. intros w. unfold sync. destruct r; exact I. Qed.

Lemma Settles_await {A} (c : Async A) : Settles c -> Settles (await c).
Proof.
  intros Hc w. unfold await. specialize (Hc w).
  destruct (c w) as [[a | e | e |] w1]; simpl in *; try contradiction; exact I.
Qed.

Lemma Settles_sleep (ms : Z) : Settles (sleep ms).
Proof. intros w. exact I. Qed.

Lemma Settles_addPreventDefaultOnce (el : Element) (type : EventType) :
  Settles (addPreventDefaultOnce el type).
Proof. intros w. exact I. Qed.

Lemma Settles_dispatchEvent (el : Element) (type : EventType)
  (dt : option DataTransfer) : Settles (dispatchEvent el type dt).
Proof. intros w. exact I. Qed.

Lemma waitForElement_observe_settles (selector : Selector) (timeout : Z)
  (observer : nat) (deadline : Z) (muts : list Mutation) (w : World) :
  settled (fst (waitForElement_observe selector timeout observer deadline muts w)).
Proof.
  revert w. induction muts as [| m rest IH]; intros w; simpl.
  - exact I.
  - destruct (stamp m <=? deadline); [| exact I].
    destruct (observed m); [| apply IH].
    destruct (querySelector _ _) as [[element |] | e]; try apply IH.
    exact I.
Qed.

Lemma Settles_waitForElement (selector : Selector) (timeout : Z) :
  Settles (waitForElement selector timeout).
Proof.
  intros w. unfold waitForElement.
  destruct (querySelector selector (document w)) as [[element |] | e];
    try exact I.
  apply waitForElement_observe_settles.
Qed.

Lemma waitForClass_observe_settles (className' : string) (timeout : Z)
  (observer : nat) (deadline : Z) (muts : list Mutation) (element : Element)
  (w : World) :
  settled (fst (waitForClass_observe element className' timeout observer
                                     deadline muts w)).
Proof.
  revert element w. induction muts as [| m rest IH]; intros element w; simpl.
  - exact I.
  - destruct (stamp m <=? deadline); [| exact I].
    destruct (String.eqb _ _); [apply IH |].
    destruct (classList_contains _ _); [exact I | apply IH].
Qed.

Lemma Settles_waitForClass (element : Element) (className' : string) (timeout : Z) :
  Settles (waitForClass element className' timeout).
Proof.
  intros w. unfold waitForClass.
  destruct (classList_contains element className'); [exact I |].
  apply waitForClass_observe_settles.
Qed.

(** With a positive interval the poll budget is never used up. *)
Lemma check_never_spins (condition : World -> Result bool)
  (startTime timeout checkInterval : Z) :
  0 < checkInterval ->
  forall (budget : nat) (first : bool) (w : World),
    timeout - (now w - startTime) <= (Z.of_nat budget - 1) * checkInterval ->
    (0 < budget)%nat ->
    fst (check budget first condition startTime timeout checkInterval w) <> Spinning.
Proof.
  intros Hpos. induction budget as [| budget IH]; intros first w Hleft Hbudget.
  - lia.
  - simpl. destruct (condition w) as [[|] | e]; [discriminate | | destruct first; discriminate].
    destruct (now w - startTime >=? timeout) eqn:Hout; [discriminate |].
    rewrite Z.geb_leb in Hout. apply Z.leb_gt in Hout.
    apply IH.
    + rewrite now_after_interval by lia. nia.
    + destruct budget; [| lia]. simpl in Hleft. lia.
Qed.

Lemma poll_budget_suffices (timeout checkInterval : Z) :
  0 < checkInterval ->
  timeout <= (Z.of_nat (poll_budget timeout checkInterval) - 1) * checkInterval
  /\ (0 < poll_budget timeout checkInterval)%nat.
Proof.
  intros Hpos. unfold poll_budget. split; [| lia].
  destruct (Z.le_gt_cases 0 timeout) as [Hge | Hlt].
  - rewrite Nat2Z.inj_add, Z2Nat.id by (apply Z.div_pos; lia).
    pose proof (Z.mul_div_le timeout checkInterval Hpos).
    pose proof (Z.mod_pos_bound timeout checkInterval Hpos).
    pose proof (Z.div_mod timeout checkInterval ltac:(lia)). nia.
  - nia.
Qed.

Lemma waitUntil_never_spins (condition : World -> Result bool)
  (timeout checkInterval : Z) (w : World) :
  0 < checkInterval ->
  fst (waitUntil condition timeout checkInterval w) <> Spinning.
Proof.
  intros Hpos. unfold waitUntil.
  destruct (poll_budget_suffices timeout checkInterval Hpos) as [Hleft Hbudget].
  apply check_never_spins; try assumption.
  now rewrite Z.sub_diag, Z.sub_0_r.
Qed.

(** A condition that does not throw leaves no promise pending. *)
Lemma check_settles (condition : World -> Result bool)
  (startTime timeout checkInterval : Z) :
  total_condition condition ->
  0 < checkInterval ->
  forall (budget : nat) (first : bool) (w : World),
    timeout - (now w - startTime) <= (Z.of_nat budget - 1) * checkInterval ->
    (0 < budget)%nat ->
    settled (fst (check budget first condition startTime timeout checkInterval w)).
Proof.
  intros Htotal Hpos. induction budget as [| budget IH]; intros first w Hleft Hbudget.
  - lia.
  - simpl. destruct (Htotal w) as [[|] ->]; [exact I |].
    destruct (now w - startTime >=? timeout) eqn:Hout; [exact I |].
    rewrite Z.geb_leb in Hout. apply Z.leb_gt in Hout.
    apply IH.
    + rewrite now_after_interval by lia. nia.
    + destruct budget; [| lia]. simpl in Hleft. lia.
Qed.

Lemma Settles_waitUntil (condition : World -> Result bool)
  (timeout checkInterval : Z) :
  total_condition condition ->
  0 < checkInterval ->
  Settles (waitUntil condition timeout checkInterval).
Proof.
  intros Htotal Hpos w. unfold waitUntil.
  destruct (poll_budget_suffices timeout checkInterval Hpos) as [Hleft Hbudget].
  apply check_settles; try assumption.
  now rewrite Z.sub_diag, Z.sub_0_r.
Qed.

End Settling.

(** ** An exception that nobody catches *)

Create HintDb settles discriminated.

#[local] Hint Resolve Settles_ret Settles_throw Settles_on_document Settles_sync
  Settles_sleep Settles_addPreventDefaultOnce Settles_dispatchEvent
  Settles_waitForElement Settles_waitForClass Settles_rewrap Settles_await : settles.

Ltac settle :=
  repeat first
    [ solve [auto with settles]
    | solve [intros ?; exact I]
    | apply Settles_bind; [| intros ?]
    | apply Settles_try_catch; [| intros ?] ].

Lemma Settles_dragover_loop (remaining : nat) (i : Z) (dropZone : Element)
  (dataTransfer : DataTransfer) :
  Settles (dragover_loop remaining i dropZone dataTransfer).
Proof.
  revert i. induction remaining as [| remaining IH]; intros i; simpl.
  - settle.
  - apply Settles_bind; [settle | intros _].
    apply Settles_bind; [settle | intros _].
    apply Settles_bind; [destruct (i <? 2); settle | intros _].
    apply IH.
Qed.

#[local] Hint Resolve Settles_dragover_loop : settles.

Lemma Settles_waitForPreviewModal : Settles waitForPreviewModal.
Proof. unfold waitForPreviewModal. settle. Qed.

Lemma Settles_findDropZone : Settles findDropZone.
Proof. unfold findDropZone. settle. Qed.

#[local] Hint Resolve Settles_waitForPreviewModal Settles_findDropZone : settles.

Lemma Settles_uploadViaDragAndDrop (file : File) : Settles (uploadViaDragAndDrop file).
Proof. unfold uploadViaDragAndDrop. settle. Qed.

Lemma Settles_performClick (element : Element) : Settles (performClick element).
Proof. unfold performClick, focus_call. destruct (interface element); settle. Qed.

Lemma Settles_arrayBufferToFile (buffer : list Byte.byte)
  (filename mimeType : option string) :
  Settles (arrayBufferToFile buffer filename mimeType).
Proof. unfold arrayBufferToFile. apply Settles_rewrap. intros w. exact I. Qed.

#[local] Hint Resolve Settles_performClick Settles_uploadViaDragAndDrop
  Settles_arrayBufferToFile : settles.

(** Neither [try] block reaches an exception raised in a timer callback: a
    wait that is left pending leaves its callers pending. *)
Lemma bind_unsettled {A B} (c : Async A) (k : A -> Async B) (w w1 : World)
  (e : JsError) :
  c w = (Unsettled e, w1) -> bind c k w = (Unsettled e, w1).
Proof. intros H. unfold bind. now rewrite H. Qed.

Lemma await_unsettled {A} (c : Async A) (w w1 : World) (e : JsError) :
  c w = (Unsettled e, w1) -> await c w = (Unsettled e, w1).
Proof. intros H. unfold await. now rewrite H. Qed.

Lemma try_catch_unsettled {A} (c : Async A) (handler : JsError -> Async A)
  (w w1 : World) (e : JsError) :
  c w = (Unsettled e, w1) -> try_catch c handler w = (Unsettled e, w1).
Proof. intros H. unfold try_catch. now rewrite H. Qed.

(** When the condition of the send button is false at the call and throws
    at the first poll, [clickSendButton] never settles. *)
Lemma clickSendButton_hangs (w : World) (e : JsError) :
  sendButtonAvailable w = Ok false ->
  sendButtonAvailable (after_interval default_checkInterval w) = Throw e ->
  clickSendButton w = (Unsettled e, after_interval default_checkInterval w).
Proof.
  intros Hfalse Hthrow. unfold clickSendButton, rewrap.
  apply try_catch_unsettled, bind_unsettled, await_unsettled.
  apply waitUntil_throw_on_second_check; [exact Hfalse | reflexivity | exact Hthrow].
Qed.

(** A run of [uploadPhoto] that never settles gets no response. *)
Lemma unsettled_upload_is_unanswered (request : Request) (w w1 : World)
  (e : JsError) :
  action request = JString "uploadPhoto" ->
  isValidTelegramPage w = Ok true ->
  uploadPhoto (data request) w = (Unsettled e, w1) ->
  onMessage request w = ([], w1).
Proof.
  intros Haction Hvalid Hrun. unfold onMessage.
  rewrite Haction. simpl strict_eq. cbv iota. now rewrite Hvalid, Hrun.
Qed.

(** C7, the code at the failing input.  The preview of this chat comes to
    hold a [button] element of the SVG namespace while the script polls for
    the send button.  Its [className] is no string, so the polled condition
    throws; it does so inside a timer callback, where no [try] block of the
    script is in force: the promise of [waitUntil] is never settled,
    [uploadPhoto] never returns a result, and the listener never calls
    [sendResponse].  Were the element there at the first, immediate check,
    the same exception would be captured into the result. *)
Theorem orchestrator_can_stay_silent :
  fst (uploadPhoto (Some Sample.photo) Sample.drawing)
  = Unsettled (Error "btn.className.includes is not a function")
  /\ fst (onMessage (mkRequest (JString "uploadPhoto") (Some Sample.photo))
                    Sample.drawing)
     = []
  /\ fst (onMessage (mkRequest (JString "uploadPhoto") (Some Sample.photo))
                    Sample.drawn_at_once)
     = [mkResponse false None
          (Some "Failed to click send: btn.className.includes is not a function")
          (Some 300)].
Proof.
  assert (Hrun : exists w1,
             uploadPhoto (Some Sample.photo) Sample.drawing
             = (Unsettled (Error "btn.className.includes is not a function"), w1)).
  { eexists. vm_compute. reflexivity. }
  destruct Hrun as (w1 & Hrun).
  split; [now rewrite Hrun |]. split.
  - rewrite (unsettled_upload_is_unanswered
               (mkRequest (JString "uploadPhoto") (Some Sample.photo))
               Sample.drawing w1 _ eq_refl eq_refl Hrun).
    reflexivity.
  - vm_compute. reflexivity.
Qed.

(** ** Running the script step by step *)

Section Steps.

Lemma bind_run {A B} (c : Async A) (k : A -> Async B) (w w1 : World) (a : A) :
  c w = (Fulfilled a, w1) -> bind c k w = k a w1.
Proof. intros H. unfold bind. now rewrite H. Qed.

Lemma bind_rejected {A B} (c : Async A) (k : A -> Async B) (w w1 : World)
  (e : JsError) :
  c w = (Rejected e, w1) -> bind c k w = (Rejected e, w1).
Proof. intros H. unfold bind. now rewrite H. Qed.

Lemma page_side_inv (w : World) (clock : Z) (d : Document) (muts : list Mutation) :
  page_side w = (clock, d, muts) ->
  now w = clock /\ document w = d /\ pending w = muts.
Proof. unfold page_side. intros H. injection H as -> -> ->. auto. Qed.

(** A world reached by waiting until [t] keeps following the same page. *)
Lemma page_advance_resume (t t' : Z) (w0 w1 : World) :
  page_side w1 = page_advance t (pending w0) (now w0) (document w0) ->
  t <= t' ->
  page_advance t' (pending w1) (now w1) (document w1)
  = page_advance t' (pending w0) (now w0) (document w0).
Proof.
  intros Hside Hle.
  rewrite <- (page_advance_twice t t' (pending w0) (now w0) (document w0) Hle).
  rewrite <- Hside. reflexivity.
Qed.

Lemma listens_refl (n : nat) (type : EventType) : listens n type (n, type) = true.
Proof. unfold listens. simpl. rewrite Nat.eqb_refl. now destruct type. Qed.

(** The listener added just before a dispatch is the one that runs. *)
Lemma prevented_dispatch_then (el : Element) (type : EventType)
  (dt : option DataTransfer) (w : World) :
  exists w',
    (forall B (k : Async B),
       (addPreventDefaultOnce el type ;;; dispatchEvent el type dt ;;; k) w = k w')
    /\ dispatched w'
       = (dispatched w ++ [mkDispatch (node el) type dt true (now w)])%list
    /\ page_side w' = page_side w
    /\ href w' = href w.
Proof.
  unfold bind, addPreventDefaultOnce, dispatchEvent. simpl.
  rewrite existsb_app. simpl. rewrite listens_refl, orb_true_r.
  eexists. repeat split.
Qed.

Lemma sleep_run (ms : Z) (w : World) :
  0 <= ms ->
  exists w',
    sleep ms w = (Fulfilled tt, w')
    /\ dispatched w' = dispatched w
    /\ now w' = now w + ms
    /\ page_side w' = page_advance (now w + ms) (pending w) (now w) (document w)
    /\ href w' = href w.
Proof.
  intros Hms. rewrite (sleep_timer ms w Hms). unfold timer.
  eexists. split; [reflexivity |].
  destruct (advance_through_sides (now w + ms) (pending w) w) as [Hs Hp].
  unfold script_side in Hs. injection Hs as Hh _ Hd.
  repeat split; try assumption.
  rewrite now_advance_through. lia.
Qed.

(** The three [dragover] events: at the start, 50 ms and 100 ms later, each
    with its default prevented, while the page goes on for 100 ms. *)
Lemma dragover_loop_run (dropZone : Element) (dt : DataTransfer) (w : World) :
  exists w',
    dragover_loop 3 0 dropZone dt w = (Fulfilled tt, w')
    /\ dispatched w'
       = (dispatched w
          ++ [mkDispatch (node dropZone) dragover (Some dt) true (now w);
              mkDispatch (node dropZone) dragover (Some dt) true
                         (now w + hover_interval);
              mkDispatch (node dropZone) dragover (Some dt) true
                         (now w + 2 * hover_interval)])%list
    /\ now w' = now w + 2 * hover_interval
    /\ page_side w'
       = page_advance (now w + 2 * hover_interval) (pending w) (now w) (document w)
    /\ href w' = href w.
Proof.
  cbn [dragover_loop]. change (0 + 1) with 1. change (1 + 1) with 2.
  change (0 <? 2) with true. change (1 <? 2) with true. change (2 <? 2) with false.
  cbv iota.
  (* first event, first pause *)
  destruct (prevented_dispatch_then dropZone dragover (Some dt) w)
    as (w1 & Hrun1 & Hd1 & Hp1 & Hh1).
  rewrite Hrun1.
  destruct (page_side_inv _ _ _ _ Hp1) as (Hn1 & Hdoc1 & Hpend1).
  destruct (sleep_run hover_interval w1 ltac:(unfold hover_interval; lia))
    as (w2 & Hrun2 & Hd2 & Hn2 & Hp2 & Hh2).
  rewrite (bind_run _ _ _ _ _ Hrun2).
  rewrite Hn1, Hdoc1, Hpend1 in Hp2. rewrite Hn1 in Hn2.
  (* second event, second pause *)
  destruct (prevented_dispatch_then dropZone dragover (Some dt) w2)
    as (w3 & Hrun3 & Hd3 & Hp3 & Hh3).
  rewrite Hrun3.
  destruct (sleep_run hover_interval w3 ltac:(unfold hover_interval; lia))
    as (w4 & Hrun4 & Hd4 & Hn4 & Hp4 & Hh4).
  rewrite (bind_run _ _ _ _ _ Hrun4).
  assert (Hn3 : now w3 = now w + hover_interval).
  { change (now w3) with (fst (fst (page_side w3))). rewrite Hp3.
    change (fst (fst (page_side w2))) with (now w2). exact Hn2. }
  assert (Hp4' : page_side w4
                 = page_advance (now w + 2 * hover_interval)
                                (pending w) (now w) (document w)).
  { rewrite Hp4.
    replace (now w3 + hover_interval)
      with (now w + 2 * hover_interval) by (rewrite Hn3; lia).
    apply (page_advance_resume (now w + hover_interval)).
    - change (now w3, document w3, pending w3) with (page_side w3).
      rewrite Hp3. exact Hp2.
    - unfold hover_interval. lia. }
  (* third event *)
  destruct (prevented_dispatch_then dropZone dragover (Some dt) w4)
    as (w5 & Hrun5 & Hd5 & Hp5 & Hh5).
  rewrite Hrun5.
  unfold bind, ret. exists w5. split; [reflexivity |].
  assert (Hn4' : now w4 = now w + 2 * hover_interval) by (rewrite Hn4, Hn3; lia).
  repeat split.
  - rewrite Hd5, Hd4, Hd3, Hd2, Hd1, Hn4', Hn2.
    repeat rewrite <- app_assoc. reflexivity.
  - change (now w5) with (fst (fst (page_side w5))). rewrite Hp5. exact Hn4'.
  - rewrite Hp5. exact Hp4'.
  - congruence.
Qed.

End Steps.

(** ** Properties kept by every step of a run *)

Section Respecting.

Variable R : World -> World -> Prop.
Hypothesis R_refl : forall w, R w w.
Hypothesis R_trans : forall w1 w2 w3, R w1 w2 -> R w2 w3 -> R w1 w3.

Lemma Respects_ret {A} (a : A) : Respects R (ret a).
Proof. intros w. apply R_refl. Qed.

Lemma Respects_throw {A} (e : JsError) : Respects R (@throw A e).
Proof. intros w. apply R_refl. Qed.

Lemma Respects_on_document {A} (f : Document -> Result A) : Respects R (on_document f).
Proof. intros w. unfold on_document. destruct (f (document w)); apply R_refl. Qed.

Lemma Respects_bind {A B} (c : Async A) (k : A -> Async B) :
  Respects R c -> (forall a, Respects R (k a)) -> Respects R (bind c k).
Proof.
  intros Hc Hk w. unfold bind. specialize (Hc w).
  destruct (c w) as [[a | e | e |] w1]; simpl in *; try exact Hc.
  eapply R_trans; [exact Hc | apply Hk].
Qed.

Lemma Respects_try_catch {A} (c : Async A) (handler : JsError -> Async A) :
  Respects R c -> (forall e, Respects R (handler e)) ->
  Respects R (try_catch c handler).
Proof.
  intros Hc Hh w. unfold try_catch. specialize (Hc w).
  destruct (c w) as [[a | e | e |] w1]; simpl in *; try exact Hc.
  eapply R_trans; [exact Hc | apply Hh].
Qed.

Lemma Respects_rewrap {A} (prefix : string) (c : Async A) :
  Respects R c -> Respects R (rewrap prefix c).
Proof.
  intros Hc. apply Respects_try_catch; [exact Hc |].
  intros e. apply Respects_throw.
Qed.

Lemma Respects_sync {A} (r : Result A) : Respects R (sync r).
Proof. intros w. unfold sync. destruct r; apply R_refl. Qed.

(** What the script is made of, once the primitives respect [R]. *)
Hypothesis R_dispatchEvent :
  forall el type dt, Respects R (dispatchEvent el type dt).
Hypothesis R_addPreventDefaultOnce :
  forall el type, Respects R (addPreventDefaultOnce el type).
Hypothesis R_resumed : forall w, R w (resumed w).
Hypothesis R_timer : forall ms, Respects R (timer ms).
Hypothesis R_waitForElement :
  forall selector timeout, Respects R (waitForElement selector timeout).
Hypothesis R_waitUntil :
  forall condition timeout checkInterval,
    Respects R (waitUntil condition timeout checkInterval).

Lemma Respects_await {A} (c : Async A) : Respects R c -> Respects R (await c).
Proof.
  intros Hc w. unfold await. specialize (Hc w).
  destruct (c w) as [[a | e | e |] w1]; simpl in *; try exact Hc;
    (eapply R_trans; [exact Hc | apply R_resumed]).
Qed.

Lemma R_sleep (ms : Z) : Respects R (sleep ms).
Proof. apply Respects_await, R_timer. Qed.

Lemma Respects_dragover_loop (remaining : nat) (i : Z) (dropZone : Element)
  (dataTransfer : DataTransfer) :
  Respects R (dragover_loop remaining i dropZone dataTransfer).
Proof.
  revert i. induction remaining as [| remaining IH]; intros i; simpl.
  - apply Respects_ret.
  - apply Respects_bind; [apply R_addPreventDefaultOnce | intros _].
    apply Respects_bind; [apply R_dispatchEvent | intros _].
    apply Respects_bind; [| intros _; apply IH].
    destruct (i <? 2); [apply R_sleep | apply Respects_ret].
Qed.

Lemma Respects_waitForPreviewModal : Respects R waitForPreviewModal.
Proof.
  unfold waitForPreviewModal.
  apply Respects_bind; [| intros modal; apply Respects_ret].
  apply Respects_await, R_waitForElement.
Qed.

Lemma Respects_uploadViaDragAndDrop (file : File) :
  Respects R (uploadViaDragAndDrop file).
Proof.
  unfold uploadViaDragAndDrop.
  apply Respects_try_catch; [| intros e; apply Respects_throw].
  apply Respects_bind; [apply Respects_on_document | intros dropZone]. cbv zeta.
  apply Respects_bind; [apply R_dispatchEvent | intros _].
  apply Respects_bind; [| intros surface].
  { apply Respects_try_catch; [| intros e; apply Respects_ret].
    apply Respects_bind; [| intros t; apply Respects_ret].
    apply Respects_await, R_waitForElement. }
  apply Respects_bind; [apply Respects_dragover_loop | intros _].
  apply Respects_bind; [apply R_addPreventDefaultOnce | intros _].
  apply Respects_bind; [apply R_dispatchEvent | intros _].
  apply Respects_bind; [apply R_dispatchEvent | intros _].
  apply Respects_bind; [apply Respects_await, Respects_waitForPreviewModal | intros _].
  apply Respects_ret.
Qed.

Lemma Respects_performClick (element : Element) : Respects R (performClick element).
Proof.
  unfold performClick.
  apply Respects_try_catch; [| intros e; apply Respects_ret].
  apply Respects_bind; [| intros _].
  { unfold focus_call.
    destruct (interface element); try apply R_dispatchEvent. apply Respects_throw. }
  apply Respects_bind; [apply R_dispatchEvent | intros _].
  apply R_dispatchEvent.
Qed.

Lemma Respects_clickSendButton : Respects R clickSendButton.
Proof.
  unfold clickSendButton. apply Respects_rewrap.
  apply Respects_bind; [apply Respects_await, R_waitUntil | intros _].
  apply Respects_bind; [apply Respects_on_document | intros allButtons]. cbv zeta.
  apply Respects_bind; [apply Respects_sync | intros [sendButton |]];
    [| apply Respects_throw].
  apply Respects_bind; [apply Respects_performClick | intros _].
  apply Respects_try_catch; [| intros e; apply Respects_ret].
  apply Respects_await, R_waitUntil.
Qed.

Lemma Respects_uploadPhoto (data : option UploadData) : Respects R (uploadPhoto data).
Proof.
  intros w. unfold uploadPhoto. cbv zeta.
  generalize (now w) at 1 2. intros startTime.
  revert w. apply Respects_try_catch.
  - destruct data as [d |]; [| apply Respects_throw].
    destruct (arrayBuffer d) as [buffer |]; [| apply Respects_throw].
    apply Respects_bind; [| intros file].
    { unfold arrayBufferToFile. apply Respects_rewrap. intros w. apply R_refl. }
    apply Respects_bind;
      [apply Respects_await, Respects_uploadViaDragAndDrop | intros _].
    apply Respects_bind; [apply Respects_await, Respects_clickSendButton | intros _].
    intros w. apply R_refl.
  - intros e w. apply R_refl.
Qed.

End Respecting.

(** ** What the page never shows, the script never finds *)

Section Keeping.

Variable Q : Document -> Prop.

Lemma stays_in_refl (w : World) : stays_in Q w w.
Proof. intros H. exact H. Qed.

Lemma stays_in_trans (w1 w2 w3 : World) :
  stays_in Q w1 w2 -> stays_in Q w2 w3 -> stays_in Q w1 w3.
Proof. unfold stays_in. auto. Qed.

Lemma page_keeps_of_sides (w w' : World) :
  page_side w' = page_side w -> stays_in Q w w'.
Proof.
  intros Hside [Hd Hp]. destruct (page_side_inv _ _ _ _ Hside) as (_ & Hdoc & Hpend).
  unfold page_keeps. now rewrite Hdoc, Hpend.
Qed.

Lemma advance_through_keeps (t : Z) (muts : list Mutation) (w : World) :
  Q (document w) ->
  Forall (fun m => Q (after m)) muts ->
  page_keeps Q (advance_through t muts w).
Proof.
  intros Hd Hm. revert w Hd.
  induction Hm as [| m rest Hhead Hrest IH]; intros w Hd; simpl.
  - split; [exact Hd | constructor].
  - destruct (stamp m <=? t).
    + apply IH. exact Hhead.
    + split; [exact Hd | now constructor].
Qed.

Lemma Keeps_timer (ms : Z) : Keeps Q (timer ms).
Proof. intros w [Hd Hp]. now apply advance_through_keeps. Qed.

Lemma resumed_keeps (w : World) : stays_in Q w (resumed w).
Proof.
  intros [Hd Hp]. unfold resumed.
  destruct (pending w) as [| m rest] eqn:Hpending; [split; [exact Hd | now rewrite Hpending] |].
  destruct (stamp m <=? now w); [| split; [exact Hd | now rewrite Hpending]].
  inversion Hp; subst. now split.
Qed.

Lemma Keeps_await {A} (c : Async A) : Keeps Q c -> Keeps Q (await c).
Proof.
  exact (Respects_await (stays_in Q) stays_in_trans resumed_keeps c).
Qed.

Lemma Keeps_dispatchEvent (el : Element) (type : EventType)
  (dt : option DataTransfer) : Keeps Q (dispatchEvent el type dt).
Proof. intros w. now apply page_keeps_of_sides. Qed.

Lemma Keeps_addPreventDefaultOnce (el : Element) (type : EventType) :
  Keeps Q (addPreventDefaultOnce el type).
Proof. intros w. now apply page_keeps_of_sides. Qed.

Lemma after_interval_keeps (checkInterval : Z) (w : World) :
  stays_in Q w (after_interval checkInterval w).
Proof.
  intros [Hd Hp]. unfold after_interval.
  match goal with
  | |- context [advance_through ?t ?ms ?w1] =>
      pose proof (advance_through_keeps t ms w1 Hd Hp) as H
  end.
  exact H.
Qed.

Lemma check_keeps (condition : World -> Result bool)
  (startTime timeout checkInterval : Z) (budget : nat) (first : bool) (w : World) :
  stays_in Q w (snd (check budget first condition startTime timeout checkInterval w)).
Proof.
  revert first w. induction budget as [| budget IH]; intros first w; simpl.
  - apply stays_in_refl.
  - destruct (condition w) as [[|] | e]; try apply stays_in_refl.
    + destruct (now w - startTime >=? timeout); [apply stays_in_refl |].
      eapply stays_in_trans; [apply after_interval_keeps | apply IH].
    + destruct first; apply stays_in_refl.
Qed.

Lemma Keeps_waitUntil (condition : World -> Result bool) (timeout checkInterval : Z) :
  Keeps Q (waitUntil condition timeout checkInterval).
Proof. intros w. apply check_keeps. Qed.

Lemma waitForElement_observe_keeps (selector : Selector) (timeout : Z)
  (observer : nat) (deadline : Z) (muts : list Mutation) (w : World) :
  Q (document w) ->
  Forall (fun m => Q (after m)) muts ->
  page_keeps Q (snd (waitForElement_observe selector timeout observer deadline muts w)).
Proof.
  intros Hd Hm. revert w Hd.
  induction Hm as [| m rest Hhead Hrest IH]; intros w Hd;
    cbn [waitForElement_observe].
  - split; [exact Hd | constructor].
  - destruct (stamp m <=? deadline); [| split; [exact Hd | now constructor]].
    assert (Hnext : page_keeps Q
                      (snd (waitForElement_observe selector timeout observer
                              deadline rest (apply_mutation m rest w))))
      by (apply IH; exact Hhead).
    destruct (observed m); [| exact Hnext].
    destruct (querySelector _ _) as [[element |] | e]; try exact Hnext.
    split; [exact Hhead | exact Hrest].
Qed.

Lemma Keeps_waitForElement (selector : Selector) (timeout : Z) :
  Keeps Q (waitForElement selector timeout).
Proof.
  intros w [Hd Hp]. unfold waitForElement.
  destruct (querySelector selector (document w)) as [[element |] | e];
    try (split; assumption).
  now apply waitForElement_observe_keeps.
Qed.

Lemma Keeps_uploadViaDragAndDrop (file : File) : Keeps Q (uploadViaDragAndDrop file).
Proof.
  exact (Respects_uploadViaDragAndDrop (stays_in Q) stays_in_refl stays_in_trans
           Keeps_dispatchEvent Keeps_addPreventDefaultOnce resumed_keeps Keeps_timer
           Keeps_waitForElement file).
Qed.

Lemma Keeps_clickSendButton : Keeps Q clickSendButton.
Proof.
  exact (Respects_clickSendButton (stays_in Q) stays_in_refl stays_in_trans
           Keeps_dispatchEvent resumed_keeps Keeps_waitUntil).
Qed.

End Keeping.

(** ** Observers leave the script's own effects alone *)

Section Observing.

Lemma try_catch_rethrows {A} (c : Async A) (w : World) :
  try_catch c (fun error => throw error) w = c w.
Proof. unfold try_catch, throw. now destruct (c w) as [[a | e | e |] w1]. Qed.

Lemma await_fst {A} (c : Async A) (w : World) : fst (await c w) = fst (c w).
Proof. unfold await. now destruct (c w) as [[a | e | e |] w1]. Qed.

Lemma await_sides {A} (c : Async A) (w : World) :
  script_side (snd (await c w)) = script_side (snd (c w))
  /\ now (snd (await c w)) = now (snd (c w)).
Proof.
  unfold await.
  destruct (c w) as [[a | e | e |] w1]; simpl; try (split; reflexivity);
    apply resumed_sides.
Qed.

Lemma await_run {A} (c : Async A) (w w1 : World) (a : A) :
  c w = (Fulfilled a, w1) -> await c w = (Fulfilled a, resumed w1).
Proof. intros H. unfold await. now rewrite H. Qed.

Lemma await_rejected {A} (c : Async A) (w w1 : World) (e : JsError) :
  c w = (Rejected e, w1) -> await c w = (Rejected e, resumed w1).
Proof. intros H. unfold await. now rewrite H. Qed.

Lemma waitForElement_observe_sides (selector : Selector) (timeout : Z)
  (observer : nat) (deadline : Z) (muts : list Mutation) (w : World) :
  script_side (snd (waitForElement_observe selector timeout observer deadline muts w))
  = script_side w
  /\ now w <= now (snd (waitForElement_observe selector timeout observer
                                               deadline muts w)).
Proof.
  revert w. induction muts as [| m rest IH]; intros w; cbn [waitForElement_observe].
  - split; [reflexivity | simpl; lia].
  - destruct (stamp m <=? deadline); [| split; [reflexivity | simpl; lia]].
    assert (Hnext : script_side (apply_mutation m rest w) = script_side w
                    /\ now w <= now (apply_mutation m rest w))
      by (split; [reflexivity | simpl; lia]).
    destruct Hnext as [Hs Hn].
    destruct (IH (apply_mutation m rest w)) as [IHs IHn].
    destruct (observed m).
    + destruct (querySelector _ _) as [[element |] | e].
      * split; [reflexivity | simpl; lia].
      * split; [congruence | lia].
      * split; [congruence | lia].
    + split; [congruence | lia].
Qed.

Lemma waitForElement_sides (selector : Selector) (timeout : Z) (w : World) :
  script_side (snd (waitForElement selector timeout w)) = script_side w
  /\ now w <= now (snd (waitForElement selector timeout w)).
Proof.
  unfold waitForElement.
  destruct (querySelector selector (document w)) as [[element |] | e];
    try (split; [reflexivity | simpl; lia]).
  destruct (waitForElement_observe_sides selector timeout (fresh w)
              (now w + timeout) (pending (subscribe (now w + timeout) w))
              (subscribe (now w + timeout) w)) as [Hs Hn].
  split; [exact Hs | exact Hn].
Qed.

Lemma find_matches {A} (f : A -> bool) (l : list A) (a : A) :
  find f l = Some a -> f a = true.
Proof. intros H. now apply find_some in H. Qed.

Lemma waitForElement_observe_found (alts : list SimpleSelector) (timeout : Z)
  (observer : nat) (deadline : Z) (muts : list Mutation) (w w' : World)
  (element : Element) :
  waitForElement_observe (Sel alts) timeout observer deadline muts w
  = (Fulfilled element, w') ->
  matches alts element = true.
Proof.
  revert w. induction muts as [| m rest IH]; intros w; cbn [waitForElement_observe].
  - discriminate.
  - destruct (stamp m <=? deadline); [| discriminate].
    destruct (observed m); [| apply IH].
    simpl querySelector.
    destruct (find (matches alts) _) as [found |] eqn:Hfind; [| apply IH].
    intros H. injection H as <- _. exact (find_matches _ _ _ Hfind).
Qed.

Lemma waitForElement_found (alts : list SimpleSelector) (timeout : Z)
  (w w' : World) (element : Element) :
  waitForElement (Sel alts) timeout w = (Fulfilled element, w') ->
  matches alts element = true.
Proof.
  unfold waitForElement. simpl querySelector.
  destruct (find (matches alts) (document w)) as [found |] eqn:Hfind.
  - intros H. injection H as <- _. exact (find_matches _ _ _ Hfind).
  - apply waitForElement_observe_found.
Qed.



Lemma waitForPreviewModal_sides (w : World) :
  script_side (snd (waitForPreviewModal w)) = script_side w.
Proof.
  unfold waitForPreviewModal, bind, ret.
  destruct (waitForElement_sides config.selectors.previewModal
              config.maxWaitTime.preview w) as [Hs _].
  destruct (await_sides (waitForElement config.selectors.previewModal
                                        config.maxWaitTime.preview) w) as [Ha _].
  rewrite <- Hs, <- Ha.
  now destruct (await _ w) as [[modal | e | e |] w1].
Qed.

(** STEP 2 never fails: it yields the refined target, or the zone it had. *)
Lemma refined_target_run (dropZone : Element) (w : World) :
  exists surface w',
    try_catch
      (dropTarget <- await (waitForElement config.selectors.dropTarget
                                           config.maxWaitTime.dropTarget) ;;
       ret dropTarget)
      (fun _ => ret dropZone) w
    = (Fulfilled surface, w')
    /\ script_side w' = script_side w
    /\ now w <= now w'
    /\ (surface = dropZone \/ matches [ByClass "DropTarget"] surface = true)
    /\ (forall Q, stays_in Q w w').
Proof.
  unfold try_catch, bind, ret.
  destruct (waitForElement_sides config.selectors.dropTarget
              config.maxWaitTime.dropTarget w) as [Hs Hn].
  pose proof (Settles_waitForElement config.selectors.dropTarget
                config.maxWaitTime.dropTarget w) as Hsettled.
  assert (Hkeeps : forall Q,
             stays_in Q w
               (resumed (snd (waitForElement config.selectors.dropTarget
                                             config.maxWaitTime.dropTarget w)))).
  { intros Q HQ. apply resumed_keeps. now apply Keeps_waitForElement. }
  destruct (waitForElement _ _ w) as [[element | e | e |] w1] eqn:Hrun;
    simpl in Hsettled; try contradiction.
  - rewrite (await_run _ _ _ _ Hrun).
    destruct (resumed_sides w1) as [Hrs Hrn]. simpl in Hs, Hn.
    exists element, (resumed w1).
    split; [reflexivity |]. split; [congruence |]. split; [lia |].
    split; [| exact Hkeeps].
    right. exact (waitForElement_found _ _ _ _ _ Hrun).
  - rewrite (await_rejected _ _ _ _ Hrun).
    destruct (resumed_sides w1) as [Hrs Hrn]. simpl in Hs, Hn.
    exists dropZone, (resumed w1).
    split; [reflexivity |]. split; [congruence |]. split; [lia |].
    split; [now left | exact Hkeeps].
Qed.

End Observing.

(** ** The drag-and-drop sequence *)

Section Sequence.

Lemma dispatchEvent_then (el : Element) (type : EventType) (dt : option DataTransfer)
  (w : World) :
  exists w' prevented,
    (forall B (k : Async B), (dispatchEvent el type dt ;;; k) w = k w')
    /\ dispatched w'
       = (dispatched w ++ [mkDispatch (node el) type dt prevented (now w)])%list
    /\ page_side w' = page_side w
    /\ href w' = href w.
Proof. unfold bind, dispatchEvent. eexists _, _. repeat split. Qed.

(** STEPS 3 to 5 on a given surface. *)
Lemma hover_drop_leave_then (surface : Element) (dt : DataTransfer) (w : World) :
  exists w' left,
    (forall B (k : Async B),
       (dragover_loop 3 0 surface dt ;;;
        addPreventDefaultOnce surface drop ;;;
        dispatchEvent surface drop (Some dt) ;;;
        dispatchEvent surface dragleave (Some dt) ;;;
        k) w = k w')
    /\ dispatched w'
       = (dispatched w
          ++ [mkDispatch (node surface) dragover (Some dt) true (now w);
              mkDispatch (node surface) dragover (Some dt) true
                         (now w + hover_interval);
              mkDispatch (node surface) dragover (Some dt) true
                         (now w + 2 * hover_interval);
              mkDispatch (node surface) drop (Some dt) true
                         (now w + 2 * hover_interval);
              mkDispatch (node surface) dragleave (Some dt) left
                         (now w + 2 * hover_interval)])%list
    /\ page_side w'
       = page_advance (now w + 2 * hover_interval) (pending w) (now w) (document w)
    /\ href w' = href w
    /\ (forall Q, stays_in Q w w').
Proof.
  destruct (dragover_loop_run surface dt w) as (w1 & Hrun1 & Hd1 & Hn1 & Hp1 & Hh1).
  destruct (prevented_dispatch_then surface drop (Some dt) w1)
    as (w2 & Hk2 & Hd2 & Hp2 & Hh2).
  destruct (dispatchEvent_then surface dragleave (Some dt) w2)
    as (w3 & left & Hk3 & Hd3 & Hp3 & Hh3).
  assert (Hkeeps : forall Q, stays_in Q w w3).
  { intros Q.
    eapply stays_in_trans;
      [exact (Respects_dragover_loop (stays_in Q) (stays_in_refl Q)
                (stays_in_trans Q) (Keeps_dispatchEvent Q)
                (Keeps_addPreventDefaultOnce Q) (resumed_keeps Q) (Keeps_timer Q)
                3%nat 0 surface dt w) |].
    rewrite Hrun1. cbn [snd].
    eapply stays_in_trans; [apply (page_keeps_of_sides Q _ _ Hp2) |].
    apply (page_keeps_of_sides Q _ _ Hp3). }
  exists w3, left. split; [| split; [| split; [| split; [| exact Hkeeps]]]].
  - intros B k. rewrite (bind_run _ _ _ _ _ Hrun1), Hk2, Hk3. reflexivity.
  - assert (Hn2 : now w2 = now w + 2 * hover_interval).
    { change (now w2) with (fst (fst (page_side w2))). rewrite Hp2. exact Hn1. }
    rewrite Hd3, Hd2, Hd1, Hn2, Hn1. repeat rewrite <- app_assoc. reflexivity.
  - rewrite Hp3, Hp2. exact Hp1.
  - congruence.
Qed.

Lemma dispatched_of_sides (w w' : World) :
  script_side w' = script_side w -> dispatched w' = dispatched w.
Proof. unfold script_side. intros H. now injection H. Qed.

Lemma await_preview_dispatched (w : World) :
  dispatched (snd ((await waitForPreviewModal ;;; ret true) w)) = dispatched w.
Proof.
  pose proof (dispatched_of_sides _ _ (waitForPreviewModal_sides w)) as Hd.
  destruct (await_sides waitForPreviewModal w) as [Ha _].
  apply dispatched_of_sides in Ha. rewrite <- Hd, <- Ha.
  unfold bind, ret. now destruct (await waitForPreviewModal w) as [[modal | e | e |] w1].
Qed.



(** The run from the located zone to the events of STEP 5. *)
Lemma drag_steps_run (file : File) (w : World) (zone : Element) :
  findDropZone w = (Fulfilled zone, w) ->
  exists surface entered left w2 w5,
    uploadViaDragAndDrop file w = (await waitForPreviewModal ;;; ret true) w5
    /\ dispatched w5
       = (dispatched w
          ++ drag_sequence (node zone) (node surface) (createDataTransfer file)
                           entered left (now w) (now w2))%list
    /\ now w <= now w2
    /\ (surface = zone \/ matches [ByClass "DropTarget"] surface = true)
    /\ (forall Q, stays_in Q w w5).
Proof.
  intros Hzone. unfold uploadViaDragAndDrop. rewrite try_catch_rethrows.
  rewrite (bind_run _ _ _ _ _ Hzone). cbv beta zeta.
  destruct (dispatchEvent_then zone dragenter (Some (createDataTransfer file)) w)
    as (w1 & entered & Hk1 & Hd1 & Hp1 & Hh1).
  rewrite Hk1.
  destruct (refined_target_run zone w1)
    as (surface & w2 & Hrun2 & Hs2 & Hn2 & Hsurface & Hkeeps2).
  rewrite (bind_run _ _ _ _ _ Hrun2).
  destruct (hover_drop_leave_then surface (createDataTransfer file) w2)
    as (w5 & left & Hk5 & Hd5 & Hp5 & Hh5 & Hkeeps5).
  rewrite Hk5.
  exists surface, entered, left, w2, w5.
  split; [reflexivity |]. split; [| split; [| split; [exact Hsurface |]]].
  - rewrite Hd5, (dispatched_of_sides _ _ Hs2), Hd1.
    unfold drag_sequence. rewrite <- app_assoc. reflexivity.
  - destruct (page_side_inv _ _ _ _ Hp1) as (Hn1 & _). lia.
  - intros Q. eapply stays_in_trans; [apply (page_keeps_of_sides Q _ _ Hp1) |].
    eapply stays_in_trans; [apply Hkeeps2 | apply Hkeeps5].
Qed.

(** C5. Once a drop zone is located the run dispatches exactly six drag
    events, in this order: one [dragenter] on the zone; three [dragover] on
    the surface (the refined target, or the zone itself), each with its
    default prevented and 50 ms after the one before; one [drop] with its
    default prevented; one [dragleave].  All six carry the same payload, and
    nothing else is dispatched by [uploadViaDragAndDrop]. *)
Theorem drag_events_in_order (file : File) (w : World) (zone : Element) :
  findDropZone w = (Fulfilled zone, w) ->
  exists surface entered left t,
    dispatched (snd (uploadViaDragAndDrop file w))
    = (dispatched w
       ++ drag_sequence (node zone) (node surface) (createDataTransfer file)
                        entered left (now w) t)%list
    /\ now w <= t
    /\ (surface = zone \/ matches [ByClass "DropTarget"] surface = true).
Proof.
  intros Hzone.
  destruct (drag_steps_run file w zone Hzone)
    as (surface & entered & left & w2 & w5 & Hrun & Hd & Hn & Hsurface & _).
  exists surface, entered, left, (now w2).
  rewrite Hrun, await_preview_dispatched. auto.
Qed.

Lemma drag_events_in_order_witness :
  exists surface entered left t,
    dispatched (snd (uploadViaDragAndDrop
                       (mkFile "cat.png" "image/png" 1000 []) Sample.cooperative))
    = (dispatched Sample.cooperative
       ++ drag_sequence (node Sample.composer) (node surface)
            (createDataTransfer (mkFile "cat.png" "image/png" 1000 []))
            entered left (now Sample.cooperative) t)%list
    /\ now Sample.cooperative <= t
    /\ (surface = Sample.composer \/ matches [ByClass "DropTarget"] surface = true).
Proof.
  apply (drag_events_in_order (mkFile "cat.png" "image/png" 1000 [])
                              Sample.cooperative Sample.composer).
  reflexivity.
Defined.

End Sequence.

(** ** A page without a refined drop target *)

Section Unrefined.

Variable file : File.
Variable w : World.
Variable zone : Element.

Hypothesis located : findDropZone w = (Fulfilled zone, w).
Hypothesis absent_now : find (matches [ByClass "DropTarget"]) (document w) = None.
Hypothesis absent_later :
  Forall (fun m => find (matches [ByClass "DropTarget"]) (after m) = None) (pending w).


End Unrefined.



(** ** What the events carry *)

Section Payload.

Lemma check_sides (condition : World -> Result bool)
  (startTime timeout checkInterval : Z) (budget : nat) (first : bool) (w : World) :
  script_side (snd (check budget first condition startTime timeout checkInterval w))
  = script_side w.
Proof.
  revert first w. induction budget as [| budget IH]; intros first w; simpl.
  - reflexivity.
  - destruct (condition w) as [[|] | e]; try reflexivity.
    + destruct (now w - startTime >=? timeout); [reflexivity |].
      rewrite IH. apply after_interval_sides.
    + now destruct first.
Qed.

Lemma waitUntil_dispatched (condition : World -> Result bool)
  (timeout checkInterval : Z) (w : World) :
  dispatched (snd (waitUntil condition timeout checkInterval w)) = dispatched w.
Proof. apply dispatched_of_sides. unfold waitUntil. apply check_sides. Qed.

Lemma snd_try_catch {A} (c : Async A) (handler : JsError -> Async A) (w : World) :
  (forall e w1, snd (handler e w1) = w1) ->
  snd (try_catch c handler w) = snd (c w).
Proof.
  intros Hh. unfold try_catch.
  destruct (c w) as [[a | e | e |] w1]; simpl; auto.
Qed.

Lemma snd_rewrap {A} (prefix : string) (c : Async A) (w : World) :
  snd (rewrap prefix c w) = snd (c w).
Proof. unfold rewrap. apply snd_try_catch. reflexivity. Qed.

Lemma await_dispatched {A} (c : Async A) (w : World) :
  dispatched (snd (await c w)) = dispatched (snd (c w)).
Proof. apply dispatched_of_sides. apply await_sides. Qed.

Lemma performClick_run (element : Element) (w : World) :
  exists w' new,
    performClick element w = (Fulfilled tt, w')
    /\ dispatched w' = (dispatched w ++ new)%list
    /\ Forall (fun ev => carried ev = None) new.
Proof.
  unfold performClick, focus_call.
  destruct (interface element);
    try (unfold try_catch, bind, dispatchEvent; simpl;
         eexists _, [_; _; _]; split; [reflexivity |]; split;
         [repeat rewrite <- app_assoc; reflexivity | repeat constructor]).
  exists w, []. split; [reflexivity |]. split; [now rewrite app_nil_r | constructor].
Qed.

Lemma clickSendButton_dispatches (w : World) :
  exists new,
    dispatched (snd (clickSendButton w)) = (dispatched w ++ new)%list
    /\ Forall (fun ev => carried ev = None) new.
Proof.
  unfold clickSendButton. rewrite snd_rewrap.
  pose proof (waitUntil_dispatched sendButtonAvailable config.maxWaitTime.sendButton
                default_checkInterval w) as Hwait.
  rewrite <- await_dispatched in Hwait.
  unfold bind at 1.
  destruct (await (waitUntil sendButtonAvailable _ _) w) as [[[] | e | e |] w1];
    simpl in Hwait;
    try (exists []; rewrite app_nil_r; split; [exact Hwait | constructor]).
  unfold bind at 1, on_document. simpl querySelectorAll. cbv iota.
  unfold bind at 1, sync.
  destruct (locateSendButton _) as [[sendButton |] | e];
    try (exists []; rewrite app_nil_r; split; [exact Hwait | constructor]).
  destruct (performClick_run sendButton w1) as (w2 & new & Hrun & Hd & Hnew).
  rewrite (bind_run _ _ _ _ _ Hrun). exists new. split; [| exact Hnew].
  rewrite snd_try_catch by reflexivity.
  rewrite await_dispatched, waitUntil_dispatched, Hd, Hwait. reflexivity.
Qed.

Lemma or_else_falsy (s : option string) (default : string) :
  falsy s -> Js.or_else s default = default.
Proof. intros [-> | ->]; reflexivity. Qed.

Lemma or_else_given (s default : string) :
  s <> "" -> Js.or_else (Some s) default = s.
Proof. destruct s; [congruence | reflexivity]. Qed.

(** What an upload dispatches once its zone is located: the six drag
    events with the file made from the request, then events without
    payload. *)
Lemma upload_dispatched (d : UploadData) (buffer : list Byte.byte) (w : World)
  (zone : Element) :
  arrayBuffer d = Some buffer ->
  findDropZone w = (Fulfilled zone, w) ->
  exists surface entered left t more,
    dispatched (snd (uploadPhoto (Some d) w))
    = (dispatched w
       ++ drag_sequence (node zone) (node surface)
            (createDataTransfer
               (mkFile (Js.or_else (filename d) "image.png")
                       (Js.blobType (Js.or_else (mimeType d) "image/png"))
                       (now w) buffer))
            entered left (now w) t
       ++ more)%list
    /\ Forall (fun ev => carried ev = None) more.
Proof.
  intros Hbuffer Hzone.
  set (file := mkFile (Js.or_else (filename d) "image.png")
                      (Js.blobType (Js.or_else (mimeType d) "image/png"))
                      (now w) buffer).
  unfold uploadPhoto. cbv zeta. rewrite snd_try_catch by reflexivity.
  rewrite Hbuffer.
  unfold bind at 1. unfold arrayBufferToFile, rewrap, try_catch. fold file.
  destruct (drag_steps_run file w zone Hzone)
    as (surface & entered & left & w2 & w5 & Hrun & Hd & _).
  pose proof (await_preview_dispatched w5) as Hd6.
  rewrite <- Hrun, <- await_dispatched in Hd6.
  exists surface, entered, left, (now w2).
  unfold bind at 1.
  destruct (await (uploadViaDragAndDrop file) w) as [[ok | e | e |] w6];
    simpl in Hd6;
    try (exists []; rewrite app_nil_r; split; [| constructor];
         simpl; now rewrite Hd6, Hd).
  destruct (clickSendButton_dispatches w6) as (more & Hd7 & Hmore).
  rewrite <- await_dispatched in Hd7.
  exists more. split; [| exact Hmore].
  unfold bind.
  destruct (await clickSendButton w6) as [[[] | e | e |] w7]; simpl in Hd7 |- *;
    now rewrite Hd7, Hd6, Hd, <- app_assoc.
Qed.

(** C9. With an [arrayBuffer] present, [uploadPhoto] builds its file from
    [data.filename || 'image.png'] and [data.mimeType || 'image/png']: a
    missing or empty filename gives the name ["image.png"], a missing or
    empty MIME type gives the type ["image/png"]; a filename that is given
    is kept, a MIME type that is given is kept as a [File] normalises it.
    The file holds the bytes of the request and is stamped with the time of
    the call.  It is not an error to leave the two out: once a drop zone is
    located, the six drag events are dispatched and carry a [DataTransfer]
    holding exactly that file, whatever the run dispatches after them
    carries nothing, and the run is the very run of a request that spells
    the defaults out. *)
Theorem missing_metadata_gets_defaults (d : UploadData) (buffer : list Byte.byte)
  (w : World) (zone : Element) :
  arrayBuffer d = Some buffer ->
  findDropZone w = (Fulfilled zone, w) ->
  exists name type surface entered left t more,
    (falsy (filename d) -> name = "image.png")
    /\ (falsy (mimeType d) -> type = "image/png")
    /\ (forall s, filename d = Some s -> s <> "" -> name = s)
    /\ (forall s, mimeType d = Some s -> s <> "" -> type = Js.blobType s)
    /\ dispatched (snd (uploadPhoto (Some d) w))
       = (dispatched w
          ++ drag_sequence (node zone) (node surface)
               (mkDataTransfer [mkFile name type (now w) buffer] "all" "copy")
               entered left (now w) t
          ++ more)%list
    /\ Forall (fun ev => carried ev = None) more
    /\ (falsy (filename d) -> falsy (mimeType d) ->
        uploadPhoto (Some d) w
        = uploadPhoto (Some (mkUploadData (Some buffer) (Some "image.png")
                                          (Some "image/png"))) w).
Proof.
  intros Hbuffer Hzone.
  destruct (upload_dispatched d buffer w zone Hbuffer Hzone)
    as (surface & entered & left & t & more & Hd & Hmore).
  exists (Js.or_else (filename d) "image.png"),
         (Js.blobType (Js.or_else (mimeType d) "image/png")),
         surface, entered, left, t, more.
  split; [| split; [| split; [| split; [| split; [| split]]]]].
  - intros Hf. now apply or_else_falsy.
  - intros Hf. now rewrite (or_else_falsy _ _ Hf).
  - intros s Hs Hne. rewrite Hs. now apply or_else_given.
  - intros s Hs Hne. rewrite Hs. now rewrite (or_else_given _ _ Hne).
  - exact Hd.
  - exact Hmore.
  - intros Hname Htype. unfold uploadPhoto. rewrite Hbuffer.
    cbn [arrayBuffer filename mimeType].
    now rewrite (or_else_falsy _ _ Hname), (or_else_falsy _ _ Htype).
Qed.

Lemma missing_metadata_gets_defaults_witness :
  exists name type surface entered left t more,
    (falsy (filename Sample.anonymous_photo) -> name = "image.png")
    /\ (falsy (mimeType Sample.anonymous_photo) -> type = "image/png")
    /\ (forall s, filename Sample.anonymous_photo = Some s -> s <> "" -> name = s)
    /\ (forall s, mimeType Sample.anonymous_photo = Some s -> s <> "" ->
                  type = Js.blobType s)
    /\ dispatched (snd (uploadPhoto (Some Sample.anonymous_photo) Sample.cooperative))
       = (dispatched Sample.cooperative
          ++ drag_sequence (node Sample.composer) (node surface)
               (mkDataTransfer
                  [mkFile name type (now Sample.cooperative) [Byte.x89; Byte.x50]]
                  "all" "copy")
               entered left (now Sample.cooperative) t
          ++ more)%list
    /\ Forall (fun ev => carried ev = None) more
    /\ (falsy (filename Sample.anonymous_photo) ->
        falsy (mimeType Sample.anonymous_photo) ->
        uploadPhoto (Some Sample.anonymous_photo) Sample.cooperative
        = uploadPhoto (Some (mkUploadData (Some [Byte.x89; Byte.x50])
                                          (Some "image.png") (Some "image/png")))
                      Sample.cooperative).
Proof.
  apply (missing_metadata_gets_defaults Sample.anonymous_photo [Byte.x89; Byte.x50]
                                        Sample.cooperative Sample.composer).
  - reflexivity.
  - reflexivity.
Defined.

Example anonymous_photo_is_dropped :
  nth_error (dispatched (snd (uploadPhoto (Some Sample.anonymous_photo)
                                          Sample.cooperative))) 4
  = Some (mkDispatch 3 drop
            (Some (mkDataTransfer [mkFile "image.png" "image/png" 1000
                                          [Byte.x89; Byte.x50]] "all" "copy"))
            true 1110)
  /\ Js.blobType "Image/PNG" = "image/png".
Proof. split; vm_compute; reflexivity. Qed.

End Payload.

(** ** Observers and their safety timers *)

Section Handles.

Variable observer : nat.

Lemma stale_callbacks_of_others (timers : list (Z * nat)) :
  Forall (fun a => snd a <> observer) timers ->
  filter (about observer) (flat_map stale_callback timers) = [].
Proof.
  induction 1 as [| a timers Ha _ IH]; simpl; [reflexivity |].
  apply Nat.eqb_neq in Ha.
  replace (about observer (TimerFired (snd a))) with false
    by (symmetry; exact Ha).
  replace (about observer (Disconnect (snd a))) with false
    by (symmetry; exact Ha).
  exact IH.
Qed.

Lemma Forall_filter {A} (P : A -> Prop) (f : A -> bool) (l : list A) :
  Forall P l -> Forall P (filter f l).
Proof.
  induction 1 as [| a l Ha _ IH]; simpl; [constructor |].
  destruct (f a); [constructor |]; assumption.
Qed.

Lemma fire_due_handles (w : World) :
  unarmed observer w ->
  filter (about observer) (handles (fire_due w)) = filter (about observer) (handles w)
  /\ unarmed observer (fire_due w).
Proof.
  intros Hun. unfold fire_due, unarmed. simpl. split.
  - rewrite filter_app, stale_callbacks_of_others, app_nil_r; [reflexivity |].
    now apply Forall_filter.
  - now apply Forall_filter.
Qed.

Lemma apply_mutation_handles (m : Mutation) (rest : list Mutation) (w : World) :
  unarmed observer w ->
  filter (about observer) (handles (apply_mutation m rest w))
  = filter (about observer) (handles w)
  /\ unarmed observer (apply_mutation m rest w).
Proof.
  intros Hun.
  exact (fire_due_handles (with_clock (Z.max (now w) (stamp m)) (after m) rest w) Hun).
Qed.

Lemma idle_until_handles (t : Z) (muts : list Mutation) (w : World) :
  unarmed observer w ->
  filter (about observer) (handles (idle_until t muts w))
  = filter (about observer) (handles w)
  /\ unarmed observer (idle_until t muts w).
Proof.
  intros Hun.
  exact (fire_due_handles (with_clock (Z.max (now w) t) (document w) muts w) Hun).
Qed.

Lemma about_self_disconnect : about observer (Disconnect observer) = true.
Proof. unfold about. simpl. apply Nat.eqb_refl. Qed.

Lemma about_self_fired : about observer (TimerFired observer) = true.
Proof. unfold about. simpl. apply Nat.eqb_refl. Qed.

Lemma callback_settles_once {A} (deadline : Z) (w w1 : World) (a : A) :
  unarmed observer w1 ->
  filter (about observer) (handles w1) = filter (about observer) (handles w) ->
  settled_once observer deadline w (Fulfilled a, settle_from_callback observer deadline w1).
Proof.
  intros Hun Hh. unfold settled_once, settled_by_callback. simpl. split.
  - rewrite filter_app, Hh. simpl. now rewrite about_self_disconnect.
  - exists (armed w1). split; [reflexivity | exact Hun].
Qed.

Lemma timer_settles_once {A} (deadline : Z) (muts : list Mutation) (w w1 : World)
  (e : JsError) :
  unarmed observer w1 ->
  filter (about observer) (handles w1) = filter (about observer) (handles w) ->
  @settled_once A observer deadline w
    (Rejected e, settle_from_timer observer (idle_until deadline muts w1)).
Proof.
  intros Hun Hh. unfold settled_once, settled_by_timer.
  destruct (idle_until_handles deadline muts w1 Hun) as [Hh' Hun'].
  cbn [fst snd]. split.
  - unfold settle_from_timer. cbn [handles with_handles].
    rewrite filter_app, Hh', Hh. simpl.
    now rewrite about_self_fired, about_self_disconnect.
  - exact Hun'.
Qed.

Lemma waitForElement_observe_once (selector : Selector) (timeout deadline : Z)
  (muts : list Mutation) (w0 w : World) :
  unarmed observer w ->
  filter (about observer) (handles w) = filter (about observer) (handles w0) ->
  settled_once observer deadline w0
    (waitForElement_observe selector timeout observer deadline muts w).
Proof.
  revert w. induction muts as [| m rest IH]; intros w Hun Hh;
    cbn [waitForElement_observe].
  - now apply timer_settles_once.
  - destruct (stamp m <=? deadline); [| now apply timer_settles_once].
    destruct (apply_mutation_handles m rest w Hun) as [Hh1 Hun1].
    assert (Hnext : settled_once observer deadline w0
                      (waitForElement_observe selector timeout observer deadline
                         rest (apply_mutation m rest w)))
      by (apply IH; [exact Hun1 | congruence]).
    destruct (observed m); [| exact Hnext].
    destruct (querySelector _ _) as [[element |] | e]; try exact Hnext.
    apply callback_settles_once; [exact Hun1 | congruence].
Qed.

Lemma waitForClass_observe_once (className' : string) (timeout deadline : Z)
  (muts : list Mutation) (w0 : World) (element : Element) (w : World) :
  unarmed observer w ->
  filter (about observer) (handles w) = filter (about observer) (handles w0) ->
  settled_once observer deadline w0
    (waitForClass_observe element className' timeout observer deadline muts w).
Proof.
  revert element w. induction muts as [| m rest IH]; intros element w Hun Hh;
    cbn [waitForClass_observe].
  - now apply timer_settles_once.
  - destruct (stamp m <=? deadline); [| now apply timer_settles_once].
    destruct (apply_mutation_handles m rest w Hun) as [Hh1 Hun1].
    cbv zeta.
    destruct (String.eqb _ _); [apply IH; [exact Hun1 | congruence] |].
    destruct (classList_contains _ _).
    + apply callback_settles_once; [exact Hun1 | congruence].
    + apply IH; [exact Hun1 | congruence].
Qed.

End Handles.

Section Lifecycle.

Lemma nothing_about_fresh (w : World) :
  handles_numbered w ->
  filter (about (fresh w)) (handles w) = [] /\ unarmed (fresh w) w.
Proof.
  intros [Hh Ha]. split.
  - induction Hh as [| op ops Hop _ IH]; simpl; [reflexivity |].
    unfold about at 1. replace (handle_of op =? fresh w)%nat with false; [exact IH |].
    symmetry. apply Nat.eqb_neq. lia.
  - unfold unarmed. eapply Forall_impl; [| exact Ha]. simpl. intros a Hlt. lia.
Qed.

Lemma subscribe_history (w : World) (deadline : Z) :
  handles_numbered w ->
  filter (about (fresh w)) (handles (subscribe deadline w))
  = [Observe (fresh w); TimerSet (fresh w) deadline]
  /\ unarmed (fresh w) (subscribe deadline w).
Proof.
  intros Hnum. destruct (nothing_about_fresh w Hnum) as [Hnone Hun].
  unfold subscribe. simpl. split; [| exact Hun].
  rewrite filter_app, Hnone. simpl. unfold about. simpl.
  now rewrite Nat.eqb_refl.
Qed.

Lemma late_timer_disconnects_again (observer : nat) (deadline t : Z)
  (others : list (Z * nat)) (w' : World) :
  armed w' = (others ++ [(deadline, observer)])%list ->
  Forall (fun a => snd a <> observer) others ->
  deadline <= t ->
  filter (about observer) (handles (idle_until t (pending w') w'))
  = (filter (about observer) (handles w')
     ++ [TimerFired observer; Disconnect observer])%list.
Proof.
  intros Harmed Hothers Hle. unfold idle_until, fire_due. simpl.
  rewrite Harmed, filter_app, filter_app, flat_map_app, filter_app.
  rewrite (stale_callbacks_of_others observer) by now apply Forall_filter.
  simpl. unfold is_due at 1. simpl.
  replace (deadline <=? Z.max (now w') t) with true
    by (symmetry; apply Z.leb_le; lia).
  simpl. now rewrite about_self_fired, about_self_disconnect.
Qed.

Lemma lifecycle_of_settled_once {A} (w : World) (timeout : Z)
  (run : Completion A * World) :
  handles_numbered w ->
  settled_once (fresh w) (now w + timeout) (subscribe (now w + timeout) w) run ->
  observer_lifecycle w timeout run.
Proof.
  intros Hnum Hrun.
  destruct (subscribe_history w (now w + timeout) Hnum) as [Hstart _].
  unfold observer_lifecycle, settled_once, settled_by_callback, settled_by_timer in *.
  destruct run as [[a | e | e |] w']; cbn [fst snd] in *; try contradiction.
  - destruct Hrun as [Hh (others & Harmed & Hothers)].
    rewrite Hstart in Hh. split; [exact Hh |]. split.
    + rewrite Harmed. apply in_or_app. right. now left.
    + intros t Ht.
      rewrite (late_timer_disconnects_again _ _ _ _ _ Harmed Hothers Ht), Hh.
      reflexivity.
  - destruct Hrun as [Hh Hun]. rewrite Hstart in Hh. split; assumption.
Qed.

End Lifecycle.

(** C3, as the code has it.  A wait whose predicate already holds (or whose
    selector is malformed, the only way its check can throw) returns at once
    and acquires nothing.  A wait that has to subscribe creates one observer
    and one safety timer, and when its promise settles the observer has been
    disconnected exactly once: by the callback on success, by the timer on
    timeout.  No timer is ever cancelled: on timeout the timer is used up,
    on success it stays scheduled and, once its deadline has passed, fires
    and disconnects the observer a second time. *)
Theorem observer_released_timer_kept (w : World) (timeout : Z) :
  handles_numbered w ->
  (forall selector,
     match querySelector selector (document w) with
     | Ok None => observer_lifecycle w timeout (waitForElement selector timeout w)
     | _ => snd (waitForElement selector timeout w) = w
     end)
  /\ (forall element className',
        if classList_contains element className'
        then waitForClass element className' timeout w = (Fulfilled tt, w)
        else observer_lifecycle w timeout
               (waitForClass element className' timeout w)).
Proof.
  intros Hnum.
  destruct (subscribe_history w (now w + timeout) Hnum) as [_ Hun].
  split.
  - intros selector. unfold waitForElement.
    destruct (querySelector selector (document w)) as [[element |] | e];
      try reflexivity.
    apply lifecycle_of_settled_once; [exact Hnum |].
    apply waitForElement_observe_once; [exact Hun | reflexivity].
  - intros element className'. unfold waitForClass.
    destruct (classList_contains element className'); [reflexivity |].
    apply lifecycle_of_settled_once; [exact Hnum |].
    apply waitForClass_observe_once; [exact Hun | reflexivity].
Qed.

Lemma observer_released_timer_kept_witness :
  (forall selector,
     match querySelector selector (document Sample.cooperative) with
     | Ok None => observer_lifecycle Sample.cooperative 3000
                    (waitForElement selector 3000 Sample.cooperative)
     | _ => snd (waitForElement selector 3000 Sample.cooperative) = Sample.cooperative
     end)
  /\ (forall element className',
        if classList_contains element className'
        then waitForClass element className' 3000 Sample.cooperative
             = (Fulfilled tt, Sample.cooperative)
        else observer_lifecycle Sample.cooperative 3000
               (waitForClass element className' 3000 Sample.cooperative)).
Proof.
  apply (observer_released_timer_kept Sample.cooperative 3000).
  split; constructor.
Defined.

(** C3 as stated fails.  The refined target shows up 10 ms after the wait
    began: the wait succeeds, its safety timer stays scheduled for 4000, and
    by 5000 the observer has been disconnected twice. *)
Lemma successful_wait_leaves_its_timer :
  let w' := snd (waitForElement config.selectors.dropTarget 3000 Sample.cooperative) in
  ~ (armed w' = []
     /\ List.length (filter (is_disconnect 0)
                       (handles (idle_until 5000 (pending w') w'))) = 1%nat).
Proof. intros w' [Harmed _]. vm_compute in Harmed. discriminate Harmed. Qed.

Example successful_wait_in_numbers :
  let w' := snd (waitForElement config.selectors.dropTarget 3000 Sample.cooperative) in
  fst (waitForElement config.selectors.dropTarget 3000 Sample.cooperative)
  = Fulfilled Sample.dropTarget
  /\ now w' = 1010
  /\ armed w' = [(4000, 0%nat)]
  /\ filter (is_disconnect 0) (handles (idle_until 5000 (pending w') w'))
     = [Disconnect 0; Disconnect 0].
Proof. repeat split; vm_compute; reflexivity. Qed.

Example timed_out_wait_in_numbers :
  fst (waitForElement config.selectors.dropTarget 3000 Sample.unrefined)
  = Rejected (Error "Element not found: .DropTarget (timeout after 3000ms)")
  /\ handles (snd (waitForElement config.selectors.dropTarget 3000 Sample.unrefined))
     = [Observe 0; TimerSet 0 4000; TimerFired 0; Disconnect 0].
Proof. split; vm_compute; reflexivity. Qed.

(** * Further properties of the content script *)

(** ** [waitUntil]: what its outcome says *)

Section Polling.

Variable condition : World -> Result bool.
Variables startTime timeout checkInterval : Z.

Lemma check_outcome (budget : nat) (first : bool) (w : World) :
  match check budget first condition startTime timeout checkInterval w with
  | (Fulfilled _, w') => condition w' = Ok true
  | (Rejected e, w') =>
      (first = true /\ w' = w /\ condition w = Throw e)
      \/ (e = timeoutError timeout /\ condition w' = Ok false
          /\ timeout <= now w' - startTime)
  | (Unsettled e, w') => condition w' = Throw e
  | (Spinning, _) => True
  end.
Proof.
  revert first w. induction budget as [| budget IH]; intros first w; simpl.
  - exact I.
  - destruct (condition w) as [[|] | e] eqn:Hc.
    + exact Hc.
    + destruct (now w - startTime >=? timeout) eqn:Hout.
      * right. rewrite Z.geb_leb in Hout. apply Z.leb_le in Hout. auto.
      * specialize (IH false (after_interval checkInterval w)).
        destruct (check budget false _ _ _ _ _) as [[[] | e | e |] w'];
          try exact IH.
        destruct IH as [(Hfirst & _) | IH]; [discriminate | now right].
    + destruct first; [left; auto | exact Hc].
Qed.

Lemma check_elapsed (budget : nat) (first : bool) (w : World) :
  0 < checkInterval ->
  startTime <= now w ->
  now w - startTime < timeout + checkInterval ->
  now w <= now (snd (check budget first condition startTime timeout checkInterval w))
  /\ now (snd (check budget first condition startTime timeout checkInterval w))
       - startTime < timeout + checkInterval.
Proof.
  intros Hpos. revert first w.
  induction budget as [| budget IH]; intros first w Hstart Hin; simpl.
  - lia.
  - destruct (condition w) as [[|] | e]; simpl; try lia.
    + destruct (now w - startTime >=? timeout) eqn:Hout; simpl; [lia |].
      rewrite Z.geb_leb in Hout. apply Z.leb_gt in Hout.
      pose proof (now_after_interval checkInterval w ltac:(lia)) as Hn.
      destruct (IH false (after_interval checkInterval w)) as [Hge Hlt]; lia.
    + destruct first; simpl; lia.
Qed.

End Polling.

Lemma waitUntil_post (condition : World -> Result bool)
  (timeout checkInterval : Z) (w : World) :
  match waitUntil condition timeout checkInterval w with
  | (Fulfilled _, w') => condition w' = Ok true
  | (Rejected e, w') =>
      (w' = w /\ condition w = Throw e)
      \/ (e = timeoutError timeout /\ condition w' = Ok false
          /\ timeout <= now w' - now w)
  | (Unsettled e, w') => condition w' = Throw e
  | (Spinning, _) => True
  end.
Proof.
  unfold waitUntil.
  pose proof (check_outcome condition (now w) timeout checkInterval
                (poll_budget timeout checkInterval) true w) as H.
  destruct (check _ true _ _ _ _ w) as [[[] | e | e |] w']; try exact H.
  destruct H as [(_ & Hw & Hc) | H]; [left; auto | now right].
Qed.

Lemma waitUntil_clock (condition : World -> Result bool)
  (timeout checkInterval : Z) (w : World) :
  0 < checkInterval ->
  0 <= timeout ->
  now w <= now (snd (waitUntil condition timeout checkInterval w))
          < now w + timeout + checkInterval.
Proof.
  intros Hpos Htimeout. unfold waitUntil.
  destruct (check_elapsed condition (now w) timeout checkInterval
              (poll_budget timeout checkInterval) true w Hpos) as [Hge Hlt]; lia.
Qed.

(** X1. The outcome of [waitUntil] tells how the condition stands in the
    world it ends in: fulfilled, the condition holds there; rejected, either
    the condition threw at the call (and nothing happened), or it is false
    there and at least [timeout] ms have passed; left pending, the condition
    threw there. *)
Theorem waitUntil_outcome (condition : World -> Result bool)
  (timeout checkInterval : Z) (w w' : World) (r : Completion unit) :
  waitUntil condition timeout checkInterval w = (r, w') ->
  match r with
  | Fulfilled _ => condition w' = Ok true
  | Rejected e =>
      (w' = w /\ condition w = Throw e)
      \/ (e = timeoutError timeout /\ condition w' = Ok false
          /\ timeout <= now w' - now w)
  | Unsettled e => condition w' = Throw e
  | Spinning => True
  end.
Proof.
  intros Hrun.
  pose proof (waitUntil_post condition timeout checkInterval w) as H.
  rewrite Hrun in H. destruct r as [[] | e | e |]; exact H.
Qed.

Lemma waitUntil_outcome_witness :
  sendButtonAvailable
    (snd (waitUntil sendButtonAvailable 5000 100
            (Sample.idle Sample.telegram [Sample.chat]
               [mkMutation 1250 [Sample.chat; Sample.primary] true])))
  = Ok true.
Proof.
  apply (waitUntil_outcome sendButtonAvailable 5000 100
           (Sample.idle Sample.telegram [Sample.chat]
              [mkMutation 1250 [Sample.chat; Sample.primary] true])
           _ (Fulfilled tt)).
  vm_compute. reflexivity.
Defined.

(** X2. Whatever the condition does, a [waitUntil] with a positive interval
    and a timeout that is not negative ends less than [timeout +
    checkInterval] ms after it began, and never before it began; and the
    waiting itself dispatches no event and installs no listener. *)
Theorem waitUntil_elapsed (condition : World -> Result bool)
  (timeout checkInterval : Z) (w : World) :
  0 < checkInterval ->
  0 <= timeout ->
  now w <= now (snd (waitUntil condition timeout checkInterval w))
  /\ now (snd (waitUntil condition timeout checkInterval w))
     < now w + timeout + checkInterval
  /\ script_side (snd (waitUntil condition timeout checkInterval w)) = script_side w.
Proof.
  intros Hpos Htimeout.
  pose proof (waitUntil_clock condition timeout checkInterval w Hpos Htimeout) as Hc.
  repeat split; try lia.
  unfold waitUntil. apply check_sides.
Qed.

Lemma waitUntil_elapsed_witness :
  now Sample.cooperative
  <= now (snd (waitUntil sendButtonAvailable 5000 100 Sample.cooperative))
  /\ now (snd (waitUntil sendButtonAvailable 5000 100 Sample.cooperative))
     < now Sample.cooperative + 5000 + 100
  /\ script_side (snd (waitUntil sendButtonAvailable 5000 100 Sample.cooperative))
     = script_side Sample.cooperative.
Proof.
  apply (waitUntil_elapsed sendButtonAvailable 5000 100 Sample.cooperative); lia.
Defined.

(** X3. A condition that is false whenever it is asked makes [waitUntil]
    reject with the timeout error, no sooner than [timeout] ms and less than
    one interval later, without the script dispatching anything. *)
Theorem waitUntil_times_out (condition : World -> Result bool)
  (timeout checkInterval : Z) (w : World) :
  (forall w1, condition w1 = Ok false) ->
  0 < checkInterval ->
  0 <= timeout ->
  fst (waitUntil condition timeout checkInterval w) = Rejected (timeoutError timeout)
  /\ now w + timeout <= now (snd (waitUntil condition timeout checkInterval w))
  /\ now (snd (waitUntil condition timeout checkInterval w))
     < now w + timeout + checkInterval
  /\ dispatched (snd (waitUntil condition timeout checkInterval w)) = dispatched w.
Proof.
  intros Hfalse Hpos Htimeout.
  assert (Htotal : total_condition condition) by (intros w1; eauto).
  pose proof (Settles_waitUntil condition timeout checkInterval Htotal Hpos w) as Hs.
  destruct (waitUntil_clock condition timeout checkInterval w Hpos Htimeout)
    as [_ Hlt].
  pose proof (waitUntil_dispatched condition timeout checkInterval w) as Hd.
  pose proof (waitUntil_post condition timeout checkInterval w) as Hout.
  destruct (waitUntil condition timeout checkInterval w) as [r w'].
  simpl in *. destruct r as [[] | e | e |]; try contradiction.
  - rewrite Hfalse in Hout. discriminate.
  - destruct Hout as [(_ & Hc) | (-> & _ & Hge)].
    + rewrite Hfalse in Hc. discriminate.
    + repeat split; try assumption. lia.
Qed.

Lemma waitUntil_times_out_witness :
  fst (waitUntil (fun _ => Ok false) 2000 100 Sample.cooperative)
  = Rejected (timeoutError 2000)
  /\ now Sample.cooperative + 2000
     <= now (snd (waitUntil (fun _ => Ok false) 2000 100 Sample.cooperative))
  /\ now (snd (waitUntil (fun _ => Ok false) 2000 100 Sample.cooperative))
     < now Sample.cooperative + 2000 + 100
  /\ dispatched (snd (waitUntil (fun _ => Ok false) 2000 100 Sample.cooperative))
     = dispatched Sample.cooperative.
Proof.
  apply (waitUntil_times_out (fun _ => Ok false) 2000 100 Sample.cooperative).
  - reflexivity.
  - lia.
  - lia.
Defined.

(** ** [waitForElement] and [waitForClass]: what they return and when *)

Section Appearing.

Lemma waitForElement_observe_first_match (alts : list SimpleSelector) (timeout : Z)
  (observer : nat) (deadline : Z) (muts : list Mutation) (w w' : World)
  (element : Element) :
  waitForElement_observe (Sel alts) timeout observer deadline muts w
  = (Fulfilled element, w') ->
  find (matches alts) (document w') = Some element.
Proof.
  revert w. induction muts as [| m rest IH]; intros w; cbn [waitForElement_observe].
  - discriminate.
  - destruct (stamp m <=? deadline); [| discriminate].
    destruct (observed m); [| apply IH].
    simpl querySelector.
    destruct (find (matches alts) (after m)) as [found |] eqn:Hfind; [| apply IH].
    intros H. injection H as <- <-. exact Hfind.
Qed.

Lemma waitForElement_observe_clock (selector : Selector) (timeout : Z)
  (observer : nat) (deadline : Z) (muts : list Mutation) (w : World) :
  now w <= deadline ->
  match waitForElement_observe selector timeout observer deadline muts w with
  | (Fulfilled _, w') => now w <= now w' <= deadline
  | (Rejected e, w') => e = elementTimeout selector timeout /\ now w' = deadline
  | _ => False
  end.
Proof.
  revert w. induction muts as [| m rest IH]; intros w Hle;
    cbn [waitForElement_observe].
  - split; [reflexivity | simpl; lia].
  - destruct (stamp m <=? deadline) eqn:Hstamp;
      [| split; [reflexivity | simpl; lia]].
    apply Z.leb_le in Hstamp.
    assert (Hnext : now w <= now (apply_mutation m rest w) <= deadline)
      by (simpl; lia).
    specialize (IH (apply_mutation m rest w) (proj2 Hnext)).
    assert (Hrec :
              match waitForElement_observe selector timeout observer deadline rest
                      (apply_mutation m rest w) with
              | (Fulfilled _, w') => now w <= now w' <= deadline
              | (Rejected e, w') =>
                  e = elementTimeout selector timeout /\ now w' = deadline
              | _ => False
              end).
    { destruct (waitForElement_observe _ _ _ _ rest _) as [[a | e | e |] w'];
        try exact IH. lia. }
    destruct (observed m); [| exact Hrec].
    destruct (querySelector _ _) as [[element |] | e]; try exact Hrec.
    simpl. lia.
Qed.

(** All that an unobserved batch does is change the page. *)
Lemma waitForElement_observe_unobserved (alts : list SimpleSelector) (timeout : Z)
  (observer : nat) (deadline : Z) (muts : list Mutation) (w : World) :
  Forall (fun m => observed m = false) muts ->
  fst (waitForElement_observe (Sel alts) timeout observer deadline muts w)
  = Rejected (elementTimeout (Sel alts) timeout).
Proof.
  intros Hquiet. revert w.
  induction Hquiet as [| m rest Hm _ IH]; intros w; cbn [waitForElement_observe].
  - reflexivity.
  - destruct (stamp m <=? deadline); [| reflexivity].
    rewrite Hm. apply IH.
Qed.

Lemma refreshed_in_document (element : Element) (d : Document) :
  className (refreshed element d) <> className element ->
  In (refreshed element d) d /\ node (refreshed element d) = node element.
Proof.
  unfold refreshed.
  destruct (find _ d) as [e |] eqn:Hfind; [| congruence].
  intros _. apply find_some in Hfind. destruct Hfind as [Hin Hnode].
  split; [exact Hin |]. now apply Nat.eqb_eq in Hnode.
Qed.

Lemma waitForClass_observe_found (className' : string) (timeout : Z)
  (observer : nat) (deadline : Z) (muts : list Mutation) (element : Element)
  (w w' : World) :
  waitForClass_observe element className' timeout observer deadline muts w
  = (Fulfilled tt, w') ->
  exists e, In e (document w') /\ node e = node element
            /\ classList_contains e className' = true.
Proof.
  revert element w. induction muts as [| m rest IH]; intros element w;
    cbn [waitForClass_observe].
  - discriminate.
  - destruct (stamp m <=? deadline); [| discriminate]. cbv zeta.
    destruct (String.eqb_spec
                (className (refreshed element (document (apply_mutation m rest w))))
                (className element)) as [Heq | Hne].
    + apply IH.
    + destruct (refreshed_in_document element _ Hne) as [Hin Hnode].
      destruct (classList_contains _ className') eqn:Hcls.
      * intros H. injection H as <-.
        eexists. split; [exact Hin |]. split; [exact Hnode | exact Hcls].
      * intros H. destruct (IH _ _ H) as (e & He & Hn & Hc).
        exists e. repeat split; try assumption. congruence.
Qed.

End Appearing.

(** X4. An element returned by [waitForElement] is, at the moment the wait
    ends, the first element of the document that matches the selector. *)
Theorem waitForElement_returns_first_match (alts : list SimpleSelector) (timeout : Z)
  (w w' : World) (element : Element) :
  waitForElement (Sel alts) timeout w = (Fulfilled element, w') ->
  find (matches alts) (document w') = Some element
  /\ In element (document w')
  /\ matches alts element = true.
Proof.
  intros Hrun.
  assert (Hfind : find (matches alts) (document w') = Some element).
  { revert Hrun. unfold waitForElement. simpl querySelector.
    destruct (find (matches alts) (document w)) as [found |] eqn:Hnow.
    - intros H. injection H as <- <-. exact Hnow.
    - apply waitForElement_observe_first_match. }
  split; [exact Hfind |]. now apply find_some in Hfind.
Qed.

Lemma waitForElement_returns_first_match_witness :
  find (matches [ByClass "DropTarget"])
       (document (snd (waitForElement config.selectors.dropTarget 3000
                                      Sample.cooperative)))
  = Some Sample.dropTarget
  /\ In Sample.dropTarget
        (document (snd (waitForElement config.selectors.dropTarget 3000
                                       Sample.cooperative)))
  /\ matches [ByClass "DropTarget"] Sample.dropTarget = true.
Proof.
  apply (waitForElement_returns_first_match [ByClass "DropTarget"] 3000
           Sample.cooperative).
  vm_compute. reflexivity.
Defined.

(** X5. [waitForElement] with a timeout that is not negative ends within
    its timeout; it is never left pending, and it is rejected only by a
    malformed selector, at once, or by its safety timer, exactly [timeout]
    ms after the call and with the timeout error. *)
Theorem waitForElement_deadline (selector : Selector) (timeout : Z) (w : World) :
  0 <= timeout ->
  match waitForElement selector timeout w with
  | (Fulfilled _, w') => now w <= now w' <= now w + timeout
  | (Rejected e, w') =>
      (exists source, selector = Malformed source /\ w' = w)
      \/ (e = elementTimeout selector timeout /\ now w' = now w + timeout)
  | _ => False
  end.
Proof.
  intros Htimeout. unfold waitForElement.
  destruct selector as [alts | source]; simpl querySelector.
  - destruct (find (matches alts) (document w)); [lia |].
    pose proof (waitForElement_observe_clock (Sel alts) timeout (fresh w)
                  (now w + timeout) (pending (subscribe (now w + timeout) w))
                  (subscribe (now w + timeout) w)) as H.
    simpl now in H at 1. specialize (H ltac:(lia)).
    destruct (waitForElement_observe _ _ _ _ _ _) as [[a | e | e |] w'];
      try exact H.
    now right.
  - left. eauto.
Qed.

Lemma waitForElement_deadline_witness :
  match waitForElement config.selectors.previewModal 5000 Sample.no_chat with
  | (Fulfilled _, w') => now Sample.no_chat <= now w' <= now Sample.no_chat + 5000
  | (Rejected e, w') =>
      (exists source, config.selectors.previewModal = Malformed source
                      /\ w' = Sample.no_chat)
      \/ (e = elementTimeout config.selectors.previewModal 5000
          /\ now w' = now Sample.no_chat + 5000)
  | _ => False
  end.
Proof.
  apply (waitForElement_deadline config.selectors.previewModal 5000 Sample.no_chat).
  lia.
Defined.

(** X6. [waitForElement] looks at the document again only when its observer
    is told of a batch.  When nothing matches at the call and no later batch
    is one the observer is told about, the wait is rejected at its deadline,
    whatever the page has come to contain. *)
Theorem waitForElement_needs_a_notification (alts : list SimpleSelector)
  (timeout : Z) (w : World) :
  find (matches alts) (document w) = None ->
  Forall (fun m => observed m = false) (pending w) ->
  fst (waitForElement (Sel alts) timeout w) = Rejected (elementTimeout (Sel alts) timeout).
Proof.
  intros Hnow Hquiet. unfold waitForElement. simpl querySelector. rewrite Hnow.
  now apply waitForElement_observe_unobserved.
Qed.

Lemma waitForElement_needs_a_notification_witness :
  find (matches [ByClass "modal"; ByRole "dialog"])
       (page_at 2000 (Sample.idle Sample.telegram [Sample.chat]
                        [mkMutation 1100 [Sample.chat; Sample.modal] false]))
  = Some Sample.modal
  /\ fst (waitForElement config.selectors.previewModal 5000
            (Sample.idle Sample.telegram [Sample.chat]
               [mkMutation 1100 [Sample.chat; Sample.modal] false]))
     = Rejected (elementTimeout config.selectors.previewModal 5000).
Proof.
  split; [reflexivity |].
  apply (waitForElement_needs_a_notification [ByClass "modal"; ByRole "dialog"] 5000
           (Sample.idle Sample.telegram [Sample.chat]
              [mkMutation 1100 [Sample.chat; Sample.modal] false])).
  - reflexivity.
  - repeat constructor.
Defined.

(** X7. When [waitForClass] is fulfilled, the class is there: either the
    element passed in already carried it and nothing happened, or the
    document the wait ends in holds the watched node with the class in its
    class list. *)
Theorem waitForClass_finds_the_class (element : Element) (className' : string)
  (timeout : Z) (w w' : World) :
  waitForClass element className' timeout w = (Fulfilled tt, w') ->
  (classList_contains element className' = true /\ w' = w)
  \/ (exists e, In e (document w') /\ node e = node element
                /\ classList_contains e className' = true).
Proof.
  unfold waitForClass.
  destruct (classList_contains element className').
  - intros H. injection H as <-. now left.
  - intros H. right. exact (waitForClass_observe_found _ _ _ _ _ _ _ _ H).
Qed.

Lemma waitForClass_finds_the_class_witness :
  (classList_contains Sample.composer "hover" = true
   /\ snd (waitForClass Sample.composer "hover" 3000
             (Sample.idle Sample.telegram [Sample.composer]
                [mkMutation 1020
                   [mkElement 2 "div" "composer-wrapper hover" "" None (Some 0%nat) "" HTMLElement]
                   true]))
      = Sample.idle Sample.telegram [Sample.composer]
          [mkMutation 1020
             [mkElement 2 "div" "composer-wrapper hover" "" None (Some 0%nat) "" HTMLElement]
             true])
  \/ (exists e,
        In e (document
                (snd (waitForClass Sample.composer "hover" 3000
                        (Sample.idle Sample.telegram [Sample.composer]
                           [mkMutation 1020
                              [mkElement 2 "div" "composer-wrapper hover" "" None
                                         (Some 0%nat) "" HTMLElement]
                              true]))))
        /\ node e = node Sample.composer
        /\ classList_contains e "hover" = true).
Proof.
  apply (waitForClass_finds_the_class Sample.composer "hover" 3000
           (Sample.idle Sample.telegram [Sample.composer]
              [mkMutation 1020
                 [mkElement 2 "div" "composer-wrapper hover" "" None (Some 0%nat) "" HTMLElement]
                 true])).
  vm_compute. reflexivity.
Defined.

(** ** The drop zone and the send control *)

Section Locating.

Lemma find_none_forall {A} (f : A -> bool) (l : list A) :
  find f l = None <-> Forall (fun a => f a = false) l.
Proof.
  induction l as [| a l IH]; simpl.
  - split; [constructor | reflexivity].
  - destruct (f a) eqn:Hf.
    + split; [discriminate |]. intros H. inversion H; congruence.
    + rewrite IH. split; [now constructor | intros H; now inversion H].
Qed.

Lemma no_drop_zone_finds (d : Document) :
  no_drop_zone d <->
  find (matches [ByClass "composer-wrapper"]) d = None
  /\ find (matches [ByClass "input-message-container"]) d = None
  /\ find (matches [ByClass "middle-column"]) d = None
  /\ find (matches [ByClass "input-message-input"]) d = None.
Proof.
  unfold no_drop_zone. rewrite !find_none_forall.
  induction d as [| e d IH].
  - split; intros; repeat split; constructor.
  - rewrite !Forall_cons_iff, IH. unfold matches. cbn [existsb].
    destruct (matches_simple e (ByClass "composer-wrapper"));
      destruct (matches_simple e (ByClass "input-message-container"));
      destruct (matches_simple e (ByClass "middle-column"));
      destruct (matches_simple e (ByClass "input-message-input"));
      simpl; intuition discriminate.
Qed.

End Locating.

(** X8. [findDropZone] touches nothing and tries the four candidates in the
    order of the source, each over the whole document: the zone it returns
    is the first element matching the first candidate that matches at all,
    so the order of the candidates wins over the order of the document.  It
    throws, with its own message, exactly when no element carries any of the
    four classes. *)
Theorem findDropZone_candidates (w : World) :
  let d := document w in
  let composer := find (matches [ByClass "composer-wrapper"]) d in
  let container := find (matches [ByClass "input-message-container"]) d in
  let column := find (matches [ByClass "middle-column"]) d in
  let input := find (matches [ByClass "input-message-input"]) d in
  snd (findDropZone w) = w
  /\ match fst (findDropZone w) with
     | Fulfilled zone =>
         composer = Some zone
         \/ (composer = None /\ container = Some zone)
         \/ (composer = None /\ container = None /\ column = Some zone)
         \/ (composer = None /\ container = None /\ column = None
             /\ input = Some zone)
     | Rejected e => e = noDropZone /\ no_drop_zone d
     | _ => False
     end
  /\ (no_drop_zone d <-> fst (findDropZone w) = Rejected noDropZone).
Proof.
  cbv zeta. pose proof (no_drop_zone_finds (document w)) as Hnone.
  unfold findDropZone, on_document. simpl findDropZone_in.
  destruct (find (matches [ByClass "composer-wrapper"]) (document w)) as [z1 |];
    [simpl; intuition (try discriminate; try congruence; auto) |].
  destruct (find (matches [ByClass "input-message-container"]) (document w))
    as [z2 |]; [simpl; intuition (try discriminate; try congruence; auto) |].
  destruct (find (matches [ByClass "middle-column"]) (document w)) as [z3 |];
    [simpl; intuition (try discriminate; try congruence; auto) |].
  destruct (find (matches [ByClass "input-message-input"]) (document w)) as [z4 |];
    simpl; intuition (try discriminate; try congruence; auto).
Qed.

Section Selecting.

Lemma find_first_none {A} (f : A -> Result bool) (l : list A) :
  find_first f l = Ok None <-> Forall (fun a => f a = Ok false) l.
Proof.
  induction l as [| a l IH]; simpl.
  - split; [constructor | reflexivity].
  - destruct (f a) as [[|] | e] eqn:Hf.
    + split; [discriminate |]. intros H. inversion H; congruence.
    + rewrite IH. split; [now constructor | intros H; now inversion H].
    + split; [discriminate |]. intros H. inversion H; congruence.
Qed.

Lemma find_first_some {A} (f : A -> Result bool) (l : list A) (a : A) :
  find_first f l = Ok (Some a) -> In a l /\ f a = Ok true.
Proof.
  induction l as [| x l IH]; simpl; [discriminate |].
  destruct (f x) as [[|] | e] eqn:Hf; try discriminate.
  - intros H. injection H as <-. auto.
  - intros H. destruct (IH H). auto.
Qed.

Lemma find_first_total {A} (f : A -> Result bool) (l : list A) :
  Forall (fun a => exists b, f a = Ok b) l -> exists r, find_first f l = Ok r.
Proof.
  induction 1 as [| a l (b & Hb) _ (r & IH)]; simpl; [eauto |].
  rewrite Hb. destruct b; eauto.
Qed.

Lemma primary_send_reads_send (btn : Element) :
  is_primary_send btn = Ok true -> is_send btn = true.
Proof.
  unfold is_primary_send, is_send.
  destruct (className_includes btn "primary") as [isPrimary | e]; [| discriminate].
  intros H. injection H as H. now apply andb_prop in H.
Qed.

(** The third attempt finds nothing the second has not found. *)
Lemma button_send_adds_nothing (visibleButtons : list Element) :
  find_first is_primary_send visibleButtons = Ok None ->
  find is_send visibleButtons = None ->
  find_first is_button_send visibleButtons = Ok None.
Proof.
  rewrite !find_first_none, find_none_forall. intros Hprimary Hsend.
  induction Hprimary as [| btn rest Hbtn _ IH]; [constructor |].
  inversion Hsend as [| ? ? Hs Hrest]; subst. constructor; [| now apply IH].
  unfold is_button_send, is_primary_send, is_send, className_includes in *.
  destruct (interface btn); try discriminate Hbtn; now rewrite Hs.
Qed.

Lemma locateSendButton_shape (visibleButtons : list Element) :
  locateSendButton visibleButtons
  = match find_first is_primary_send visibleButtons with
    | Throw e => Throw e
    | Ok (Some btn) => Ok (Some btn)
    | Ok None => Ok (find is_send visibleButtons)
    end.
Proof.
  unfold locateSendButton.
  destruct (find_first is_primary_send visibleButtons) as [[btn |] | e] eqn:Hprimary;
    try reflexivity.
  destruct (find is_send visibleButtons) eqn:Hsend; [reflexivity |].
  now apply button_send_adds_nothing.
Qed.

Lemma locateSendButton_found (visibleButtons : list Element) (btn : Element) :
  locateSendButton visibleButtons = Ok (Some btn) ->
  In btn visibleButtons /\ is_send btn = true.
Proof.
  rewrite locateSendButton_shape.
  destruct (find_first is_primary_send visibleButtons) as [[found |] | e] eqn:Hprimary;
    try discriminate.
  - intros H. injection H as <-. apply find_first_some in Hprimary.
    destruct Hprimary as [Hin Hp]. split; [exact Hin |].
    now apply primary_send_reads_send.
  - intros H. injection H as H. now apply find_some in H.
Qed.

End Selecting.

(** X9. In [clickSendButton]'s selection the text decides.  What is found
    is a member of the list that reads "send" once trimmed and lower-cased.
    Nothing is found exactly when the class of every control could be read
    and no control reads so.  And the third attempt, the one asking for a
    "Button" class, never changes the result of the first two: the
    selection is the primary match, else the first control that reads
    "send". *)
Theorem locateSendButton_text_decides (visibleButtons : list Element) :
  (locateSendButton visibleButtons = Ok None
   <-> Forall (fun btn => is_send btn = false /\ is_primary_send btn = Ok false)
              visibleButtons)
  /\ (forall btn, locateSendButton visibleButtons = Ok (Some btn) ->
                  In btn visibleButtons /\ is_send btn = true)
  /\ locateSendButton visibleButtons
     = match find_first is_primary_send visibleButtons with
       | Throw e => Throw e
       | Ok (Some btn) => Ok (Some btn)
       | Ok None => Ok (find is_send visibleButtons)
       end.
Proof.
  split; [| split; [apply locateSendButton_found | apply locateSendButton_shape]].
  rewrite locateSendButton_shape.
  destruct (find_first is_primary_send visibleButtons) as [[found |] | e] eqn:Hprimary.
  - split; [discriminate |]. intros Hall.
    apply find_first_some in Hprimary. destruct Hprimary as [Hin Hp].
    rewrite Forall_forall in Hall. destruct (Hall found Hin) as [_ Hq]. congruence.
  - apply find_first_none in Hprimary. split.
    + intros H. injection H as H. apply find_none_forall in H.
      rewrite Forall_forall in *. auto.
    + intros Hall. f_equal. apply find_none_forall.
      eapply Forall_impl; [| exact Hall]. now intros btn [Hs _].
  - split; [discriminate |]. intros Hall.
    assert (Hnone : find_first is_primary_send visibleButtons = Ok None).
    { apply find_first_none. eapply Forall_impl; [| exact Hall].
      now intros btn [_ Hq]. }
    congruence.
Qed.

(** White space that is not ASCII is trimmed too: a control whose text is
    "Send" between two no-break spaces reads "send". *)
Example padded_send_reads_send :
  let nbsp := String (ascii_of_nat 194) (String (ascii_of_nat 160) "") in
  is_send (mkElement 8 "button" "Button primary" (nbsp ++ "Send" ++ nbsp)
                     None (Some 0%nat) "" HTMLElement) = true.
Proof. reflexivity. Qed.

Section Activating.

(** On an element that has a [focus] the three calls are made, in order and
    at one instant. *)
Lemma performClick_events (element : Element) (w : World) :
  interface element <> PlainElement ->
  exists w' p1 p2 p3,
    performClick element w = (Fulfilled tt, w')
    /\ dispatched w'
       = (dispatched w ++ keyboard_activation (node element) p1 p2 p3 (now w))%list
    /\ page_side w' = page_side w
    /\ handles w' = handles w.
Proof.
  intros Hfocus. unfold performClick, focus_call.
  destruct (interface element); try congruence;
    unfold try_catch, bind, dispatchEvent; simpl;
    (eexists _, _, _, _; split; [reflexivity |]; split; [| split; reflexivity];
     unfold keyboard_activation; repeat rewrite <- app_assoc; reflexivity).
Qed.

(** On an element that has none the first call throws, and [performClick]
    swallows the exception: nothing is dispatched. *)
Lemma performClick_without_focus (element : Element) (w : World) :
  interface element = PlainElement ->
  performClick element w = (Fulfilled tt, w).
Proof. intros H. unfold performClick, focus_call. now rewrite H. Qed.

End Activating.

(** ** Controls that are HTML elements *)

Section Controls.

Lemma html_button (d : Document) (btn : Element) :
  html_controls d -> In btn d -> matches [ByTag "button"] btn = true ->
  interface btn = HTMLElement.
Proof.
  intros Hd Hin Hbutton. unfold html_controls in Hd. rewrite Forall_forall in Hd.
  apply (Hd btn Hin). unfold matches in *. cbn [existsb] in *.
  rewrite orb_false_r in Hbutton. now rewrite Hbutton.
Qed.

Lemma html_preview (d : Document) (modal : Element) :
  html_controls d -> In modal d ->
  matches [ByClass "modal"; ByRole "dialog"] modal = true ->
  interface modal = HTMLElement.
Proof.
  intros Hd Hin Hmodal. unfold html_controls in Hd. rewrite Forall_forall in Hd.
  apply (Hd modal Hin). unfold matches in *. cbn [existsb] in *.
  rewrite Hmodal. apply orb_true_r.
Qed.

Lemma html_is_primary_send (btn : Element) :
  interface btn = HTMLElement -> exists b, is_primary_send btn = Ok b.
Proof.
  intros H. unfold is_primary_send, className_includes. rewrite H. eauto.
Qed.

Lemma visible_buttons_can_be_asked (d : Document) :
  html_controls d ->
  Forall (fun btn => exists b, is_primary_send btn = Ok b)
         (filter is_visible (filter (matches [ByTag "button"]) d)).
Proof.
  intros Hd. apply Forall_forall. intros btn Hin.
  apply filter_In in Hin. destruct Hin as [Hin _].
  apply filter_In in Hin. destruct Hin as [Hin Hbutton].
  apply html_is_primary_send. exact (html_button d btn Hd Hin Hbutton).
Qed.

Lemma sendButtonAvailable_html (w : World) :
  html_controls (document w) -> exists b, sendButtonAvailable w = Ok b.
Proof.
  intros Hd. unfold sendButtonAvailable. simpl querySelectorAll. cbv iota zeta.
  destruct (find_first_total is_primary_send _
              (visible_buttons_can_be_asked (document w) Hd)) as ([btn |] & ->); eauto.
Qed.

Lemma locateSendButton_html (d : Document) :
  html_controls d ->
  exists r,
    locateSendButton (filter is_visible (filter (matches [ByTag "button"]) d)) = Ok r.
Proof.
  intros Hd. rewrite locateSendButton_shape.
  destruct (find_first_total is_primary_send _ (visible_buttons_can_be_asked d Hd))
    as ([btn |] & ->); eauto.
Qed.

Lemma previewClosed_html (w : World) :
  html_controls (document w) -> exists b, previewClosed w = Ok b.
Proof.
  intros Hd. unfold previewClosed. simpl querySelector. cbv iota.
  destruct (find _ (document w)) as [modal |] eqn:Hfind; [| eauto].
  apply find_some in Hfind. destruct Hfind as [Hin Hmodal].
  unfold style_display. rewrite (html_preview _ _ Hd Hin Hmodal). eauto.
Qed.

(** A condition that cannot throw on the pages of [Q] leaves no promise
    pending on them. *)
Lemma waitUntil_settles_on (Q : Document -> Prop) (condition : World -> Result bool)
  (timeout checkInterval : Z) (w : World) :
  (forall w1, Q (document w1) -> exists b, condition w1 = Ok b) ->
  0 < checkInterval ->
  page_keeps Q w ->
  settled (fst (waitUntil condition timeout checkInterval w)).
Proof.
  intros Htotal Hpos Hkeeps.
  pose proof (waitUntil_never_spins condition timeout checkInterval w Hpos) as Hspin.
  pose proof (waitUntil_post condition timeout checkInterval w) as Hout.
  pose proof (Keeps_waitUntil Q condition timeout checkInterval w Hkeeps) as [Hd _].
  destruct (waitUntil condition timeout checkInterval w) as [[[] | e | e |] w'];
    simpl in *; try exact I; try congruence.
  destruct (Htotal w' Hd) as [b Hb]. congruence.
Qed.

(** The best-effort wait for the preview to close cannot fail the click. *)
Lemma confirm_closed_run (w : World) :
  page_keeps html_controls w ->
  exists w',
    try_catch (await (waitUntil previewClosed config.maxWaitTime.clickResponse
                                default_checkInterval))
              (fun _ => ret tt) w
    = (Fulfilled tt, w')
    /\ dispatched w' = dispatched w.
Proof.
  intros Hkeeps.
  pose proof (waitUntil_settles_on html_controls previewClosed
                config.maxWaitTime.clickResponse default_checkInterval w
                previewClosed_html ltac:(reflexivity) Hkeeps) as Hs.
  pose proof (waitUntil_dispatched previewClosed config.maxWaitTime.clickResponse
                default_checkInterval w) as Hd.
  unfold try_catch, ret, await.
  destruct (waitUntil previewClosed _ _ w) as [[[] | e | e |] w'];
    simpl in *; try contradiction;
    (eexists; split; [reflexivity |]);
    rewrite <- Hd; apply dispatched_of_sides, resumed_sides.
Qed.

End Controls.

Lemma clickSendButton_cases (w : World) :
  page_keeps html_controls w ->
  match clickSendButton w with
  | (Fulfilled _, w') =>
      exists w1 btn p1 p2 p3,
        (forall Q, stays_in Q w w1)
        /\ In btn (document w1)
        /\ matches [ByTag "button"] btn = true
        /\ is_visible btn = true
        /\ is_send btn = true
        /\ dispatched w'
           = (dispatched w ++ keyboard_activation (node btn) p1 p2 p3 (now w1))%list
        /\ now w <= now w1 < now w + 5100
  | (Rejected e, w') =>
      (e = clickTimeout
       /\ dispatched w' = dispatched w
       /\ now w + 5000 <= now w' < now w + 5100)
      \/ (e = clickMissing
          /\ dispatched w' = dispatched w
          /\ now w <= now w' < now w + 5100)
  | _ => False
  end.
Proof.
  intros Hhtml.
  pose proof (waitUntil_settles_on html_controls sendButtonAvailable
                config.maxWaitTime.sendButton default_checkInterval w
                sendButtonAvailable_html ltac:(reflexivity) Hhtml) as Hs.
  pose proof (waitUntil_dispatched sendButtonAvailable config.maxWaitTime.sendButton
                default_checkInterval w) as Hd.
  destruct (waitUntil_clock sendButtonAvailable config.maxWaitTime.sendButton
              default_checkInterval w ltac:(reflexivity)
              ltac:(unfold config.maxWaitTime.sendButton; lia))
    as [Hge Hlt].
  pose proof (waitUntil_post sendButtonAvailable config.maxWaitTime.sendButton
                default_checkInterval w) as Hout.
  assert (Hkeeps : forall Q,
             stays_in Q w
               (snd (waitUntil sendButtonAvailable config.maxWaitTime.sendButton
                               default_checkInterval w)))
    by (intros Q; apply check_keeps).
  unfold clickSendButton, rewrap. unfold try_catch at 1. unfold bind at 1.
  unfold await at 1.
  destruct (waitUntil sendButtonAvailable _ _ w) as [r0 w0] eqn:Hwait.
  simpl in Hs, Hd, Hge, Hlt, Hkeeps.
  unfold config.maxWaitTime.sendButton, default_checkInterval in Hlt.
  destruct (resumed_sides w0) as [Hrs Hrn].
  apply dispatched_of_sides in Hrs.
  assert (Hkeeps1 : forall Q, stays_in Q w (resumed w0)).
  { intros Q HQ. apply resumed_keeps, Hkeeps, HQ. }
  destruct r0 as [[] | e | e |]; try contradiction.
  - pose proof (Hkeeps1 html_controls Hhtml) as Hhtml1.
    destruct Hhtml1 as [Hdoc1 Hpend1].
    unfold bind at 1, on_document. simpl querySelectorAll. cbv iota zeta.
    unfold bind at 1, sync.
    destruct (locateSendButton_html (document (resumed w0)) Hdoc1) as (r & Hlocate).
    rewrite Hlocate.
    destruct r as [btn |].
    + destruct (locateSendButton_found _ _ Hlocate) as [Hin Hsend].
      apply filter_In in Hin. destruct Hin as [Hin Hvisible].
      apply filter_In in Hin. destruct Hin as [Hin Hbutton].
      pose proof (html_button _ _ Hdoc1 Hin Hbutton) as Hinterface.
      destruct (performClick_events btn (resumed w0) ltac:(congruence))
        as (w2 & p1 & p2 & p3 & Hclick & Hd2 & Hp2 & _).
      rewrite (bind_run _ _ _ _ _ Hclick).
      destruct (confirm_closed_run w2) as (w3 & Hconfirm & Hd3).
      { apply (page_keeps_of_sides html_controls _ _ Hp2). now split. }
      rewrite Hconfirm.
      exists (resumed w0), btn, p1, p2, p3.
      split; [exact Hkeeps1 |]. split; [exact Hin |]. split; [exact Hbutton |].
      split; [exact Hvisible |]. split; [exact Hsend |]. split; [| lia].
      rewrite Hd3, Hd2, Hrs, Hd. reflexivity.
    + right. unfold throw. split; [reflexivity |]. split; [congruence | lia].
  - destruct Hout as [(_ & Hthrow) | (-> & _ & Hlate)].
    + destruct (sendButtonAvailable_html w (proj1 Hhtml)) as [b Hb]. congruence.
    + left. unfold throw. unfold config.maxWaitTime.sendButton in Hlate.
      split; [reflexivity |]. split; [congruence | lia].
Qed.



(** The page between the check and the selection.  The primary button is
    there when the script first looks, and gone when it resumes: with a
    secondary "Send" left the script activates that one, with none left it
    fails for want of a button. *)
Example button_changes_before_resuming :
  dispatched
    (snd (clickSendButton
            (Sample.idle Sample.telegram
               [Sample.chat; Sample.modal; Sample.secondary; Sample.primary]
               [mkMutation 1000 [Sample.chat; Sample.modal; Sample.secondary] true])))
  = keyboard_activation (node Sample.secondary) false false false 1000
  /\ fst (clickSendButton
            (Sample.idle Sample.telegram
               [Sample.chat; Sample.modal; Sample.primary]
               [mkMutation 1000 [Sample.chat; Sample.modal] true]))
     = Rejected clickMissing.
Proof. split; vm_compute; reflexivity. Qed.

(** ** Observers are always released *)

Section Releasing.

Lemma quietly_refl (w : World) : quietly w w.
Proof. exists []. split; [now rewrite app_nil_r | intros n []]. Qed.

Lemma quietly_trans (w1 w2 w3 : World) :
  quietly w1 w2 -> quietly w2 w3 -> quietly w1 w3.
Proof.
  intros (ops1 & H1 & N1) (ops2 & H2 & N2). exists (ops1 ++ ops2)%list. split.
  - now rewrite H2, H1, app_assoc.
  - intros n Hin. apply in_app_or in Hin. destruct Hin; [eapply N1 | eapply N2]; eauto.
Qed.

Lemma quietly_append (w w' : World) (ops : list HandleOp) :
  handles w' = (handles w ++ ops)%list -> creates_none ops -> quietly w w'.
Proof. intros H N. exists ops. auto. Qed.

Lemma stale_callbacks_create_none (timers : list (Z * nat)) :
  creates_none (flat_map stale_callback timers).
Proof.
  intros n Hin. apply in_flat_map in Hin. destruct Hin as (a & _ & Ha).
  simpl in Ha. destruct Ha as [Ha | [Ha | []]]; discriminate Ha.
Qed.

Lemma fire_due_quietly (w : World) : quietly w (fire_due w).
Proof.
  eapply quietly_append; [reflexivity | apply stale_callbacks_create_none].
Qed.

Lemma apply_mutation_quietly (m : Mutation) (rest : list Mutation) (w : World) :
  quietly w (apply_mutation m rest w).
Proof.
  exact (fire_due_quietly (with_clock (Z.max (now w) (stamp m)) (after m) rest w)).
Qed.

Lemma idle_until_quietly (t : Z) (muts : list Mutation) (w : World) :
  quietly w (idle_until t muts w).
Proof.
  exact (fire_due_quietly (with_clock (Z.max (now w) t) (document w) muts w)).
Qed.

Lemma advance_through_quietly (t : Z) (muts : list Mutation) (w : World) :
  quietly w (advance_through t muts w).
Proof.
  revert w. induction muts as [| m rest IH]; intros w; simpl.
  - apply idle_until_quietly.
  - destruct (stamp m <=? t); [| apply idle_until_quietly].
    eapply quietly_trans; [apply apply_mutation_quietly | apply IH].
Qed.

Lemma after_interval_quietly (checkInterval : Z) (w : World) :
  quietly w (after_interval checkInterval w).
Proof.
  unfold after_interval.
  eapply quietly_trans; [| eapply quietly_trans].
  - eapply (quietly_append w
              (with_handles (handles w ++ [TimerSet (fresh w) (now w + checkInterval)])
                            (armed w) (S (fresh w)) w)); [reflexivity |].
    intros n [H | []]. discriminate H.
  - apply advance_through_quietly.
  - eapply quietly_append; [reflexivity |]. intros n [H | []]. discriminate H.
Qed.

Lemma check_quietly (condition : World -> Result bool)
  (startTime timeout checkInterval : Z) (budget : nat) (first : bool) (w : World) :
  quietly w (snd (check budget first condition startTime timeout checkInterval w)).
Proof.
  revert first w. induction budget as [| budget IH]; intros first w; simpl.
  - apply quietly_refl.
  - destruct (condition w) as [[|] | e]; try apply quietly_refl.
    + destruct (now w - startTime >=? timeout); [apply quietly_refl |].
      eapply quietly_trans; [apply after_interval_quietly | apply IH].
    + destruct first; apply quietly_refl.
Qed.

Lemma releasing_refl (w : World) : releasing w w.
Proof. exists []. split; [now rewrite app_nil_r | intros n []]. Qed.

Lemma releasing_trans (w1 w2 w3 : World) :
  releasing w1 w2 -> releasing w2 w3 -> releasing w1 w3.
Proof.
  intros (ops1 & H1 & N1) (ops2 & H2 & N2). exists (ops1 ++ ops2)%list. split.
  - now rewrite H2, H1, app_assoc.
  - intros n Hin. apply in_or_app. apply in_app_or in Hin.
    destruct Hin; [left; now apply N1 | right; now apply N2].
Qed.

Lemma quietly_releasing (w w' : World) : quietly w w' -> releasing w w'.
Proof.
  intros (ops & H & N). exists ops. split; [exact H |].
  intros n Hin. now apply N in Hin.
Qed.

(** The observer's loop creates no observer and disconnects its own. *)
Lemma waitForElement_observe_disconnects (selector : Selector) (timeout : Z)
  (observer : nat) (deadline : Z) (muts : list Mutation) (w : World) :
  exists ops,
    handles (snd (waitForElement_observe selector timeout observer deadline muts w))
    = (handles w ++ ops)%list
    /\ creates_none ops /\ In (Disconnect observer) ops.
Proof.
  assert (Hcallback : forall w1, quietly w w1 ->
            exists ops,
              handles (settle_from_callback observer deadline w1)
              = (handles w ++ ops)%list
              /\ creates_none ops /\ In (Disconnect observer) ops).
  { intros w1 (ops & H & N). exists (ops ++ [Disconnect observer])%list.
    simpl. rewrite H, app_assoc. split; [reflexivity |]. split.
    - intros n Hin. apply in_app_or in Hin.
      destruct Hin as [Hin | [Hin | []]]; [now apply N in Hin | discriminate Hin].
    - apply in_or_app. right. now left. }
  assert (Htimer : forall w1 ms, quietly w w1 ->
            exists ops,
              handles (settle_from_timer observer (idle_until deadline ms w1))
              = (handles w ++ ops)%list
              /\ creates_none ops /\ In (Disconnect observer) ops).
  { intros w1 ms Hq.
    destruct (quietly_trans _ _ _ Hq (idle_until_quietly deadline ms w1))
      as (ops & H & N).
    exists (ops ++ [TimerFired observer; Disconnect observer])%list.
    unfold settle_from_timer. cbn [handles with_handles].
    rewrite H, app_assoc. split; [reflexivity |]. split.
    - intros n Hin. apply in_app_or in Hin.
      destruct Hin as [Hin | [Hin | [Hin | []]]];
        [now apply N in Hin | discriminate Hin | discriminate Hin].
    - apply in_or_app. right. right. now left. }
  assert (Hgen : forall w1, quietly w w1 ->
            exists ops,
              handles (snd (waitForElement_observe selector timeout observer
                              deadline muts w1))
              = (handles w ++ ops)%list
              /\ creates_none ops /\ In (Disconnect observer) ops).
  { induction muts as [| m rest IH]; intros w1 Hq; cbn [waitForElement_observe].
    - now apply Htimer.
    - destruct (stamp m <=? deadline); [| now apply Htimer].
      pose proof (quietly_trans _ _ _ Hq (apply_mutation_quietly m rest w1)) as Hq'.
      destruct (observed m); [| now apply IH].
      destruct (querySelector _ _) as [[element |] | e]; try now apply IH.
      now apply Hcallback. }
  apply Hgen. apply quietly_refl.
Qed.

Lemma Releases_waitForElement (selector : Selector) (timeout : Z) :
  Releases (waitForElement selector timeout).
Proof.
  intros w. unfold waitForElement.
  destruct (querySelector selector (document w)) as [[element |] | e];
    try apply releasing_refl.
  destruct (waitForElement_observe_disconnects selector timeout (fresh w)
              (now w + timeout) (pending (subscribe (now w + timeout) w))
              (subscribe (now w + timeout) w)) as (ops & H & N & Hd).
  exists ([Observe (fresh w); TimerSet (fresh w) (now w + timeout)] ++ ops)%list.
  split.
  - rewrite H. unfold subscribe. simpl. now rewrite <- app_assoc.
  - intros n [Hin | [Hin | Hin]].
    + injection Hin as <-. right. right. exact Hd.
    + discriminate Hin.
    + now apply N in Hin.
Qed.

Lemma Releases_waitUntil (condition : World -> Result bool)
  (timeout checkInterval : Z) :
  Releases (waitUntil condition timeout checkInterval).
Proof. intros w. apply quietly_releasing, check_quietly. Qed.

Lemma Releases_timer (ms : Z) : Releases (timer ms).
Proof. intros w. apply quietly_releasing, advance_through_quietly. Qed.

Lemma resumed_releasing (w : World) : releasing w (resumed w).
Proof.
  apply quietly_releasing. unfold resumed.
  destruct (pending w) as [| m rest]; [apply quietly_refl |].
  destruct (stamp m <=? now w); [apply apply_mutation_quietly | apply quietly_refl].
Qed.

Lemma releasing_same_handles (w w' : World) :
  handles w' = handles w -> releasing w w'.
Proof.
  intros H. exists []. split; [now rewrite app_nil_r | intros n []].
Qed.

Lemma Releases_dispatchEvent (el : Element) (type : EventType)
  (dt : option DataTransfer) : Releases (dispatchEvent el type dt).
Proof. intros w. now apply releasing_same_handles. Qed.

Lemma Releases_addPreventDefaultOnce (el : Element) (type : EventType) :
  Releases (addPreventDefaultOnce el type).
Proof. intros w. now apply releasing_same_handles. Qed.

End Releasing.

(** X11. However an upload ends, every observer it created has been
    disconnected by the time [uploadPhoto] returns: the handle operations of
    the run hold a [disconnect] for each [observe]. *)
Theorem uploadPhoto_releases_observers (data : option UploadData) (w : World) :
  exists ops,
    handles (snd (uploadPhoto data w)) = (handles w ++ ops)%list
    /\ forall n, In (Observe n) ops -> In (Disconnect n) ops.
Proof.
  apply (Respects_uploadPhoto releasing releasing_refl releasing_trans
           Releases_dispatchEvent Releases_addPreventDefaultOnce resumed_releasing
           Releases_timer Releases_waitForElement Releases_waitUntil data w).
Qed.

(** ** How long a run can take *)

Section Timing.

Lemma Within_ret {A} (a : A) : Within (ret a) 0.
Proof. intros w. simpl. lia. Qed.

Lemma Within_throw {A} (e : JsError) : Within (@throw A e) 0.
Proof. intros w. simpl. lia. Qed.

Lemma Within_on_document {A} (f : Document -> Result A) : Within (on_document f) 0.
Proof. intros w. unfold on_document. destruct (f (document w)); simpl; lia. Qed.

Lemma Within_weaken {A} (c : Async A) (d d' : Z) :
  Within c d -> d <= d' -> Within c d'.
Proof. intros H Hle w. specialize (H w). lia. Qed.

Lemma Within_bind {A B} (c : Async A) (k : A -> Async B) (d1 d2 : Z) :
  Within c d1 -> (forall a, Within (k a) d2) -> 0 <= d2 ->
  Within (bind c k) (d1 + d2).
Proof.
  intros Hc Hk Hd w. unfold bind. specialize (Hc w).
  destruct (c w) as [[a | e | e |] w1]; simpl in *; try lia.
  specialize (Hk a w1). lia.
Qed.

Lemma Within_try_catch {A} (c : Async A) (handler : JsError -> Async A) (d1 d2 : Z) :
  Within c d1 -> (forall e, Within (handler e) d2) -> 0 <= d2 ->
  Within (try_catch c handler) (d1 + d2).
Proof.
  intros Hc Hh Hd w. unfold try_catch. specialize (Hc w).
  destruct (c w) as [[a | e | e |] w1]; simpl in *; try lia.
  specialize (Hh e w1). lia.
Qed.

Lemma Within_dispatchEvent (el : Element) (type : EventType)
  (dt : option DataTransfer) : Within (dispatchEvent el type dt) 0.
Proof. intros w. simpl. lia. Qed.

Lemma Within_addPreventDefaultOnce (el : Element) (type : EventType) :
  Within (addPreventDefaultOnce el type) 0.
Proof. intros w. simpl. lia. Qed.

Lemma Within_sync {A} (r : Result A) : Within (sync r) 0.
Proof. intros w. unfold sync. destruct r; simpl; lia. Qed.

Lemma Within_await {A} (c : Async A) (d : Z) : Within c d -> Within (await c) d.
Proof.
  intros Hc w. destruct (await_sides c w) as [_ Hn]. rewrite Hn. apply Hc.
Qed.

Lemma Within_sleep (ms : Z) : 0 <= ms -> Within (sleep ms) ms.
Proof.
  intros Hms w. rewrite (sleep_timer ms w Hms). unfold timer. cbn [snd].
  rewrite now_advance_through. lia.
Qed.

Lemma Within_waitForElement (selector : Selector) (timeout : Z) :
  0 <= timeout -> Within (waitForElement selector timeout) timeout.
Proof.
  intros Htimeout w. unfold waitForElement.
  destruct (querySelector selector (document w)) as [[element |] | e];
    try (simpl; lia).
  pose proof (waitForElement_observe_clock selector timeout (fresh w)
                (now w + timeout) (pending (subscribe (now w + timeout) w))
                (subscribe (now w + timeout) w)) as H.
  unfold subscribe at 1 3 in H. simpl now in H. specialize (H ltac:(lia)).
  destruct (waitForElement_observe _ _ _ _ _ _) as [[a | e | e |] w'];
    simpl; try contradiction; lia.
Qed.

Lemma Within_waitUntil (condition : World -> Result bool) (timeout checkInterval : Z) :
  0 < checkInterval -> 0 <= timeout ->
  Within (waitUntil condition timeout checkInterval) (timeout + checkInterval).
Proof.
  intros Hpos Htimeout w.
  pose proof (waitUntil_clock condition timeout checkInterval w Hpos Htimeout). lia.
Qed.

Ltac within :=
  first
    [ apply Within_ret
    | apply Within_throw
    | apply Within_on_document
    | apply Within_sync
    | apply Within_await; within
    | apply Within_dispatchEvent
    | apply Within_addPreventDefaultOnce
    | apply Within_sleep; vm_compute; discriminate
    | apply Within_waitForElement; vm_compute; discriminate
    | apply Within_waitUntil; [reflexivity | vm_compute; discriminate]
    | eapply Within_bind; [within | intros ?; within | vm_compute; discriminate]
    | eapply Within_try_catch;
      [within | intros ?; within | vm_compute; discriminate] ].

Lemma Within_dragover_loop (dropZone : Element) (dataTransfer : DataTransfer) :
  Within (dragover_loop 3 0 dropZone dataTransfer) (2 * hover_interval).
Proof.
  cbn [dragover_loop]. change (0 + 1) with 1. change (1 + 1) with 2.
  change (0 <? 2) with true. change (1 <? 2) with true.
  change (2 <? 2) with false. cbv iota.
  eapply Within_weaken; [within | vm_compute; discriminate].
Qed.

Lemma Within_uploadViaDragAndDrop (file : File) :
  Within (uploadViaDragAndDrop file) 8100.
Proof.
  unfold uploadViaDragAndDrop, findDropZone, waitForPreviewModal.
  eapply Within_weaken.
  - eapply Within_try_catch; [| intros ?; within | vm_compute; discriminate].
    eapply Within_bind; [within | intros dropZone | shelve].
    cbv zeta.
    eapply Within_bind; [within | intros _ | shelve].
    eapply Within_bind; [within | intros surface | shelve].
    eapply Within_bind; [apply Within_dragover_loop | intros _ | shelve].
    within.
  - shelve.
  Unshelve. all: vm_compute; discriminate.
Qed.

Lemma Within_performClick (element : Element) : Within (performClick element) 0.
Proof.
  unfold performClick, focus_call.
  destruct (interface element);
    (eapply Within_weaken; [within | vm_compute; discriminate]).
Qed.

Lemma Within_clickSendButton : Within clickSendButton 7200.
Proof.
  unfold clickSendButton, rewrap.
  eapply Within_weaken.
  - eapply Within_try_catch; [| intros ?; within | vm_compute; discriminate].
    eapply Within_bind; [within | intros _ | shelve].
    eapply Within_bind; [within | intros allButtons | shelve].
    cbv zeta.
    eapply Within_bind; [within | intros sendButton | shelve].
    instantiate (1 := config.maxWaitTime.clickResponse + default_checkInterval).
    destruct sendButton as [sendButton |].
    + eapply Within_weaken;
        [eapply Within_bind;
         [apply Within_performClick | intros _; within | vm_compute; discriminate]
        | vm_compute; discriminate].
    + eapply Within_weaken; [within | vm_compute; discriminate].
  - shelve.
  Unshelve. all: vm_compute; discriminate.
Qed.

(** [uploadPhoto] is its steps, then a result stamped with the time they
    took. *)
Lemma uploadPhoto_by_steps (data : option UploadData) (w : World) :
  uploadPhoto data w
  = match upload_steps data w with
    | (Fulfilled _, w1) =>
        (Fulfilled (mkResponse true (Some "Photo uploaded successfully") None
                               (Some (now w1 - now w))), w1)
    | (Rejected e, w1) =>
        (Fulfilled (mkResponse false None (Some (message e))
                               (Some (now w1 - now w))), w1)
    | (Unsettled e, w1) => (Unsettled e, w1)
    | (Spinning, w1) => (Spinning, w1)
    end.
Proof.
  unfold uploadPhoto, upload_steps, try_catch. cbv zeta.
  destruct data as [d |]; [| reflexivity].
  destruct (arrayBuffer d) as [buffer |]; [| reflexivity].
  unfold bind.
  destruct (arrayBufferToFile _ _ _ w) as [[file | e | e |] wa]; try reflexivity.
  destruct (await (uploadViaDragAndDrop file) wa) as [[ok | e | e |] wb];
    try reflexivity.
  destruct (await clickSendButton wb) as [[[] | e | e |] wc]; reflexivity.
Qed.

Lemma Within_upload_steps (data : option UploadData) :
  Within (upload_steps data) 15300.
Proof.
  unfold upload_steps.
  destruct data as [d |];
    [| eapply Within_weaken; [apply Within_throw | discriminate]].
  destruct (arrayBuffer d) as [buffer |];
    [| eapply Within_weaken; [apply Within_throw | discriminate]].
  unfold arrayBufferToFile, rewrap.
  eapply Within_weaken.
  - eapply Within_bind; [| intros file | shelve].
    + eapply Within_try_catch; [| intros ?; within | discriminate].
      instantiate (1 := 0). intros w. simpl. lia.
    + eapply Within_bind;
        [apply Within_await, Within_uploadViaDragAndDrop | intros _ | shelve].
      eapply Within_bind;
        [apply Within_await, Within_clickSendButton | intros _; apply Within_ret
        | discriminate].
  - shelve.
  Unshelve. all: vm_compute; discriminate.
Qed.

(** On a page whose controls are HTML elements every wait of the run
    settles. *)
Lemma upload_steps_settle (data : option UploadData) (w : World) :
  page_keeps html_controls w -> settled (fst (upload_steps data w)).
Proof.
  intros Hhtml. unfold upload_steps.
  destruct data as [d |]; [| exact I].
  destruct (arrayBuffer d) as [buffer |]; [| exact I].
  unfold bind at 1, arrayBufferToFile, rewrap, try_catch.
  match goal with
  | |- context [await (uploadViaDragAndDrop ?f)] => set (file := f)
  end.
  pose proof (Settles_await _ (Settles_uploadViaDragAndDrop file) w) as Hs1.
  pose proof (Keeps_await html_controls _ (Keeps_uploadViaDragAndDrop html_controls file)
                w Hhtml) as Hk1.
  unfold bind at 1.
  destruct (await (uploadViaDragAndDrop file) w) as [[ok | e | e |] w1];
    simpl in Hs1, Hk1; try contradiction; try exact I.
  pose proof (clickSendButton_cases w1 Hk1) as Hcases.
  unfold bind, await, ret.
  destruct (clickSendButton w1) as [[[] | e | e |] w2]; try contradiction; exact I.
Qed.

End Timing.

(** X12. On a page whose buttons and preview are HTML elements, every
    call of [uploadPhoto] returns a result whose [duration] is the time
    between the call and the return; in this model of time it is never
    negative and never more than 15300 ms, the sum of the four safety
    timeouts, the two hover pauses and one poll interval per polled wait. *)
Theorem uploadPhoto_duration (data : option UploadData) (w : World) :
  page_keeps html_controls w ->
  exists r w',
    uploadPhoto data w = (Fulfilled r, w')
    /\ duration r = Some (now w' - now w)
    /\ 0 <= now w' - now w <= 15300.
Proof.
  intros Hhtml.
  pose proof (Within_upload_steps data w) as Hclock.
  pose proof (upload_steps_settle data w Hhtml) as Hsettled.
  rewrite uploadPhoto_by_steps.
  destruct (upload_steps data w) as [[[] | e | e |] w1]; simpl in *;
    try contradiction; eexists _, w1; repeat split; lia.
Qed.

Lemma uploadPhoto_duration_witness :
  exists r w',
    uploadPhoto (Some Sample.photo) Sample.cooperative = (Fulfilled r, w')
    /\ duration r = Some (now w' - now Sample.cooperative)
    /\ 0 <= now w' - now Sample.cooperative <= 15300.
Proof.
  apply (uploadPhoto_duration (Some Sample.photo) Sample.cooperative).
  split; repeat constructor.
Defined.

(** ** The ways an upload can end *)

Section Ending.

Lemma findDropZone_none (w : World) :
  no_drop_zone (document w) -> findDropZone w = (Rejected noDropZone, w).
Proof.
  intros H. apply no_drop_zone_finds in H. destruct H as (H1 & H2 & H3 & H4).
  unfold findDropZone, on_document. simpl findDropZone_in.
  now rewrite H1, H2, H3, H4.
Qed.

Lemma findDropZone_cases (w : World) :
  (exists zone, findDropZone w = (Fulfilled zone, w))
  \/ (no_drop_zone (document w) /\ findDropZone w = (Rejected noDropZone, w)).
Proof.
  pose proof (no_drop_zone_finds (document w)) as Hnone.
  unfold findDropZone, on_document in *. simpl findDropZone_in.
  destruct (find (matches [ByClass "composer-wrapper"]) (document w)) as [z1 |];
    [left; eauto |].
  destruct (find (matches [ByClass "input-message-container"]) (document w))
    as [z2 |]; [left; eauto |].
  destruct (find (matches [ByClass "middle-column"]) (document w)) as [z3 |];
    [left; eauto |].
  destruct (find (matches [ByClass "input-message-input"]) (document w)) as [z4 |];
    [left; eauto |].
  right. split; [apply Hnone; auto | reflexivity].
Qed.

Lemma waitForElement_first_match (alts : list SimpleSelector) (timeout : Z)
  (w w' : World) (element : Element) :
  waitForElement (Sel alts) timeout w = (Fulfilled element, w') ->
  find (matches alts) (document w') = Some element.
Proof.
  unfold waitForElement. simpl querySelector.
  destruct (find (matches alts) (document w)) as [found |] eqn:Hnow.
  - intros H. injection H as <- <-. exact Hnow.
  - apply waitForElement_observe_first_match.
Qed.

(** The wait for the preview: fulfilled with the preview in the document
    it ends in, or rejected by its timeout, five seconds after it began. *)
Lemma preview_wait_cases (w : World) :
  match waitForElement config.selectors.previewModal config.maxWaitTime.preview w with
  | (Fulfilled _, w') => ~ no_preview (document w')
  | (Rejected e, w') =>
      e = previewTimeout /\ now w' = now w + config.maxWaitTime.preview
  | _ => False
  end.
Proof.
  pose proof (waitForElement_first_match [ByClass "modal"; ByRole "dialog"]
                config.maxWaitTime.preview w) as Hfirst.
  unfold waitForElement in *. simpl querySelector in *.
  destruct (find _ (document w)) as [found |] eqn:Hnow.
  - unfold no_preview. simpl. congruence.
  - pose proof (waitForElement_observe_clock config.selectors.previewModal
                  config.maxWaitTime.preview (fresh w)
                  (now w + config.maxWaitTime.preview)
                  (pending (subscribe (now w + config.maxWaitTime.preview) w))
                  (subscribe (now w + config.maxWaitTime.preview) w)) as Hclock.
    unfold subscribe at 1 3 in Hclock. simpl now in Hclock.
    specialize (Hclock ltac:(unfold config.maxWaitTime.preview; lia)).
    unfold config.selectors.previewModal in Hclock.
    destruct (waitForElement_observe _ _ _ _ _ _) as [[modal | e | e |] w'];
      try exact Hclock.
    unfold no_preview. rewrite (Hfirst w' modal eq_refl). discriminate.
Qed.

(** STEP 6, once more: fulfilled, the preview having been in the document
    when the wait ended, or rejected by the preview's timeout. *)
Lemma await_preview_cases (w : World) :
  match (await waitForPreviewModal ;;; ret true) w with
  | (Fulfilled ok, w') =>
      ok = true
      /\ exists w0, (forall Q, stays_in Q w w0) /\ ~ no_preview (document w0)
  | (Rejected e, w') =>
      e = previewTimeout /\ now w' = now w + config.maxWaitTime.preview
  | _ => False
  end.
Proof.
  pose proof (preview_wait_cases w) as Hcases.
  assert (Hkeeps : forall Q,
             stays_in Q w
               (snd (waitForElement config.selectors.previewModal
                                    config.maxWaitTime.preview w)))
    by (intros Q; apply Keeps_waitForElement).
  unfold bind, await, waitForPreviewModal, bind, await, ret.
  destruct (waitForElement _ _ w) as [[modal | e | e |] w0]; try contradiction.
  - split; [reflexivity |]. exists w0. split; [exact Hkeeps | exact Hcases].
  - destruct Hcases as [-> Hnow]. split; [reflexivity |].
    destruct (resumed_sides w0) as [_ Hn0].
    destruct (resumed_sides (resumed w0)) as [_ Hn1].
    simpl. lia.
Qed.

Lemma await_drag_cases (file : File) (w : World) :
  (no_drop_zone (document w)
   /\ await (uploadViaDragAndDrop file) w = (Rejected noDropZone, resumed w))
  \/ (exists zone surface entered left t,
        findDropZone w = (Fulfilled zone, w)
        /\ dispatched (snd (await (uploadViaDragAndDrop file) w))
           = (dispatched w
              ++ drag_sequence (node zone) (node surface) (createDataTransfer file)
                               entered left (now w) t)%list
        /\ (fst (await (uploadViaDragAndDrop file) w) = Rejected previewTimeout
            \/ (fst (await (uploadViaDragAndDrop file) w) = Fulfilled true
                /\ exists w0,
                    (forall Q, stays_in Q w w0) /\ ~ no_preview (document w0)))).
Proof.
  destruct (findDropZone_cases w) as [(zone & Hzone) | (Hnone & Hzone)].
  - right.
    destruct (drag_steps_run file w zone Hzone)
      as (surface & entered & left & w2 & w5 & Hrun & Hd & Hn & _ & Hkeeps5).
    exists zone, surface, entered, left, (now w2).
    split; [exact Hzone |].
    rewrite await_dispatched, await_fst, Hrun, await_preview_dispatched.
    split; [exact Hd |].
    pose proof (await_preview_cases w5) as Hcases.
    destruct ((await waitForPreviewModal ;;; ret true) w5) as [[ok | e | e |] w6];
      try contradiction; simpl.
    + destruct Hcases as (-> & w0 & Hkeeps0 & Hpreview). right.
      split; [reflexivity |]. exists w0. split; [| exact Hpreview].
      intros Q. eapply stays_in_trans; [apply Hkeeps5 | apply Hkeeps0].
    + destruct Hcases as [-> _]. now left.
  - left. split; [exact Hnone |].
    apply await_rejected.
    unfold uploadViaDragAndDrop. rewrite try_catch_rethrows.
    now rewrite (bind_rejected _ _ _ _ _ Hzone).
Qed.

Lemma upload_steps_run (d : UploadData) (buffer : list Byte.byte) (w : World) :
  arrayBuffer d = Some buffer ->
  upload_steps (Some d) w
  = (await (uploadViaDragAndDrop
              (mkFile (Js.or_else (filename d) "image.png")
                      (Js.blobType (Js.or_else (mimeType d) "image/png"))
                      (now w) buffer)) ;;;
     await clickSendButton ;;; ret tt) w.
Proof. intros Hbuffer. unfold upload_steps. rewrite Hbuffer. reflexivity. Qed.

Lemma no_send_button_unavailable (w : World) :
  no_send_button (document w) -> sendButtonAvailable w = Ok false.
Proof.
  intros Hnone. unfold sendButtonAvailable. simpl querySelectorAll. cbv iota zeta.
  replace (find_first is_primary_send
             (filter is_visible (filter (matches [ByTag "button"]) (document w))))
    with (@Ok (option Element) None); [reflexivity |].
  symmetry. apply find_first_none. apply Forall_forall. intros btn Hin.
  apply filter_In in Hin. destruct Hin as [Hin Hvisible].
  apply filter_In in Hin. destruct Hin as [Hin Hbutton].
  unfold no_send_button in Hnone. rewrite Forall_forall in Hnone. auto.
Qed.

(** Where no send button ever shows, the wait for it runs into its
    timeout. *)
Lemma clickSendButton_without_button (w : World) :
  page_keeps no_send_button w ->
  exists w',
    clickSendButton w = (Rejected clickTimeout, w')
    /\ dispatched w' = dispatched w.
Proof.
  intros Hnone.
  pose proof (waitUntil_settles_on no_send_button sendButtonAvailable
                config.maxWaitTime.sendButton default_checkInterval w
                (fun w1 H => ex_intro _ false (no_send_button_unavailable w1 H))
                ltac:(reflexivity) Hnone) as Hs.
  pose proof (waitUntil_dispatched sendButtonAvailable config.maxWaitTime.sendButton
                default_checkInterval w) as Hd.
  pose proof (waitUntil_post sendButtonAvailable config.maxWaitTime.sendButton
                default_checkInterval w) as Hout.
  pose proof (Keeps_waitUntil no_send_button sendButtonAvailable
                config.maxWaitTime.sendButton default_checkInterval w Hnone)
    as [Hdoc _].
  unfold clickSendButton, rewrap. unfold try_catch at 1. unfold bind at 1.
  unfold await at 1.
  destruct (waitUntil sendButtonAvailable _ _ w) as [[[] | e | e |] w0];
    simpl in Hs, Hd, Hdoc; try contradiction.
  - rewrite (no_send_button_unavailable w0 Hdoc) in Hout. discriminate Hout.
  - destruct Hout as [(_ & Hthrow) | (-> & _)].
    + rewrite (no_send_button_unavailable w (proj1 Hnone)) in Hthrow.
      discriminate Hthrow.
    + eexists. split; [reflexivity |].
      rewrite <- Hd. apply dispatched_of_sides, resumed_sides.
Qed.

End Ending.

(** X13. On a page with no drop zone candidate, an upload that has its
    [arrayBuffer] fails at once with "No drop zone found. Make sure you have
    a chat open." and a duration of 0.  The script has done nothing: no
    event is dispatched, no listener installed, no observer or timer
    created; the world it leaves is the one it resumed in after the failed
    call, which is the world of the call when nothing of the page was
    due. *)
Theorem upload_without_drop_zone (d : UploadData) (buffer : list Byte.byte)
  (w : World) :
  arrayBuffer d = Some buffer ->
  no_drop_zone (document w) ->
  uploadPhoto (Some d) w
  = (Fulfilled (mkResponse false None
                  (Some "No drop zone found. Make sure you have a chat open.")
                  (Some 0)),
     resumed w)
  /\ script_side (resumed w) = script_side w
  /\ (flushed w -> resumed w = w).
Proof.
  intros Hbuffer Hnone.
  destruct (resumed_sides w) as [Hside Hnow].
  split; [| split; [exact Hside | apply resumed_flushed]].
  rewrite uploadPhoto_by_steps.
  rewrite (upload_steps_run d buffer w Hbuffer).
  destruct (await_drag_cases
              (mkFile (Js.or_else (filename d) "image.png")
                      (Js.blobType (Js.or_else (mimeType d) "image/png"))
                      (now w) buffer) w)
    as [(_ & Hrun) | (zone & _ & _ & _ & _ & Hzone & _)].
  - rewrite (bind_rejected _ _ _ _ _ Hrun). simpl. now rewrite Hnow, Z.sub_diag.
  - rewrite (findDropZone_none w Hnone) in Hzone. discriminate Hzone.
Qed.

Lemma upload_without_drop_zone_witness :
  uploadPhoto (Some Sample.photo) (Sample.idle Sample.telegram [Sample.chat] [])
  = (Fulfilled (mkResponse false None
                  (Some "No drop zone found. Make sure you have a chat open.")
                  (Some 0)),
     Sample.idle Sample.telegram [Sample.chat] [])
  /\ script_side (Sample.idle Sample.telegram [Sample.chat] [])
     = script_side (Sample.idle Sample.telegram [Sample.chat] [])
  /\ (flushed (Sample.idle Sample.telegram [Sample.chat] []) ->
      Sample.idle Sample.telegram [Sample.chat] []
      = Sample.idle Sample.telegram [Sample.chat] []).
Proof.
  apply (upload_without_drop_zone Sample.photo
           [Byte.x89; Byte.x50; Byte.x4e; Byte.x47]
           (Sample.idle Sample.telegram [Sample.chat] [])).
  - reflexivity.
  - repeat constructor.
Defined.

(** X14. On a page that has a drop zone but shows no preview, now or in
    anything it does later, the upload fails with the preview wait's timeout
    message, after the six drag events and nothing else were dispatched. *)
Theorem upload_without_preview (d : UploadData) (buffer : list Byte.byte)
  (w : World) (zone : Element) :
  arrayBuffer d = Some buffer ->
  findDropZone w = (Fulfilled zone, w) ->
  page_keeps no_preview w ->
  exists w' took surface entered left t,
    uploadPhoto (Some d) w
    = (Fulfilled (mkResponse false None (Some (message previewTimeout)) (Some took)),
       w')
    /\ dispatched w'
       = (dispatched w
          ++ drag_sequence (node zone) (node surface)
               (createDataTransfer
                  (mkFile (Js.or_else (filename d) "image.png")
                          (Js.blobType (Js.or_else (mimeType d) "image/png"))
                          (now w) buffer))
               entered left (now w) t)%list.
Proof.
  intros Hbuffer Hzone Hkeeps. rewrite uploadPhoto_by_steps.
  rewrite (upload_steps_run d buffer w Hbuffer).
  destruct (await_drag_cases
              (mkFile (Js.or_else (filename d) "image.png")
                      (Js.blobType (Js.or_else (mimeType d) "image/png"))
                      (now w) buffer) w)
    as [(Hnone & _) | (zone' & surface & entered & left & t & Hzone' & Hd & Hend)].
  - pose proof (findDropZone_none w Hnone) as Hc. congruence.
  - assert (zone' = zone) as -> by congruence.
    destruct Hend as [Hrun | (_ & w0 & Hkeeps0 & Hpreview)].
    + destruct (await (uploadViaDragAndDrop _) w) as [r6 w6] eqn:Hdrag.
      simpl in Hrun, Hd. subst r6.
      rewrite (bind_rejected _ _ _ _ _ Hdrag). simpl.
      eexists _, _, surface, entered, left, t. split; [reflexivity | exact Hd].
    + exfalso. apply Hpreview. exact (proj1 (Hkeeps0 no_preview Hkeeps)).
Qed.

Lemma upload_without_preview_witness :
  exists w' took surface entered left t,
    uploadPhoto (Some Sample.photo)
                (Sample.idle Sample.telegram [Sample.chat; Sample.composer] [])
    = (Fulfilled (mkResponse false None (Some (message previewTimeout)) (Some took)),
       w')
    /\ dispatched w'
       = (dispatched (Sample.idle Sample.telegram [Sample.chat; Sample.composer] [])
          ++ drag_sequence (node Sample.composer) (node surface)
               (createDataTransfer
                  (mkFile (Js.or_else (filename Sample.photo) "image.png")
                          (Js.blobType (Js.or_else (mimeType Sample.photo) "image/png"))
                          (now (Sample.idle Sample.telegram
                                  [Sample.chat; Sample.composer] []))
                          [Byte.x89; Byte.x50; Byte.x4e; Byte.x47]))
               entered left
               (now (Sample.idle Sample.telegram [Sample.chat; Sample.composer] []))
               t)%list.
Proof.
  apply (upload_without_preview Sample.photo
           [Byte.x89; Byte.x50; Byte.x4e; Byte.x47]
           (Sample.idle Sample.telegram [Sample.chat; Sample.composer] [])
           Sample.composer).
  - reflexivity.
  - reflexivity.
  - split; [reflexivity | constructor].
Defined.

(** X15. On a page that never shows a visible button which is a primary
    "Send", no upload succeeds and no [focus], [keydown] or [keyup] is ever
    dispatched: whatever the run dispatches carries the file. *)
Theorem upload_without_send_button (d : UploadData) (buffer : list Byte.byte)
  (w : World) :
  arrayBuffer d = Some buffer ->
  page_keeps no_send_button w ->
  exists r w' new,
    uploadPhoto (Some d) w = (Fulfilled r, w')
    /\ success r = false
    /\ dispatched w' = (dispatched w ++ new)%list
    /\ Forall (fun ev => eventType ev <> focus /\ eventType ev <> keydown
                         /\ eventType ev <> keyup) new.
Proof.
  intros Hbuffer Hkeeps. rewrite uploadPhoto_by_steps.
  rewrite (upload_steps_run d buffer w Hbuffer).
  set (file := mkFile (Js.or_else (filename d) "image.png")
                      (Js.blobType (Js.or_else (mimeType d) "image/png"))
                      (now w) buffer).
  pose proof (Keeps_await no_send_button _
                (Keeps_uploadViaDragAndDrop no_send_button file) w Hkeeps) as Hstill.
  assert (Hdrag : forall zone surface dt entered left t0 t,
             Forall (fun ev => eventType ev <> focus /\ eventType ev <> keydown
                               /\ eventType ev <> keyup)
                    (drag_sequence zone surface dt entered left t0 t))
    by (intros; unfold drag_sequence; repeat constructor; discriminate).
  destruct (await_drag_cases file w)
    as [(_ & Hrun) | (zone & surface & entered & left & t & _ & Hd & Hend)].
  - rewrite (bind_rejected _ _ _ _ _ Hrun). simpl.
    eexists _, _, []. rewrite app_nil_r.
    split; [reflexivity |]. split; [reflexivity |]. split; [| constructor].
    apply dispatched_of_sides, resumed_sides.
  - destruct (await (uploadViaDragAndDrop file) w) as [r6 w6] eqn:Hrun.
    simpl in Hd, Hend, Hstill.
    destruct Hend as [-> | (-> & _)].
    + rewrite (bind_rejected _ _ _ _ _ Hrun). simpl.
      eexists _, _, _. repeat split; [exact Hd | apply Hdrag].
    + rewrite (bind_run _ _ _ _ _ Hrun).
      destruct (clickSendButton_without_button w6 Hstill) as (w7 & Hclick & Hd7).
      rewrite (bind_rejected _ _ _ _ _ (await_rejected _ _ _ _ Hclick)). simpl.
      eexists _, _, _. split; [reflexivity |]. split; [reflexivity |].
      split; [| apply Hdrag].
      rewrite <- Hd, <- Hd7. apply dispatched_of_sides, resumed_sides.
Qed.

Lemma upload_without_send_button_witness :
  exists r w' new,
    uploadPhoto (Some Sample.photo)
      (Sample.idle Sample.telegram [Sample.chat; Sample.composer]
         [mkMutation 1200 [Sample.chat; Sample.composer; Sample.modal;
                           Sample.secondary] true])
    = (Fulfilled r, w')
    /\ success r = false
    /\ dispatched w'
       = (dispatched
            (Sample.idle Sample.telegram [Sample.chat; Sample.composer]
               [mkMutation 1200 [Sample.chat; Sample.composer; Sample.modal;
                                 Sample.secondary] true])
          ++ new)%list
    /\ Forall (fun ev => eventType ev <> focus /\ eventType ev <> keydown
                         /\ eventType ev <> keyup) new.
Proof.
  apply (upload_without_send_button Sample.photo
           [Byte.x89; Byte.x50; Byte.x4e; Byte.x47]
           (Sample.idle Sample.telegram [Sample.chat; Sample.composer]
              [mkMutation 1200 [Sample.chat; Sample.composer; Sample.modal;
                                Sample.secondary] true])).
  - reflexivity.
  - split; repeat constructor.
Defined.



(** * Properties of the popup *)

(** X17. [handleFileSelect] takes a file exactly when its type begins with
    "image/" and its size is at most 20971520 bytes: the file becomes the
    selection, its name is shown and the send button is enabled, the status
    staying as it was.  Any other file only raises an error status: the
    previous selection, the shown name and the state of the send button
    stay. *)
Theorem handleFileSelect_validation (file : Popup.SelectedFile) (p : Popup.State) :
  let p' := Popup.handleFileSelect (Some file) p in
  if String.prefix "image/" (Popup.type file) && (Popup.size file <=? 20971520)
  then Popup.selectedFile p' = Some file
       /\ Popup.fileName_textContent p' = Popup.name file
       /\ Popup.sendButton_disabled p' = false
       /\ Popup.statusContainer_classList p' = Popup.statusContainer_classList p
       /\ Popup.statusMessage_textContent p' = Popup.statusMessage_textContent p
  else Popup.selectedFile p' = Popup.selectedFile p
       /\ Popup.fileName_textContent p' = Popup.fileName_textContent p
       /\ Popup.sendButton_disabled p' = Popup.sendButton_disabled p
       /\ Popup.statusContainer_classList p' = ["status-container"; "error"]
       /\ (Popup.statusMessage_textContent p' = "Please select a valid image file"
           \/ Popup.statusMessage_textContent p' = "File size must be less than 20MB").
Proof.
  cbv zeta. unfold Popup.handleFileSelect.
  destruct (String.prefix "image/" (Popup.type file)); simpl negb; cbv iota.
  - rewrite Z.gtb_ltb. unfold Popup.maxSize.
    change (20 * 1024 * 1024) with 20971520.
    destruct (Z.leb_spec (Popup.size file) 20971520) as [Hle | Hgt].
    + replace (20971520 <? Popup.size file) with false
        by (symmetry; apply Z.ltb_ge; lia).
      simpl. auto.
    + replace (20971520 <? Popup.size file) with true
        by (symmetry; apply Z.ltb_lt; lia).
      simpl. repeat split; auto.
  - simpl. repeat split; auto.
Qed.

Section Sending.

Variable chrome : Popup.Chrome.

Lemma send_steps_upload_sent (file : Popup.SelectedFile) (p p' : Popup.State)
  (calls : list Popup.Call) (r : Result Response) (tab : nat) (request : Request) :
  Popup.send_steps file chrome p = (p', calls, r) ->
  In (Popup.Sent tab request) calls ->
  action request = JString "uploadPhoto" ->
  exists t u pingResponse,
    Popup.query chrome = Ok (Some t)
    /\ Popup.id t = tab
    /\ Popup.url t = Some u
    /\ Js.includes u "web.telegram.org" = true
    /\ Popup.executeScript chrome = Ok tt
    /\ Popup.sendMessage chrome tab Popup.pingRequest = Some pingResponse
    /\ success pingResponse = true
    /\ Popup.readable chrome = true
    /\ request = Popup.uploadRequest file.
Proof.
  unfold Popup.send_steps.
  destruct (Popup.query chrome) as [[t |] | e].
  - destruct (Popup.url t) as [u |] eqn:Hurl.
    + destruct (Js.includes u "web.telegram.org") eqn:Hhost; simpl negb; cbv iota.
      * destruct (Popup.executeScript chrome) as [[] | e].
        -- cbv zeta.
           destruct (Popup.sendMessage chrome (Popup.id t) Popup.pingRequest)
             as [pr |] eqn:Hpr.
           ++ destruct (success pr) eqn:Hok; simpl negb; cbv iota.
              ** destruct (Popup.readable chrome) eqn:Hread; simpl negb; cbv iota.
                 --- intros Hrun Hin Haction.
                     assert (Hcalls : calls
                               = ([Popup.Queried; Popup.Injected (Popup.id t);
                                   Popup.Sent (Popup.id t) Popup.pingRequest]
                                  ++ [Popup.Sent (Popup.id t)
                                        (Popup.uploadRequest file)])%list).
                     { destruct (Popup.sendMessage chrome (Popup.id t)
                                   (Popup.uploadRequest file)) as [resp |];
                         [destruct (success resp) |]; now injection Hrun. }
                     subst calls. apply in_app_or in Hin.
                     destruct Hin as [Hin | [Hin | []]].
                     +++ exfalso.
                         destruct Hin as [H | [H | [H | []]]]; try discriminate H.
                         injection H as <- <-. discriminate Haction.
                     +++ injection Hin as <- <-.
                         exists t, u, pr. repeat split; auto.
                 --- intros Hrun Hin Haction. injection Hrun as _ <- _.
                     exfalso.
                     destruct Hin as [H | [H | [H | []]]]; try discriminate H.
                     injection H as <- <-. discriminate Haction.
              ** intros Hrun Hin Haction. injection Hrun as _ <- _. exfalso.
                 destruct Hin as [H | [H | [H | []]]]; try discriminate H.
                 injection H as <- <-. discriminate Haction.
           ++ intros Hrun Hin Haction. injection Hrun as _ <- _. exfalso.
              destruct Hin as [H | [H | [H | []]]]; try discriminate H.
              injection H as <- <-. discriminate Haction.
        -- intros Hrun Hin _. injection Hrun as _ <- _.
           destruct Hin as [H | [H | []]]; discriminate H.
      * intros Hrun Hin _. injection Hrun as _ <- _.
        destruct Hin as [H | []]; discriminate H.
    + intros Hrun Hin _. injection Hrun as _ <- _.
      destruct Hin as [H | []]; discriminate H.
  - intros Hrun Hin _. injection Hrun as _ <- _.
    destruct Hin as [H | []]; discriminate H.
  - intros Hrun Hin _. injection Hrun as _ <- _.
    destruct Hin as [H | []]; discriminate H.
Qed.

End Sending.

(** X18. [handleSend] sends an upload request only when everything before
    it went well: a file is selected, the active tab's address holds
    "web.telegram.org", the injection succeeded, the ping was answered with
    success and the file could be read; and what it sends is that file:
    its bytes, its name and its type. *)
Theorem upload_is_sent_only_when_ready (chrome : Popup.Chrome) (p p' : Popup.State)
  (calls : list Popup.Call) (scheduled : bool) (tab : nat) (request : Request) :
  Popup.handleSend chrome p = (p', calls, scheduled) ->
  In (Popup.Sent tab request) calls ->
  action request = JString "uploadPhoto" ->
  exists file t u pingResponse,
    Popup.selectedFile p = Some file
    /\ Popup.query chrome = Ok (Some t)
    /\ Popup.id t = tab
    /\ Popup.url t = Some u
    /\ Js.includes u "web.telegram.org" = true
    /\ Popup.executeScript chrome = Ok tt
    /\ Popup.sendMessage chrome tab Popup.pingRequest = Some pingResponse
    /\ success pingResponse = true
    /\ Popup.readable chrome = true
    /\ request = Popup.uploadRequest file.
Proof.
  unfold Popup.handleSend.
  destruct (Popup.selectedFile p) as [file |] eqn:Hfile.
  - cbv zeta.
    destruct (Popup.send_steps file chrome _) as [[p1 calls1] r] eqn:Hsteps.
    intros Hrun Hin Haction.
    assert (calls1 = calls) as -> by (destruct r; now injection Hrun).
    destruct (send_steps_upload_sent chrome file _ _ _ _ tab request Hsteps Hin Haction)
      as (t & u & pr & H).
    exists file, t, u, pr. split; [reflexivity | exact H].
  - intros Hrun Hin _. injection Hrun as _ <- _. destruct Hin.
Qed.

Lemma upload_is_sent_only_when_ready_witness :
  exists file t u pingResponse,
    Popup.selectedFile PopupSample.with_cat = Some file
    /\ Popup.query (PopupSample.chrome_on Sample.cooperative) = Ok (Some t)
    /\ Popup.id t = 7%nat
    /\ Popup.url t = Some u
    /\ Js.includes u "web.telegram.org" = true
    /\ Popup.executeScript (PopupSample.chrome_on Sample.cooperative) = Ok tt
    /\ Popup.sendMessage (PopupSample.chrome_on Sample.cooperative) 7
                         Popup.pingRequest = Some pingResponse
    /\ success pingResponse = true
    /\ Popup.readable (PopupSample.chrome_on Sample.cooperative) = true
    /\ Popup.uploadRequest PopupSample.cat = Popup.uploadRequest file.
Proof.
  apply (upload_is_sent_only_when_ready (PopupSample.chrome_on Sample.cooperative)
           PopupSample.with_cat
           (fst (fst (Popup.handleSend (PopupSample.chrome_on Sample.cooperative)
                                       PopupSample.with_cat)))
           (snd (fst (Popup.handleSend (PopupSample.chrome_on Sample.cooperative)
                                       PopupSample.with_cat)))
           (snd (Popup.handleSend (PopupSample.chrome_on Sample.cooperative)
                                  PopupSample.with_cat))
           7%nat (Popup.uploadRequest PopupSample.cat)).
  - vm_compute. reflexivity.
  - vm_compute. right. right. right. left. reflexivity.
  - reflexivity.
Defined.

Section Reporting.

Variable chrome : Popup.Chrome.

(** The steps of a send touch nothing but the status; when they succeed the
    status is the success one. *)
Lemma send_steps_state (file : Popup.SelectedFile) (p p' : Popup.State)
  (calls : list Popup.Call) (r : Result Response) :
  Popup.send_steps file chrome p = (p', calls, r) ->
  Popup.selectedFile p' = Popup.selectedFile p
  /\ Popup.sendButton_disabled p' = Popup.sendButton_disabled p
  /\ Popup.sendButton_loading p' = Popup.sendButton_loading p
  /\ Popup.fileName_textContent p' = Popup.fileName_textContent p
  /\ match r with
     | Ok response =>
         success response = true
         /\ Popup.statusContainer_classList p' = ["status-container"; "success"]
         /\ Popup.statusMessage_textContent p'
            = Popup.check_mark ++ " Photo sent successfully! ("
              ++ Popup.show_duration (duration response) ++ "ms)"
         /\ exists tab, Popup.sendMessage chrome tab (Popup.uploadRequest file)
                        = Some response
     | Throw _ => True
     end.
Proof.
  unfold Popup.send_steps.
  destruct (Popup.query chrome) as [[t |] | e];
    try (intros H; injection H as <- _ <-; repeat split; reflexivity).
  destruct (match Popup.url t with
            | Some u => negb (Js.includes u "web.telegram.org")
            | None => true
            end);
    try (intros H; injection H as <- _ <-; repeat split; reflexivity).
  destruct (Popup.executeScript chrome) as [[] | e];
    try (intros H; injection H as <- _ <-; repeat split; reflexivity).
  cbv zeta.
  destruct (match Popup.sendMessage chrome (Popup.id t) Popup.pingRequest with
            | Some pingResponse => negb (success pingResponse)
            | None => true
            end);
    try (intros H; injection H as <- _ <-; repeat split; reflexivity).
  destruct (negb (Popup.readable chrome));
    try (intros H; injection H as <- _ <-; repeat split; reflexivity).
  destruct (Popup.sendMessage chrome (Popup.id t) (Popup.uploadRequest file))
    as [response |] eqn:Hsent.
  - destruct (success response) eqn:Hok.
    + intros H. injection H as <- _ <-. repeat split; try reflexivity; eauto.
    + intros H. injection H as <- _ <-. repeat split; reflexivity.
  - intros H. injection H as <- _ <-. repeat split; reflexivity.
Qed.

End Reporting.

(** X19. With a file selected, [handleSend] always ends with the loading
    mark removed and the selection kept, in one of two states.  Success: the
    upload was answered with [success: true], the status is the success one
    and shows the duration of the response, the send button stays disabled
    and [clearSelection] is scheduled.  Failure: the status is the error one
    and reads "Error: " and the message after its mark, the send button is
    enabled again and nothing is scheduled. *)
Theorem handleSend_reports (chrome : Popup.Chrome) (p : Popup.State)
  (file : Popup.SelectedFile) :
  Popup.selectedFile p = Some file ->
  let p' := fst (fst (Popup.handleSend chrome p)) in
  let scheduled := snd (Popup.handleSend chrome p) in
  Popup.sendButton_loading p' = false
  /\ Popup.selectedFile p' = Some file
  /\ ((scheduled = true
       /\ Popup.sendButton_disabled p' = true
       /\ Popup.statusContainer_classList p' = ["status-container"; "success"]
       /\ exists tab response,
            Popup.sendMessage chrome tab (Popup.uploadRequest file) = Some response
            /\ success response = true
            /\ Popup.statusMessage_textContent p'
               = Popup.check_mark ++ " Photo sent successfully! ("
                 ++ Popup.show_duration (duration response) ++ "ms)")
      \/ (scheduled = false
          /\ Popup.sendButton_disabled p' = false
          /\ Popup.statusContainer_classList p' = ["status-container"; "error"]
          /\ exists text,
               Popup.statusMessage_textContent p'
               = Popup.ballot_x ++ " Error: " ++ text)).
Proof.
  intros Hfile. cbv zeta. unfold Popup.handleSend. rewrite Hfile. cbv zeta.
  destruct (Popup.send_steps file chrome _) as [[p1 calls] r] eqn:Hsteps.
  destruct (send_steps_state chrome file _ _ _ _ Hsteps)
    as (Hsel & Hdis & Hload & _ & Hr).
  simpl in Hsel, Hdis. destruct r as [response | e]; simpl.
  - destruct Hr as (Hok & Hclass & Htext & tab & Hsent).
    split; [reflexivity |]. split; [congruence |]. left.
    repeat split; try assumption. eauto.
  - split; [reflexivity |]. split; [congruence |]. right.
    repeat split. eauto.
Qed.

Lemma handleSend_reports_witness :
  let p' := fst (fst (Popup.handleSend (PopupSample.chrome_on Sample.cooperative)
                                       PopupSample.with_cat)) in
  let scheduled := snd (Popup.handleSend (PopupSample.chrome_on Sample.cooperative)
                                         PopupSample.with_cat) in
  Popup.sendButton_loading p' = false
  /\ Popup.selectedFile p' = Some PopupSample.cat
  /\ ((scheduled = true
       /\ Popup.sendButton_disabled p' = true
       /\ Popup.statusContainer_classList p' = ["status-container"; "success"]
       /\ exists tab response,
            Popup.sendMessage (PopupSample.chrome_on Sample.cooperative) tab
                              (Popup.uploadRequest PopupSample.cat) = Some response
            /\ success response = true
            /\ Popup.statusMessage_textContent p'
               = Popup.check_mark ++ " Photo sent successfully! ("
                 ++ Popup.show_duration (duration response) ++ "ms)")
      \/ (scheduled = false
          /\ Popup.sendButton_disabled p' = false
          /\ Popup.statusContainer_classList p' = ["status-container"; "error"]
          /\ exists text,
               Popup.statusMessage_textContent p'
               = Popup.ballot_x ++ " Error: " ++ text)).
Proof.
  apply (handleSend_reports (PopupSample.chrome_on Sample.cooperative)
                            PopupSample.with_cat PopupSample.cat).
  reflexivity.
Defined.

(** X20. [clearSelection] brings the popup to one state, whatever it was
    apart from the loading mark and the status: nothing selected, the input
    emptied, "Choose an image" shown, preview hidden, send button disabled,
    status hidden.  Doing it twice changes nothing more, and a [handleSend]
    right after it makes no call to Chrome and only reports that an image
    must be selected first. *)
Theorem clearSelection_resets (chrome : Popup.Chrome) (p : Popup.State) :
  let p' := Popup.clearSelection p in
  Popup.selectedFile p' = None
  /\ Popup.fileInput_value p' = ""
  /\ Popup.fileName_textContent p' = "Choose an image"
  /\ Popup.imagePreview_src p' = ""
  /\ Popup.previewContainer_hidden p' = true
  /\ Popup.sendButton_disabled p' = true
  /\ In "hidden" (Popup.statusContainer_classList p')
  /\ Popup.clearSelection p' = p'
  /\ Popup.handleSend chrome p'
     = (Popup.showStatus "Please select an image first" Popup.as_error p', [], false).
Proof.
  cbv zeta.
  assert (Hadd : forall classes,
             In "hidden" (Popup.classList_add "hidden" classes)
             /\ Popup.classList_add "hidden" (Popup.classList_add "hidden" classes)
                = Popup.classList_add "hidden" classes).
  { intros classes. unfold Popup.classList_add.
    destruct (existsb (String.eqb "hidden") classes) eqn:Hin.
    - rewrite Hin. split; [| reflexivity].
      apply existsb_exists in Hin. destruct Hin as (c & Hc & Heq).
      apply String.eqb_eq in Heq. now subst.
    - rewrite existsb_app. simpl. rewrite orb_true_r.
      split; [| reflexivity]. apply in_or_app. right. now left. }
  destruct (Hadd (Popup.statusContainer_classList p)) as [Hin Hidem].
  unfold Popup.clearSelection, Popup.hideStatus, Popup.with_status. simpl.
  repeat split; try assumption.
  now rewrite Hidem.
Qed.

(** * The popup and the content script together *)

Section Together.

Lemma uploadPhoto_result (data : option UploadData) (w : World) :
  page_keeps html_controls w ->
  exists r w',
    uploadPhoto data w = (Fulfilled r, w')
    /\ (success r = true ->
        exists took, duration r = Some took /\ 0 <= took <= 15300)
    /\ (success r = false -> exists text, error r = Some text).
Proof.
  intros Hhtml.
  pose proof (Within_upload_steps data w) as Hclock.
  pose proof (upload_steps_settle data w Hhtml) as Hsettled.
  rewrite uploadPhoto_by_steps.
  destruct (upload_steps data w) as [[[] | e | e |] w1]; simpl in *;
    try contradiction; eexists _, w1; (split; [reflexivity |]); simpl; split;
    intros H; try discriminate H; eexists; try split; try reflexivity; lia.
Qed.

Lemma onMessage_upload (payload : option UploadData) (w : World) :
  page_keeps html_controls w ->
  exists r,
    fst (onMessage (mkRequest (JString "uploadPhoto") payload) w) = [r]
    /\ (success r = true ->
        exists took, duration r = Some took /\ 0 <= took <= 15300)
    /\ (success r = false -> exists text, error r = Some text).
Proof.
  intros Hhtml.
  unfold onMessage. simpl strict_eq. cbv iota.
  unfold isValidTelegramPage. simpl querySelector. cbv iota.
  destruct (Js.includes (href w) "web.telegram.org" && _).
  - simpl data.
    destruct (uploadPhoto_result payload w Hhtml) as (r & w' & -> & Hok & Hfail).
    exists r. simpl. auto.
  - eexists. split; [reflexivity |]. simpl. split; [discriminate | eauto].
Qed.

End Together.

(** X21. The popup against the content script.  With a file selected, the
    active tab on Telegram, the injection done and the file readable,
    [handleSend] makes exactly four calls: the query, the injection, the ping
    and the upload request carrying the file.  On a page whose buttons and
    preview are HTML elements the content script gives the upload one
    answer, and the popup ends according to it: on success, with
    "Photo sent successfully!" and the duration of the run, at most 15300
    ms, after its mark, and [clearSelection] scheduled; on failure, with the
    script's own error message after "Error: " and the send button enabled
    again. *)
Theorem popup_against_content_script (w : World) (p : Popup.State)
  (file : Popup.SelectedFile) (tab : Popup.Tab) (u : string) :
  Popup.selectedFile p = Some file ->
  Popup.url tab = Some u ->
  Js.includes u "web.telegram.org" = true ->
  page_keeps html_controls w ->
  let chrome := Popup.mkChrome (Ok (Some tab)) (Ok tt) (answering w) true in
  let p' := fst (fst (Popup.handleSend chrome p)) in
  snd (fst (Popup.handleSend chrome p))
  = [Popup.Queried; Popup.Injected (Popup.id tab);
     Popup.Sent (Popup.id tab) Popup.pingRequest;
     Popup.Sent (Popup.id tab) (Popup.uploadRequest file)]
  /\ exists r,
       fst (onMessage (Popup.uploadRequest file) w) = [r]
       /\ (success r = true ->
           snd (Popup.handleSend chrome p) = true
           /\ exists took,
                duration r = Some took /\ 0 <= took <= 15300
                /\ Popup.statusMessage_textContent p'
                   = Popup.check_mark ++ " Photo sent successfully! ("
                     ++ Js.of_Z took ++ "ms)")
       /\ (success r = false ->
           snd (Popup.handleSend chrome p) = false
           /\ Popup.sendButton_disabled p' = false
           /\ exists text,
                error r = Some text
                /\ Popup.statusMessage_textContent p'
                   = Popup.ballot_x ++ " Error: "
                     ++ Js.or_else (Some text) "Upload failed with unknown error").
Proof.
  intros Hfile Hurl Hhost Hhtml. cbv zeta.
  destruct (onMessage_upload
              (Some (mkUploadData (Some (Popup.bytes file)) (Some (Popup.name file))
                                  (Some (Popup.type file)))) w Hhtml)
    as (r & Hr & Hok & Hfail).
  change (mkRequest (JString "uploadPhoto")
            (Some (mkUploadData (Some (Popup.bytes file)) (Some (Popup.name file))
                                (Some (Popup.type file)))))
    with (Popup.uploadRequest file) in Hr.
  assert (Hsent : answering w (Popup.id tab) (Popup.uploadRequest file) = Some r)
    by (unfold answering; now rewrite Hr).
  unfold Popup.handleSend. rewrite Hfile. cbv zeta.
  unfold Popup.send_steps. cbn [Popup.query Popup.executeScript Popup.readable
                                 Popup.sendMessage].
  rewrite Hurl, Hhost. simpl negb. cbv iota zeta.
  change (answering w (Popup.id tab) Popup.pingRequest)
    with (Some (mkResponse true (Some "Content script is ready") None None)).
  cbn [success negb]. cbv iota. rewrite Hsent.
  destruct (success r) eqn:Hsuccess.
  - split; [reflexivity |]. exists r. split; [exact Hr |].
    split; [| intros H; congruence].
    intros _. split; [reflexivity |].
    destruct (Hok eq_refl) as (took & Hd & Hb).
    exists took. split; [exact Hd |]. split; [exact Hb |].
    simpl. rewrite Hd. reflexivity.
  - split; [reflexivity |]. exists r. split; [exact Hr |].
    split; [intros H; congruence |].
    intros _. split; [reflexivity |]. split; [reflexivity |].
    destruct (Hfail eq_refl) as (text & Herr).
    exists text. split; [exact Herr |]. simpl. rewrite Herr. reflexivity.
Qed.

Lemma popup_against_content_script_witness :
  let chrome := Popup.mkChrome (Ok (Some PopupSample.telegram_tab)) (Ok tt)
                               (answering Sample.cooperative) true in
  let p' := fst (fst (Popup.handleSend chrome PopupSample.with_cat)) in
  snd (fst (Popup.handleSend chrome PopupSample.with_cat))
  = [Popup.Queried; Popup.Injected (Popup.id PopupSample.telegram_tab);
     Popup.Sent (Popup.id PopupSample.telegram_tab) Popup.pingRequest;
     Popup.Sent (Popup.id PopupSample.telegram_tab)
                (Popup.uploadRequest PopupSample.cat)]
  /\ exists r,
       fst (onMessage (Popup.uploadRequest PopupSample.cat) Sample.cooperative) = [r]
       /\ (success r = true ->
           snd (Popup.handleSend chrome PopupSample.with_cat) = true
           /\ exists took,
                duration r = Some took /\ 0 <= took <= 15300
                /\ Popup.statusMessage_textContent p'
                   = Popup.check_mark ++ " Photo sent successfully! ("
                     ++ Js.of_Z took ++ "ms)")
       /\ (success r = false ->
           snd (Popup.handleSend chrome PopupSample.with_cat) = false
           /\ Popup.sendButton_disabled p' = false
           /\ exists text,
                error r = Some text
                /\ Popup.statusMessage_textContent p'
                   = Popup.ballot_x ++ " Error: "
                     ++ Js.or_else (Some text) "Upload failed with unknown error").
Proof.
  apply (popup_against_content_script Sample.cooperative PopupSample.with_cat
           PopupSample.cat PopupSample.telegram_tab Sample.telegram);
    try reflexivity.
  split; repeat constructor.
Defined.

Example popup_shows_the_duration :
  Popup.statusMessage_textContent
    (fst (fst (Popup.handleSend (PopupSample.chrome_on Sample.cooperative)
                                PopupSample.with_cat)))
  = Popup.check_mark ++ " Photo sent successfully! (700ms)".
Proof. vm_compute. reflexivity. Qed.

(** X22. On a page whose buttons and preview are HTML elements an upload
    request gets one answer, and the answer lacks its [duration] exactly
    when the page failed the precondition: on a page that passes it,
    whatever the request carries and however the run ends, the answer has a
    duration between 0 and 15300 ms. *)
Theorem upload_answer_duration (payload : option UploadData) (w : World) :
  page_keeps html_controls w ->
  exists r,
    fst (onMessage (mkRequest (JString "uploadPhoto") payload) w) = [r]
    /\ (duration r = None <-> isValidTelegramPage w = Ok false)
    /\ (forall took, duration r = Some took -> 0 <= took <= 15300).
Proof.
  intros Hhtml.
  unfold onMessage. simpl strict_eq. cbv iota.
  unfold isValidTelegramPage. simpl querySelector. cbv iota.
  destruct (Js.includes (href w) "web.telegram.org" && _).
  - simpl data.
    pose proof (Within_upload_steps payload w) as Hclock.
    pose proof (upload_steps_settle payload w Hhtml) as Hsettled.
    rewrite uploadPhoto_by_steps.
    destruct (upload_steps payload w) as [[[] | e | e |] w1]; simpl in *;
      try contradiction; eexists; (split; [reflexivity |]); simpl; split;
      try (split; discriminate); intros took H; injection H as <-; lia.
  - eexists. split; [reflexivity |]. simpl. split; [tauto | discriminate].
Qed.

Lemma upload_answer_duration_witness :
  exists r,
    fst (onMessage (mkRequest (JString "uploadPhoto") (Some Sample.photo))
                   Sample.cooperative) = [r]
    /\ (duration r = None <-> isValidTelegramPage Sample.cooperative = Ok false)
    /\ (forall took, duration r = Some took -> 0 <= took <= 15300).
Proof.
  apply (upload_answer_duration (Some Sample.photo) Sample.cooperative).
  split; repeat constructor.
Defined.
